(** * Issue detection, auto-adoption and patch correction pipeline

    A shallow embedding of the core of the OCR-correction backend
    ([backend/services/detection_service.py], [pdf_service.py],
    [gemini_service.py], [correction_service.py], the helpers of
    [ocr_service.py] and the corrections API), followed by the properties
    established about it. *)

From Stdlib Require Import ZArith List Bool Ascii String.
From Stdlib Require Import Floats.
From stdpp Require Import base option list gmap strings.

Set Warnings "-inexact-float".
Set Default Proof Using "Type".

Local Open Scope Z_scope.

(** ** Python strings *)

(** A Python [str] is a sequence of Unicode code points.  The character
    tables and the iteration order of sets belong to the interpreter, not to
    the repository, so they are an interface; everything below is stated for
    an arbitrary runtime. *)
Module PyStr.

Abbreviation str := (list Z).

Class PyRuntime := {
  (** regex class [\d] *)
  u_decimal : Z -> bool;
  (** regex class [\w] *)
  u_word : Z -> bool;
  (** the characters removed by [str.strip()] *)
  u_space : Z -> bool;
  (** [str.lower()] *)
  u_lower : str -> str;
  (** the order in which [set(xs)] is iterated *)
  set_iter : forall (A : Type) `{EqDecision A}, list A -> list A;
}.

(** ASCII literals of the source. *)
Definition lit (s : string) : str :=
  map (fun a => Z.of_N (N_of_ascii a)) (list_ascii_of_string s).

Fixpoint starts_with (p s : str) : bool :=
  match p, s with
  | [], _ => true
  | a :: p', b :: s' => (a =? b) && starts_with p' s'
  | _ :: _, [] => false
  end.

(** [needle in hay] *)
Fixpoint contains (needle hay : str) : bool :=
  starts_with needle hay ||
  match hay with
  | [] => false
  | _ :: hay' => contains needle hay'
  end.

Fixpoint lstrip_with (sp : Z -> bool) (s : str) : str :=
  match s with
  | [] => []
  | c :: s' => if sp c then lstrip_with sp s' else s
  end.

Definition strip `{PyRuntime} (s : str) : str :=
  rev (lstrip_with u_space (rev (lstrip_with u_space s))).

Definition len (s : str) : Z := Z.of_nat (length s).

(** [sep.join(parts)] *)
Fixpoint join (sep : str) (parts : list str) : str :=
  match parts with
  | [] => []
  | [p] => p
  | p :: ps => p ++ sep ++ join sep ps
  end.

(** The tables restricted to ASCII; exact on ASCII text. *)
Definition ascii_decimal (c : Z) : bool := (48 <=? c) && (c <=? 57).
Definition ascii_upper (c : Z) : bool := (65 <=? c) && (c <=? 90).
Definition ascii_lower (c : Z) : bool := (97 <=? c) && (c <=? 122).
Definition ascii_word (c : Z) : bool :=
  ascii_decimal c || ascii_upper c || ascii_lower c || (c =? 95).
Definition ascii_space (c : Z) : bool :=
  ((9 <=? c) && (c <=? 13)) || ((28 <=? c) && (c <=? 32)).
Definition ascii_to_lower (c : Z) : Z := if ascii_upper c then c + 32 else c.

Definition ascii_runtime : PyRuntime := {|
  u_decimal := ascii_decimal;
  u_word := ascii_word;
  u_space := ascii_space;
  u_lower := map ascii_to_lower;
  set_iter := fun A _ xs => remove_dups xs;
|}.

End PyStr.

(** ** Regular expressions *)

(** The fragment of [re] the services use: literals, character classes,
    concatenation, alternation and repetition, matched with derivatives. *)
Module Re.
Import PyStr.

Inductive citem :=
| One (c : Z)
| Range (lo hi : Z)
| Digit
| Word.

Inductive regex :=
| Void
| Eps
| Cls (items : list citem)
| Cat (r1 r2 : regex)
| Alt (r1 r2 : regex)
| Star (r : regex).

Definition Chr (c : Z) : regex := Cls [One c].
Definition Plus (r : regex) : regex := Cat r (Star r).
Definition Opt (r : regex) : regex := Alt r Eps.

Fixpoint Rep (n : nat) (r : regex) : regex :=
  match n with
  | O => Eps
  | S n' => Cat r (Rep n' r)
  end.

(** [r{n,}] *)
Definition AtLeast (n : nat) (r : regex) : regex := Cat (Rep n r) (Star r).

(** [r{n,m}] with [m = n + extra] *)
Definition Between (n extra : nat) (r : regex) : regex :=
  Cat (Rep n r) (Rep extra (Opt r)).

Fixpoint Seq (rs : list regex) : regex :=
  match rs with
  | [] => Eps
  | [r] => r
  | r :: rs' => Cat r (Seq rs')
  end.

Definition Lit (s : string) : regex := Seq (map Chr (lit s)).

Section Matching.
Context `{PyRuntime}.

Definition in_item (c : Z) (i : citem) : bool :=
  match i with
  | One d => c =? d
  | Range lo hi => (lo <=? c) && (c <=? hi)
  | Digit => u_decimal c
  | Word => u_word c
  end.

Definition in_class (items : list citem) (c : Z) : bool :=
  existsb (in_item c) items.

Fixpoint nullable (r : regex) : bool :=
  match r with
  | Void => false
  | Eps => true
  | Cls _ => false
  | Cat r1 r2 => nullable r1 && nullable r2
  | Alt r1 r2 => nullable r1 || nullable r2
  | Star _ => true
  end.

Definition cat (r1 r2 : regex) : regex :=
  match r1, r2 with
  | Void, _ => Void
  | _, Void => Void
  | Eps, _ => r2
  | _, _ => Cat r1 r2
  end.

Definition alt (r1 r2 : regex) : regex :=
  match r1, r2 with
  | Void, _ => r2
  | _, Void => r1
  | _, _ => Alt r1 r2
  end.

Fixpoint deriv (c : Z) (r : regex) : regex :=
  match r with
  | Void => Void
  | Eps => Void
  | Cls items => if in_class items c then Eps else Void
  | Cat r1 r2 =>
      if nullable r1
      then alt (cat (deriv c r1) r2) (deriv c r2)
      else cat (deriv c r1) r2
  | Alt r1 r2 => alt (deriv c r1) (deriv c r2)
  | Star r1 => cat (deriv c r1) (Star r1)
  end.

(** some prefix of [s] matches [r] *)
Fixpoint match_here (r : regex) (s : str) : bool :=
  nullable r ||
  match s with
  | [] => false
  | c :: s' => match_here (deriv c r) s'
  end.

(** [re.search(r, s)] finds a match *)
Fixpoint search (r : regex) (s : str) : bool :=
  match_here r s ||
  match s with
  | [] => false
  | _ :: s' => search r s'
  end.

Fixpoint fullmatch (r : regex) (s : str) : bool :=
  match s with
  | [] => nullable r
  | c :: s' => fullmatch (deriv c r) s'
  end.

(** [re.match('^' r '$', s)]: [$] also matches just before a final
    newline. *)
Definition match_anchored (r : regex) (s : str) : bool :=
  fullmatch r s ||
  match rev s with
  | 10 :: init => fullmatch r (rev init)
  | _ => false
  end.
End Matching.

End Re.

(** ** Python floats *)

(** Confidences are IEEE binary64 values; the primitive floats compute the
    comparisons and the arithmetic of the source bit for bit. *)
Module PyFloat.
Import PyStr.

(** [float(z)]; exact for the pixel coordinates and lengths that occur
    (|z| < 2^53). *)
Definition of_int (z : Z) : float :=
  if z <? 0
  then PrimFloat.opp (PrimFloat.of_uint63 (Uint63Axioms.of_Z (- z)))
  else PrimFloat.of_uint63 (Uint63Axioms.of_Z z).

Definition lt (a b : float) : bool := PrimFloat.ltb a b.
Definition gt (a b : float) : bool := PrimFloat.ltb b a.

(** [min(a, b)] keeps its first argument unless the second is smaller. *)
Definition py_min (a b : float) : float := if lt b a then b else a.

Definition decimal (z : Z) : str := lit (pretty.pretty (Z.to_N z)).

Definition sign_str (s : bool) : str := if s then lit "-" else [].

(** rounding [num / den] to the nearest integer, ties to even *)
Definition round_half_even (num den : Z) : Z :=
  let q := num / den in
  let r := num mod den in
  if (den <? 2 * r) || ((2 * r =? den) && Z.odd q) then q + 1 else q.

Definition fixed_digits (d : nat) (s : bool) (q : Z) : str :=
  let scale := 10 ^ Z.of_nat d in
  sign_str s ++ decimal (q / scale) ++
  match d with
  | O => []
  | _ => lit "." ++ drop 1 (decimal (scale + q mod scale))
  end.

(** [format(f, '.<d>f')] *)
Definition format_fixed (d : nat) (f : float) : str :=
  match Prim2SF f with
  | S754_nan => lit "nan"
  | S754_infinity s => sign_str s ++ lit "inf"
  | S754_zero s => fixed_digits d s 0
  | S754_finite s m e =>
      let scale := 10 ^ Z.of_nat d in
      let q :=
        if 0 <=? e
        then Z.pos m * 2 ^ e * scale
        else round_half_even (Z.pos m * scale) (2 ^ (- e)) in
      fixed_digits d s q
  end.

End PyFloat.

(** ** Configuration ([backend/config.py]) *)

Module Config.

Record Settings := {
  max_pages_per_project : Z;
  max_issues_per_page : Z;
  max_roi_width : Z;
  max_roi_height : Z;
  roi_margin : Z;
}.

(** the values of the class body, used unless the environment overrides
    them *)
Definition default_settings : Settings := {|
  max_pages_per_project := 100;
  max_issues_per_page := 20;
  max_roi_width := 500;
  max_roi_height := 500;
  roi_margin := 40;
|}.

End Config.

(** ** Data model *)

Module Model.
Import PyStr.

Inductive IssueType := low_confidence | garbled | missing | manual.
Inductive IssueStatus := detected | reviewing | corrected | skipped.

Record BBox := {
  box_x : Z;
  box_y : Z;
  box_width : Z;
  box_height : Z;
}.

Record OCRBlock := {
  block_text : str;
  block_bbox : BBox;
  block_confidence : float;
}.

(** the issue dicts built by [detect_issues] *)
Record Issue := {
  page_id : string;
  bbox_x : Z;
  bbox_y : Z;
  bbox_width : Z;
  bbox_height : Z;
  issue_type : IssueType;
  confidence : float;
  ocr_text : str;
  detected_problems : list str;
  status : IssueStatus;
  auto_correctable : bool;
}.

Record Candidate := {
  cand_text : str;
  cand_confidence : float;
  cand_reason : str;
}.

End Model.

(** ** Issue detection ([backend/services/detection_service.py]) *)

Module Detection.
Import PyStr Re PyFloat Config Model.

Definition ch (a : ascii) : Z := Z.of_N (N_of_ascii a).

(** U+FFFD, U+25A1, U+25A0 and the question mark *)
Definition GARBLED_CHARS : gset Z := {[ 65533; 9633; 9632; ch "?" ]}.

Definition SUSPICIOUS_PATTERNS : list regex := [
  (* [<U+FFFD><U+25A1><U+25A0>]{2,} *)
  AtLeast 2 (Cls [One 65533; One 9633; One 9632]);
  (* [\?\!]{3,} *)
  AtLeast 3 (Cls [One (ch "?"); One (ch "!")]);
  (* [a-z][A-Z]{3,}[a-z] *)
  Seq [Cls [Range (ch "a") (ch "z")];
       AtLeast 3 (Cls [Range (ch "A") (ch "Z")]);
       Cls [Range (ch "a") (ch "z")]];
  (* \d[a-zA-Z]\d[a-zA-Z] *)
  Seq [Cls [Digit];
       Cls [Range (ch "a") (ch "z"); Range (ch "A") (ch "Z")];
       Cls [Digit];
       Cls [Range (ch "a") (ch "z"); Range (ch "A") (ch "Z")]]
].

Definition sensitive_patterns : list regex := [
  (* \d{4,} *)
  AtLeast 4 (Cls [Digit]);
  (* https?:// *)
  Seq [Lit "http"; Opt (Chr (ch "s")); Lit "://"];
  (* www\. *)
  Lit "www.";
  (* [\w.-]+@[\w.-]+\.\w+ *)
  Seq [Plus (Cls [Word; One (ch "."); One (ch "-")]);
       Chr (ch "@");
       Plus (Cls [Word; One (ch "."); One (ch "-")]);
       Chr (ch ".");
       Plus (Cls [Word])];
  (* \d{4}[-/]\d{1,2}[-/]\d{1,2} *)
  Seq [Rep 4 (Cls [Digit]);
       Cls [One (ch "-"); One (ch "/")];
       Between 1 1 (Cls [Digit]);
       Cls [One (ch "-"); One (ch "/")];
       Between 1 1 (Cls [Digit])];
  (* [\d,]+<U+5186> *)
  Seq [Plus (Cls [Digit; One (ch ",")]); Chr 20870];
  (* \$[\d,]+ *)
  Seq [Chr (ch "$"); Plus (Cls [Digit; One (ch ",")])];
  (* [A-Z]{2,}\d+ *)
  Seq [AtLeast 2 (Cls [Range (ch "A") (ch "Z")]); Plus (Cls [Digit])];
  (* \d+-\d+-\d+ *)
  Seq [Plus (Cls [Digit]); Chr (ch "-");
       Plus (Cls [Digit]); Chr (ch "-");
       Plus (Cls [Digit])]
].

(** [l[:n]] *)
Definition slice_to {A} (n : Z) (l : list A) : list A :=
  if n <? 0 then take (Z.to_nat (Z.of_nat (length l) + n)) l
  else take (Z.to_nat n) l.

Section WithRuntime.
Context `{PyRuntime}.

Definition contains_sensitive_pattern (text : str) : bool :=
  existsb (fun pattern => search pattern text) sensitive_patterns.

(** the katakana class is [U+30A1-U+30F6, U+30FC], the kanji class
    [U+4E00-U+9FA5] *)
Definition looks_like_proper_noun (text : str) : bool :=
  if match_anchored (Plus (Cls [Range 12449 12534; One 12540])) text
     && (len text <=? 10)
  then true
  else if match_anchored (Plus (Cls [Range 19968 40869])) text
          && (len text <=? 4)
  then true
  else if match_anchored
            (Seq [Cls [Range (ch "A") (ch "Z")];
                  Plus (Cls [Range (ch "a") (ch "z")])]) text
  then true
  else false.

Definition evaluate_auto_correctability
    (text : str) (confidence : float) (problems : list str) : bool :=
  if contains_sensitive_pattern text then false
  else if existsb (contains (lit "Garbled")) problems
          && gt confidence 0.5%float then true
  else if lt confidence 0.6%float then false
  else if len (strip text) <? 5 then false
  else true.

(** *** The per-block checks of [detect_issues] *)

(** the loop variables [issue_type], [detected_problems] and
    [auto_correctable] *)
Record scan := {
  scan_type : option IssueType;
  scan_problems : list str;
  scan_auto : bool;
}.

Definition scan_start : scan :=
  {| scan_type := None; scan_problems := []; scan_auto := false |}.

Definition garbled_found (text : str) : list Z :=
  filter (fun c => c ∈ GARBLED_CHARS) text.

(** Check 1 *)
Definition check_low_confidence (b : OCRBlock) (s : scan) : scan :=
  if lt (block_confidence b) 0.8%float
  then {| scan_type := Some low_confidence;
          scan_problems := scan_problems s ++
            [lit "Low OCR confidence: "
             ++ format_fixed 2 (block_confidence b)];
          scan_auto := scan_auto s |}
  else s.

(** Check 2 *)
Definition check_garbled_chars (b : OCRBlock) (s : scan) : scan :=
  match garbled_found (block_text b) with
  | [] => s
  | found =>
      {| scan_type := Some garbled;
         scan_problems := scan_problems s ++
           [lit "Garbled characters: "
            ++ join (lit ", ") (map (fun c => [c]) (set_iter Z found))];
         scan_auto := true |}
  end.

(** Check 3 *)
Definition check_suspicious (b : OCRBlock) (s : scan) : scan :=
  if existsb (fun pattern => search pattern (block_text b))
             SUSPICIOUS_PATTERNS
  then {| scan_type := match scan_type s with
                       | None => Some garbled
                       | Some t => Some t
                       end;
          scan_problems := scan_problems s
                             ++ [lit "Suspicious pattern detected"];
          scan_auto := scan_auto s |}
  else s.

(** Check 4 *)
Definition check_large_empty (b : OCRBlock) (s : scan) : scan :=
  if (100 <? box_width (block_bbox b)) && (30 <? box_height (block_bbox b))
  then if len (strip (block_text b)) <? 3
       then {| scan_type := Some missing;
               scan_problems := scan_problems s ++
                 [lit "Possible missing text: large area with minimal content"];
               scan_auto := scan_auto s |}
       else s
  else s.

Definition char_density (b : OCRBlock) : float :=
  let area := box_width (block_bbox b) * box_height (block_bbox b) in
  (of_int (len (block_text b)) / (of_int area / 1000))%float.

(** Check 5 *)
Definition check_density (b : OCRBlock) (s : scan) : scan :=
  if (0 <? box_width (block_bbox b)) && (0 <? box_height (block_bbox b))
  then if lt (char_density b) 0.1%float && (5 <? len (block_text b))
       then {| scan_type := match scan_type s with
                            | None => Some missing
                            | Some t => Some t
                            end;
               scan_problems := scan_problems s ++
                 [lit "Low character density: "
                  ++ format_fixed 3 (char_density b)];
               scan_auto := scan_auto s |}
       else s
  else s.

Definition run_checks (b : OCRBlock) : scan :=
  check_density b
    (check_large_empty b
       (check_suspicious b
          (check_garbled_chars b
             (check_low_confidence b scan_start)))).

(** one iteration of the loop: the issue appended for block [b], if any *)
Definition detect_block (pid : string) (b : OCRBlock) : option Issue :=
  let s := run_checks b in
  match scan_type s, scan_problems s with
  | Some t, _ :: _ =>
      Some {| page_id := pid;
              bbox_x := box_x (block_bbox b);
              bbox_y := box_y (block_bbox b);
              bbox_width := box_width (block_bbox b);
              bbox_height := box_height (block_bbox b);
              issue_type := t;
              confidence := block_confidence b;
              ocr_text := block_text b;
              detected_problems := scan_problems s;
              status := detected;
              auto_correctable :=
                evaluate_auto_correctability
                  (block_text b) (block_confidence b) (scan_problems s) |}
  | _, _ => None
  end.

(** [blocks] is the block list of the OCR result, [pid] the page id *)
Definition detect_issues (settings : Settings)
    (blocks : list OCRBlock) (pid : string) : list Issue :=
  slice_to (max_issues_per_page settings) (omap (detect_block pid) blocks).

(** *** Auto-adoption *)

Definition _text_similarity (text1 text2 : str) : float :=
  match text1, text2 with
  | [], _ | _, [] => 0.0%float
  | _, _ =>
      let t1 := u_lower (strip text1) in
      let t2 := u_lower (strip text2) in
      if bool_decide (t1 = t2) then 1.0%float
      else
        let chars1 : gset Z := list_to_set t1 in
        let chars2 : gset Z := list_to_set t2 in
        let intersection := Z.of_nat (size (chars1 ∩ chars2)) in
        let union := Z.of_nat (size (chars1 ∪ chars2)) in
        if union =? 0 then 0.0%float
        else (of_int intersection / of_int union)%float
  end.

(** [any(c in text for c in GARBLED_CHARS)] *)
Definition has_garbled (text : str) : bool :=
  existsb (fun c => contains [c] text) (elements GARBLED_CHARS).

Definition evaluate_auto_adopt
    (ocr_text : str) (candidates : list Candidate) (ocr_confidence : float)
    : bool * option Z :=
  match candidates with
  | [] => (false, None)
  | top_candidate :: _ =>
      (* Rule 1 *)
      if contains_sensitive_pattern ocr_text
         || contains_sensitive_pattern (cand_text top_candidate)
      then (false, None)
      (* Rule 2 *)
      else if looks_like_proper_noun (cand_text top_candidate)
      then (false, None)
      (* Rule 3 *)
      else if match candidates with
              | _ :: second :: _ =>
                  lt (cand_confidence top_candidate
                      - cand_confidence second)%float 0.15%float
              | _ => false
              end
      then (false, None)
      (* Rule 4 *)
      else if has_garbled ocr_text
              && negb (has_garbled (cand_text top_candidate))
              && gt (cand_confidence top_candidate) 0.85%float
      then (true, Some 0)
      (* Rule 5 *)
      else if gt (cand_confidence top_candidate) 0.90%float
      then (true, Some 0)
      (* Rule 6 *)
      else if gt ocr_confidence 0.9%float
              && gt (cand_confidence top_candidate) 0.85%float
              && gt (_text_similarity ocr_text (cand_text top_candidate))
                    0.8%float
      then (true, Some 0)
      else if gt (cand_confidence top_candidate) 0.80%float
      then (true, Some 0)
      else (false, None)
  end.

(** *** Merging *)

Definition _bboxes_nearby (issue1 issue2 : Issue) (threshold : Z) : bool :=
  let c1_x := (of_int (bbox_x issue1) + of_int (bbox_width issue1) / 2)%float in
  let c1_y := (of_int (bbox_y issue1) + of_int (bbox_height issue1) / 2)%float in
  let c2_x := (of_int (bbox_x issue2) + of_int (bbox_width issue2) / 2)%float in
  let c2_y := (of_int (bbox_y issue2) + of_int (bbox_height issue2) / 2)%float in
  let h_dist :=
    (PrimFloat.abs (c1_x - c2_x)
     - of_int (bbox_width issue1 + bbox_width issue2) / 2)%float in
  let v_dist :=
    (PrimFloat.abs (c1_y - c2_y)
     - of_int (bbox_height issue1 + bbox_height issue2) / 2)%float in
  lt h_dist (of_int threshold) && lt v_dist (of_int threshold).

Definition _merge_two_issues (issue1 issue2 : Issue) : Issue :=
  let x1 := Z.min (bbox_x issue1) (bbox_x issue2) in
  let y1 := Z.min (bbox_y issue1) (bbox_y issue2) in
  let x2 := Z.max (bbox_x issue1 + bbox_width issue1)
                  (bbox_x issue2 + bbox_width issue2) in
  let y2 := Z.max (bbox_y issue1 + bbox_height issue1)
                  (bbox_y issue2 + bbox_height issue2) in
  {| page_id := page_id issue1;
     bbox_x := x1;
     bbox_y := y1;
     bbox_width := x2 - x1;
     bbox_height := y2 - y1;
     issue_type := issue_type issue1;
     confidence := py_min (confidence issue1) (confidence issue2);
     ocr_text := strip (ocr_text issue1 ++ lit " " ++ ocr_text issue2);
     detected_problems :=
       set_iter str (detected_problems issue1 ++ detected_problems issue2);
     status := status issue1;
     auto_correctable := auto_correctable issue1 |}.

(** the inner loop over [enumerate(issues[i + 1:], i + 1)] *)
Definition merge_scan (threshold : Z) (later : list (nat * Issue))
    (start : Issue * gset nat) : Issue * gset nat :=
  foldl (fun '(current, used) '(j, issue2) =>
           if bool_decide (j ∈ used) then (current, used)
           else if _bboxes_nearby current issue2 threshold
           then (_merge_two_issues current issue2, {[ j ]} ∪ used)
           else (current, used))
        start later.

(** the outer loop over [enumerate(issues)] *)
Definition merge_loop (threshold : Z) (issues : list Issue)
    : list Issue * gset nat :=
  foldl (fun '(merged, used) '(i, issue1) =>
           if bool_decide (i ∈ used) then (merged, used)
           else
             let '(current, used') :=
               merge_scan threshold
                 (drop (S i) (imap pair issues)) (issue1, used) in
             (merged ++ [current], {[ i ]} ∪ used'))
        ([], ∅) (imap pair issues).

Definition merge_nearby_issues (issues : list Issue) (threshold : Z)
    : list Issue :=
  if (length issues <=? 1)%nat then issues
  else fst (merge_loop threshold issues).

End WithRuntime.
End Detection.

(** ** Exceptions *)

Module Exn.
Import PyStr.

(** the outcome of a call that may raise; an exception is represented by
    its message [str(e)] *)
Inductive result (A : Type) : Type :=
| Ok (a : A)
| Raise (msg : str).
Arguments Ok {A} a.
Arguments Raise {A} msg.

#[global] Instance result_ret : MRet result := fun A a => Ok a.
#[global] Instance result_bind : MBind result := fun A B k r =>
  match r with
  | Ok a => k a
  | Raise msg => Raise msg
  end.

#[global] Instance result_fmap : FMap result := fun A B f r =>
  match r with
  | Ok a => Ok (f a)
  | Raise msg => Raise msg
  end.

Definition is_ok {A} (r : result A) : bool :=
  match r with
  | Ok _ => true
  | Raise _ => false
  end.

End Exn.

(** ** Raster images *)

(** A PNG object is modelled by the raster it decodes to: its size and its
    pixels.  The page images are rendered without alpha, crops keep the mode
    of the page, so every raster here is opaque RGB and pasting a patch with
    itself as mask overwrites the covered pixels.  Two objects whose rasters
    differ at a pixel inside the image differ as byte strings. *)
Module Raster.
Import PyStr Exn.

Definition pixel : Type := Z * Z * Z.

Record image := {
  img_width : Z;
  img_height : Z;
  getpixel : Z -> Z -> pixel;
}.

Definition inside (img : image) (i j : Z) : bool :=
  (0 <=? i) && (i <? img_width img) && (0 <=? j) && (j <? img_height img).

Definition black : pixel := (0, 0, 0).

(** [img.crop((x1, y1, x2, y2))]; a box with [x2 < x1] or [y2 < y1] is
    rejected, pixels outside the source are black *)
Definition crop (img : image) (x1 y1 x2 y2 : Z) : result image :=
  if x2 <? x1 then Raise (lit "Coordinate 'right' is less than 'left'")
  else if y2 <? y1 then Raise (lit "Coordinate 'lower' is less than 'upper'")
  else Ok {| img_width := x2 - x1;
             img_height := y2 - y1;
             getpixel := fun i j =>
               if inside img (x1 + i) (y1 + j)
               then getpixel img (x1 + i) (y1 + j)
               else black |}.

(** [page.paste(patch, (x, y), patch)] *)
Definition paste (page patch : image) (x y : Z) : image :=
  {| img_width := img_width page;
     img_height := img_height page;
     getpixel := fun i j =>
       if inside patch (i - x) (j - y)
       then getpixel patch (i - x) (j - y)
       else getpixel page i j |}.

(** equality of the visible content *)
Definition same_raster (a b : image) : Prop :=
  img_width a = img_width b /\
  img_height a = img_height b /\
  forall i j, inside a i j = true -> getpixel a i j = getpixel b i j.

(** stored bytes: a PNG, or something [Image.open] cannot identify *)
Inductive blob :=
| Png (img : image)
| Raw (data : list Z).

(** [Image.open(io.BytesIO(bytes))] *)
Definition Image_open (b : blob) : result image :=
  match b with
  | Png img => Ok img
  | Raw _ => Raise (lit "cannot identify image file")
  end.

(** [img.save(buffer, format="PNG")]; an empty image cannot be written *)
Definition save_png (img : image) : result blob :=
  if (img_width img <=? 0) || (img_height img <=? 0)
  then Raise (lit "cannot write empty image")
  else Ok (Png img).

End Raster.

(** ** Raster store *)

Module Storage.
Import PyStr Exn Raster.

(** Modelled from the spec: the raster store [backend.storage], which is
    not among the sources.  Section 6 gives its contract:
    [get(path) -> bytes] and [save(bytes, path) -> ()], addressed by opaque
    string paths, with no transactional guarantee; section 7 lets both
    fail.  A failed save may leave the store in any state. *)
Class RasterStore (S : Type) := {
  get : S -> string -> result blob;
  save_bytes : S -> blob -> string -> result unit * S;
}.

(** Modelled from the spec: reading from a store that keeps the objects of
    [backend.storage] in memory; a path that was never saved raises. *)
Definition mem_get (m : gmap string blob) (path : string) : result blob :=
  match m !! path with
  | Some b => Ok b
  | None => Raise (lit "No such file")
  end.

(** Modelled from the spec: saving to the in-memory store overwrites the
    object at the path and cannot fail. *)
Definition mem_save (m : gmap string blob) (b : blob) (path : string)
    : result unit * gmap string blob :=
  (Ok tt, <[path := b]> m).

(** Modelled from the spec: the in-memory store as an instance of the
    raster-store contract of [backend.storage]. *)
Definition mem_store : RasterStore (gmap string blob) :=
  {| get := mem_get; save_bytes := mem_save |}.

End Storage.

(** ** ROI extraction and compositing ([backend/services/pdf_service.py]) *)

Module Pdf.
Import PyStr Exn Raster Storage Config Model.

Record AdjustedBBox := {
  adj_x : Z;
  adj_y : Z;
  adj_width : Z;
  adj_height : Z;
  (** ["original_bbox_offset"] *)
  offset_x : Z;
  offset_y : Z;
}.

Section WithStore.
Context {S : Type} `{RasterStore S} (settings : Settings).

(** the corners [(x1, y1, x2, y2)] of the ROI: the bbox grown by the
    margin, clamped to the image, then cut down to the size cap *)
Definition roi_bounds (img : image) (bbox : BBox) (margin : Z)
    : Z * Z * Z * Z :=
  let x1 := Z.max 0 (box_x bbox - margin) in
  let y1 := Z.max 0 (box_y bbox - margin) in
  let x2 := Z.min (img_width img) (box_x bbox + box_width bbox + margin) in
  let y2 := Z.min (img_height img) (box_y bbox + box_height bbox + margin) in
  let '(x1, x2) :=
    if max_roi_width settings <? x2 - x1
    then let excess := (x2 - x1) - max_roi_width settings in
         (x1 + excess / 2, x2 - excess / 2)
    else (x1, x2) in
  let '(y1, y2) :=
    if max_roi_height settings <? y2 - y1
    then let excess := (y2 - y1) - max_roi_height settings in
         (y1 + excess / 2, y2 - excess / 2)
    else (y1, y2) in
  (x1, y1, x2, y2).

Definition extract_roi_with_margin
    (st : S) (page_image_path : string) (bbox : BBox) (margin : option Z)
    : result (blob * AdjustedBBox) :=
  let margin := default (roi_margin settings) margin in
  img_bytes ← get st page_image_path;
  img ← Image_open img_bytes;
  let '(x1, y1, x2, y2) := roi_bounds img bbox margin in
  roi ← crop img x1 y1 x2 y2;
  roi_bytes ← save_png roi;
  mret (roi_bytes,
        {| adj_x := x1;
           adj_y := y1;
           adj_width := x2 - x1;
           adj_height := y2 - y1;
           offset_x := box_x bbox - x1;
           offset_y := box_y bbox - y1 |}).

Definition apply_patch_to_page
    (st : S) (page_image_path : string) (patch_bytes : blob) (x y : Z)
    : result blob :=
  page_bytes ← get st page_image_path;
  page_img ← Image_open page_bytes;
  patch_img ← Image_open patch_bytes;
  save_png (paste page_img patch_img x y).

End WithStore.
End Pdf.

(** ** The image editor ([backend/services/gemini_service.py]) *)

Module Gemini.
Import PyStr PyFloat Exn Raster.

(** a part of a response; [inline_data] is its image payload, if any *)
Record part := { inline_data : option blob }.

(** The outcome of one attempt at the external model: a response, or an
    exception raised by [generate_content] or while reading the response. *)
Inductive model_call :=
| Responds (parts : list part)
| Throws (msg : str).

Record GeminiImageEditor := {
  thought_signature : option str;
  retry_count : Z;
  max_retries : Z;
}.

(** [GeminiImageEditor()] *)
Definition new_editor : GeminiImageEditor :=
  {| thought_signature := None; retry_count := 0; max_retries := 3 |}.

Definition first_image (parts : list part) : option blob :=
  match omap inline_data parts with
  | [] => None
  | image_data :: _ => Some image_data
  end.

Section WithModel.
Context `{PyRuntime}.
(** the external model: the outcome of its [n]-th call *)
Variable generate_content : nat -> model_call.

(** ["thought" in error_msg or "signature" in error_msg] *)
Definition is_signature_error (e : str) : bool :=
  contains (lit "thought") (u_lower e)
  || contains (lit "signature") (u_lower e).

(** ["rate" in error_msg or "quota" in error_msg] *)
Definition is_rate_limit_error (e : str) : bool :=
  contains (lit "rate") (u_lower e) || contains (lit "quota") (u_lower e).

(** the iterations of [for attempt in range(self.max_retries)] that are
    left, with the editor and the number of calls made so far *)
Fixpoint attempt_loop (remaining : nat) (attempt : Z)
    (ed : GeminiImageEditor) (calls : nat)
    : (option blob * str) * GeminiImageEditor * nat :=
  match remaining with
  | O => ((None, lit "Max retries exceeded"), ed, calls)
  | S remaining' =>
      match generate_content calls with
      | Responds parts =>
          match first_image parts with
          | Some image_data => ((Some image_data, lit "success"), ed, S calls)
          | None => ((None, lit "No image in Gemini response"), ed, S calls)
          end
      | Throws e =>
          if is_signature_error e
          then attempt_loop remaining' (attempt + 1)
                 {| thought_signature := None;
                    retry_count := retry_count ed + 1;
                    max_retries := max_retries ed |}
                 (S calls)
          else if is_rate_limit_error e
          then ((None, lit "Rate limited: " ++ e), ed, S calls)
          else if attempt =? max_retries ed - 1
          then ((None,
                 lit "Gemini error after " ++ decimal (max_retries ed)
                 ++ lit " attempts: " ++ e), ed, S calls)
          else attempt_loop remaining' (attempt + 1) ed (S calls)
      end
  end.

Definition edit_roi_patch (ed : GeminiImageEditor) (calls : nat)
    (roi_image : blob) (original_text corrected_text : str)
    : (option blob * str) * GeminiImageEditor * nat :=
  attempt_loop (Z.to_nat (max_retries ed)) 0 ed calls.

End WithModel.
End Gemini.

(** ** Applying and undoing corrections
       ([backend/services/correction_service.py]) *)

Module Correction.
Import PyStr Exn Raster Storage Config Model Pdf Gemini.

(** what the services act on: the raster store, the editor singleton and
    the number of calls made to the external model *)
Record world (S : Type) := {
  w_store : S;
  w_editor : GeminiImageEditor;
  w_calls : nat;
}.
Arguments w_store {S} w.
Arguments w_editor {S} w.
Arguments w_calls {S} w.

Definition with_store {S} (w : world S) (st : S) : world S :=
  {| w_store := st; w_editor := w_editor w; w_calls := w_calls w |}.

Section WithStore.
Context `{PyRuntime} {S : Type} `{RasterStore S} (settings : Settings).

(** [apply_text_overlay]: the Pillow rendering (colour sampling, font
    loading, glyph drawing) of the corrected text into the ROI *)
Variable apply_text_overlay : blob -> BBox -> str -> str -> result blob.
Variable generate_content : nat -> model_call.

(** computations over the world that may raise *)
Definition M (A : Type) : Type := world S -> result A * world S.

Definition ret {A} (a : A) : M A := fun w => (Ok a, w).
Definition bind {A B} (m : M A) (k : A -> M B) : M B := fun w =>
  match m w with
  | (Ok a, w') => k a w'
  | (Raise msg, w') => (Raise msg, w')
  end.
Definition lift {A} (f : S -> result A) : M A := fun w => (f (w_store w), w).
Definition storage_save (b : blob) (path : string) : M unit := fun w =>
  let '(r, st) := save_bytes (w_store w) b path in (r, with_store w st).

Definition apply_nano_banana
    (roi_image_bytes : blob) (original_text corrected_text : str)
    (w : world S) : (option blob * str) * world S :=
  let '(result_bytes, status, ed, calls) :=
    edit_roi_patch generate_content (w_editor w) (w_calls w)
      roi_image_bytes original_text corrected_text in
  let w' := {| w_store := w_store w; w_editor := ed; w_calls := calls |} in
  match result_bytes with
  | Some b => ((Some b, lit "nano_banana_success"), w')
  | None => ((None, lit "nano_banana_failed: " ++ status), w')
  end.

Definition before_path_of (project_id issue_id : string) : string :=
  ("projects/" ++ project_id ++ "/patches/" ++ issue_id ++ "_before.png")%string.
Definition after_path_of (project_id issue_id : string) : string :=
  ("projects/" ++ project_id ++ "/patches/" ++ issue_id ++ "_after.png")%string.

Definition apply_correction
    (page_image_path : string) (issue_bbox : BBox)
    (corrected_text original_text : str) (method : string)
    (project_id issue_id : string) : M (string * string * str) :=
  bind (lift (fun st =>
          extract_roi_with_margin settings st page_image_path issue_bbox
            (Some (roi_margin settings))))
    (fun '(roi_bytes, adjusted_bbox) =>
  let before_path := before_path_of project_id issue_id in
  bind (storage_save roi_bytes before_path) (fun _ =>
  let bbox_in_roi :=
    {| box_x := offset_x adjusted_bbox;
       box_y := offset_y adjusted_bbox;
       box_width := box_width issue_bbox;
       box_height := box_height issue_bbox |} in
  bind (if String.eqb method "nano_banana"
        then fun w =>
          match apply_nano_banana roi_bytes original_text corrected_text w with
          | ((Some corrected_bytes, status), w') =>
              (Ok (corrected_bytes, status), w')
          | ((None, _), w') =>
              ((fun b => (b, lit "fallback_to_text_overlay")) <$>
                 apply_text_overlay roi_bytes bbox_in_roi
                   corrected_text original_text, w')
          end
        else fun w =>
          ((fun b => (b, lit "text_overlay_success")) <$>
             apply_text_overlay roi_bytes bbox_in_roi
               corrected_text original_text, w))
    (fun '(corrected_bytes, status) =>
  let after_path := after_path_of project_id issue_id in
  bind (storage_save corrected_bytes after_path) (fun _ =>
  bind (lift (fun st =>
          apply_patch_to_page st page_image_path corrected_bytes
            (adj_x adjusted_bbox) (adj_y adjusted_bbox)))
    (fun updated_page_bytes =>
  bind (storage_save updated_page_bytes page_image_path) (fun _ =>
  ret (before_path, after_path, status))))))).

(** the body of the [try] block of [undo_correction] *)
Definition undo_body
    (page_image_path patch_before_path : string) (patch_bbox : BBox)
    : M unit :=
  bind (lift (fun st => get st patch_before_path)) (fun before_bytes =>
  bind (lift (fun st =>
          apply_patch_to_page st page_image_path before_bytes
            (box_x patch_bbox) (box_y patch_bbox)))
    (fun updated_page_bytes =>
  storage_save updated_page_bytes page_image_path)).

Definition undo_correction
    (page_image_path patch_before_path : string) (patch_bbox : BBox)
    (w : world S) : bool * world S :=
  match undo_body page_image_path patch_before_path patch_bbox w with
  | (Ok _, w') => (true, w')
  | (Raise _, w') => (false, w')
  end.

End WithStore.
End Correction.

(** ** The corrections endpoints ([backend/api/corrections.py]) *)

Module Api.
Import PyStr Exn Raster Storage Config Model Pdf Gemini Correction.

(** the columns of the ORM rows that the endpoints read or write *)
Record PageRow := {
  project_id : string;
  image_path : string;
}.

Record IssueRow := {
  row_page_id : string;
  row_bbox_x : Z;
  row_bbox_y : Z;
  row_bbox_width : Z;
  row_bbox_height : Z;
  row_ocr_text : option str;
  row_status : IssueStatus;
  row_candidates : option (list Candidate);
}.

Record CorrectionRow := {
  issue_id : string;
  correction_method : string;
  original_text : option str;
  corrected_text : str;
  candidates : option (list Candidate);
  selected_candidate_index : option Z;
  patch_before_path : string;
  patch_after_path : string;
  applied : bool;
  applied_at : option Z;
}.

Record Db := {
  pages : gmap string PageRow;
  issues : gmap string IssueRow;
  corrections : gmap string CorrectionRow;
}.

Record ApplyCorrectionRequest := {
  req_issue_id : string;
  req_method : string;
  selected_text : option str;
  selected_index : option Z;
}.

(** what an endpoint gives back: its JSON body, or an [HTTPException] *)
Inductive http (A : Type) : Type :=
| Response (body : A)
| HTTPException (status_code : Z) (detail : str).
Arguments Response {A} body.
Arguments HTTPException {A} status_code detail.

Record CorrectionBody := {
  body_id : string;
  body_status : str;
  body_applied : bool;
}.

Record UndoBody := {
  undo_id : string;
  undone : bool;
  issue_status : IssueStatus;
}.

Definition set_status (s : IssueStatus) (issue : IssueRow) : IssueRow :=
  {| row_page_id := row_page_id issue;
     row_bbox_x := row_bbox_x issue;
     row_bbox_y := row_bbox_y issue;
     row_bbox_width := row_bbox_width issue;
     row_bbox_height := row_bbox_height issue;
     row_ocr_text := row_ocr_text issue;
     row_status := s;
     row_candidates := row_candidates issue |}.

Definition set_applied (b : bool) (c : CorrectionRow) : CorrectionRow :=
  {| issue_id := issue_id c;
     correction_method := correction_method c;
     original_text := original_text c;
     corrected_text := corrected_text c;
     candidates := candidates c;
     selected_candidate_index := selected_candidate_index c;
     patch_before_path := patch_before_path c;
     patch_after_path := patch_after_path c;
     applied := b;
     applied_at := applied_at c |}.

Definition row_bbox (issue : IssueRow) : BBox :=
  {| box_x := row_bbox_x issue;
     box_y := row_bbox_y issue;
     box_width := row_bbox_width issue;
     box_height := row_bbox_height issue |}.

Section WithStore.
Context `{PyRuntime} {S : Type} `{RasterStore S} (settings : Settings).
Variable apply_text_overlay : blob -> BBox -> str -> str -> result blob.
Variable generate_content : nat -> model_call.

(** [POST /api/corrections]; [new_id] and [now] are the primary key and
    the timestamp the new row receives *)
Definition create_correction
    (request : ApplyCorrectionRequest) (new_id : string) (now : Z)
    (db : Db) (w : world S) : http CorrectionBody * Db * world S :=
  match issues db !! req_issue_id request with
  | None => (HTTPException 404 (lit "Issue not found"), db, w)
  | Some issue =>
  match pages db !! row_page_id issue with
  | None => (HTTPException 500 (lit "Internal Server Error"), db, w)
  | Some page =>
  let chosen : result (option str) :=
    match selected_text request, selected_index request with
    | None, Some i =>
        match row_candidates issue with
        | Some (c :: cs) =>
            if (0 <=? i) && (i <? Z.of_nat (length (c :: cs)))
            then Ok (cand_text <$> (c :: cs) !! Z.to_nat i)
            else Raise (lit "Invalid candidate index")
        | _ => Raise (lit "Invalid candidate index")
        end
    | t, _ => Ok t
    end in
  match chosen with
  | Raise detail => (HTTPException 400 detail, db, w)
  | Ok None =>
      (HTTPException 400
         (lit "Must provide either selected_text or selected_candidate_index"),
       db, w)
  | Ok (Some text) =>
  if negb (String.eqb (req_method request) "text_overlay"
           || String.eqb (req_method request) "nano_banana")
  then (HTTPException 400
          (lit "Method must be 'text_overlay' or 'nano_banana'"), db, w)
  else
  match apply_correction settings apply_text_overlay generate_content
          (image_path page) (row_bbox issue) text
          (default [] (row_ocr_text issue)) (req_method request)
          (project_id page) (req_issue_id request) w with
  | (Raise e, w') =>
      (HTTPException 500 (lit "Failed to apply correction: " ++ e), db, w')
  | (Ok (before_path, after_path, status), w') =>
      let correction :=
        {| issue_id := req_issue_id request;
           correction_method := req_method request;
           original_text := row_ocr_text issue;
           corrected_text := text;
           candidates := row_candidates issue;
           selected_candidate_index := selected_index request;
           patch_before_path := before_path;
           patch_after_path := after_path;
           applied := true;
           applied_at := Some now |} in
      (Response {| body_id := new_id; body_status := status;
                   body_applied := true |},
       {| pages := pages db;
          issues := <[req_issue_id request := set_status corrected issue]>
                      (issues db);
          corrections := <[new_id := correction]> (corrections db) |},
       w')
  end
  end
  end
  end.

(** [POST /api/corrections/{correction_id}/undo] *)
Definition undo_correction_endpoint
    (correction_id : string) (db : Db) (w : world S)
    : http UndoBody * Db * world S :=
  match corrections db !! correction_id with
  | None => (HTTPException 404 (lit "Correction not found"), db, w)
  | Some correction =>
  if negb (applied correction)
  then (HTTPException 400 (lit "Correction is not currently applied"), db, w)
  else
  match issues db !! issue_id correction with
  | None => (HTTPException 500 (lit "Internal Server Error"), db, w)
  | Some issue =>
  match pages db !! row_page_id issue with
  | None => (HTTPException 500 (lit "Internal Server Error"), db, w)
  | Some page =>
  let bbox := row_bbox issue in
  let '(success, w') :=
    undo_correction (image_path page) (patch_before_path correction)
      bbox w in
  if negb success
  then (HTTPException 500 (lit "Failed to undo correction"), db, w')
  else
    (Response {| undo_id := correction_id; undone := true;
                 issue_status := reviewing |},
     {| pages := pages db;
        issues := <[issue_id correction := set_status reviewing issue]>
                    (issues db);
        corrections := <[correction_id := set_applied false correction]>
                         (corrections db) |},
     w')
  end
  end
  end.

End WithStore.
End Api.

(** ** Predicates and concrete inputs used by the statements below *)

Module Scenarios.
Import PyStr PyFloat Re Config Model Detection.
Import Exn Raster Storage Pdf Gemini Correction Api.

Definition issue_bbox (i : Issue) : BBox :=
  {| box_x := bbox_x i; box_y := bbox_y i;
     box_width := bbox_width i; box_height := bbox_height i |}.

(** issue [i] was built from block [b] *)
Definition issue_for (b : OCRBlock) (i : Issue) : Prop :=
  issue_bbox i = block_bbox b /\ ocr_text i = block_text b.

(** [detect_issues] returns an auto-correctable issue for block [b] *)
Definition surfaced `{PyRuntime} (settings : Settings)
    (blocks : list OCRBlock) (pid : string) (b : OCRBlock) : Prop :=
  exists i, i ∈ detect_issues settings blocks pid
            /\ issue_for b i /\ auto_correctable i = true.

(** a problem string [p] is recorded and the issue type is set *)
Definition flagged (p : list Z) (s : scan) : Prop :=
  is_Some (scan_type s) /\ p ∈ scan_problems s.

Definition only_garbled (text : list Z) : Prop :=
  text <> [] /\ Forall (fun c => c ∈ GARBLED_CHARS) text.

(** the condition under which Check 4 assigns *)
Definition large_and_empty `{PyRuntime} (b : OCRBlock) : bool :=
  (100 <? box_width (block_bbox b)) && (30 <? box_height (block_bbox b))
  && (len (strip (block_text b)) <? 3).

(** the condition under which Check 3 records a problem *)
Definition looks_suspicious `{PyRuntime} (b : OCRBlock) : bool :=
  existsb (fun pattern => search pattern (block_text b)) SUSPICIOUS_PATTERNS.

(** the condition under which Check 5 records a problem *)
Definition sparse (b : OCRBlock) : bool :=
  (0 <? box_width (block_bbox b)) && (0 <? box_height (block_bbox b))
  && lt (char_density b) 0.1%float && (5 <? len (block_text b)).

(** *** Detection inputs *)

(** a block reading ["?"] at horizontal position [x] *)
Definition question_block (x : Z) (c : float) : OCRBlock :=
  {| block_text := lit "?";
     block_bbox := {| box_x := x; box_y := 0;
                      box_width := 40; box_height := 20 |};
     block_confidence := c |}.

(** twenty-one such blocks side by side *)
Definition crowded_page : list OCRBlock :=
  map (fun x => question_block x 0.9%float) (seqZ 0 21).

Definition cand (t : string) (c : float) (reason : list Z) : Candidate :=
  {| cand_text := lit t; cand_confidence := c; cand_reason := reason |}.

Definition draft (x y w h : Z) (c : float) (t : list Z) : Issue :=
  {| page_id := "page-1"; bbox_x := x; bbox_y := y;
     bbox_width := w; bbox_height := h;
     issue_type := garbled; confidence := c; ocr_text := t;
     detected_problems := [lit "Suspicious pattern detected"];
     status := detected; auto_correctable := false |}.

(** *** Raster inputs *)

Definition page_path : string := "projects/p1/pages/1.png".

(** a 200 x 200 page whose pixel at [(i, j)] is [(i, j, 0)] *)
Definition gradient : image :=
  {| img_width := 200; img_height := 200;
     getpixel := fun i j => (i, j, 0) |}.

(** a 1000 x 1000 white page *)
Definition blank : image :=
  {| img_width := 1000; img_height := 1000;
     getpixel := fun _ _ => (255, 255, 255) |}.

Definition wide_bbox : BBox :=
  {| box_x := 100; box_y := 100; box_width := 421; box_height := 10 |}.

Definition small_issue (s : IssueStatus) : IssueRow :=
  {| row_page_id := "pg1"; row_bbox_x := 50; row_bbox_y := 50;
     row_bbox_width := 10; row_bbox_height := 10;
     row_ocr_text := Some (lit "?"); row_status := s;
     row_candidates := None |}.

Definition page_row : PageRow :=
  {| project_id := "p1"; image_path := page_path |}.

Definition one_page : gmap string PageRow := {[ "pg1"%string := page_row ]}.

Definition db_reviewing : Db :=
  {| pages := one_page;
     issues := {[ "i1"%string := small_issue reviewing ]};
     corrections := ∅ |}.

Definition fresh_world : world (gmap string blob) :=
  {| w_store := {[ page_path := Png gradient ]};
     w_editor := new_editor; w_calls := 0 |}.

Definition overlay_request : ApplyCorrectionRequest :=
  {| req_issue_id := "i1"; req_method := "text_overlay";
     selected_text := Some (lit "A"); selected_index := None |}.

(** a renderer that hands the ROI back as it is *)
Definition keep_roi : blob -> BBox -> list Z -> list Z -> result blob :=
  fun roi _ _ _ => Ok roi.

(** a model that never answers with an image *)
Definition silent_model : nat -> model_call := fun _ => Responds [].

(** a correction recorded as applied; in [fresh_world] its before-patch
    is not in the store *)
Definition applied_correction : CorrectionRow :=
  {| issue_id := "i1"; correction_method := "text_overlay";
     original_text := Some (lit "?"); corrected_text := lit "A";
     candidates := None; selected_candidate_index := None;
     patch_before_path := before_path_of "p1" "i1";
     patch_after_path := after_path_of "p1" "i1";
     applied := true; applied_at := Some 0 |}.

Definition db_applied : Db :=
  {| pages := one_page;
     issues := {[ "i1"%string := small_issue corrected ]};
     corrections := {[ "c1"%string := applied_correction ]} |}.

Definition is_response {A} (r : http A) : bool :=
  match r with
  | Response _ => true
  | HTTPException _ _ => false
  end.

(** the first correction of the issue on the gradient page, with the
    text-overlay method *)
Definition first_apply `{PyRuntime}
    (overlay : blob -> BBox -> list Z -> list Z -> result blob)
    (generate_content : nat -> model_call) (now : Z)
    : http CorrectionBody * Db * world (gmap string blob) :=
  create_correction (H0 := mem_store) default_settings overlay
    generate_content overlay_request "c1" now db_reviewing fresh_world.

(** *** Editor inputs *)

(** the first call fails with a network error, every later call returns an
    image *)
Definition flaky_model : nat -> model_call := fun n =>
  match n with
  | O => Throws (lit "connection reset")
  | _ => Responds [ {| inline_data := Some (Raw [137; 80; 78; 71]) |} ]
  end.

(** every call is rejected for quota *)
Definition throttled_model : nat -> model_call := fun _ =>
  Throws (lit "429 Quota exceeded").

End Scenarios.

(** ** OCR results ([backend/services/ocr_service.py]) *)

Module Ocr.
Import PyStr Exn Model Detection.

(** [min(xs)]; an empty sequence raises [ValueError] *)
Definition py_min_of (xs : list Z) : result Z :=
  match xs with
  | [] => Raise (lit "min() arg is an empty sequence")
  | x :: xs' => Ok (foldl Z.min x xs')
  end.

(** [max(xs)] *)
Definition py_max_of (xs : list Z) : result Z :=
  match xs with
  | [] => Raise (lit "max() arg is an empty sequence")
  | x :: xs' => Ok (foldl Z.max x xs')
  end.

(** the vertices are the [(v.x, v.y)] of a Vision API polygon; the four
    entries of the dict are evaluated in the order they are written *)
Definition _vertices_to_bbox (vertices : list (Z * Z)) : result BBox :=
  let xs := fst <$> vertices in
  let ys := snd <$> vertices in
  x ← py_min_of xs;
  y ← py_min_of ys;
  x_max ← py_max_of xs;
  x_min ← py_min_of xs;
  y_max ← py_max_of ys;
  y_min ← py_min_of ys;
  mret {| box_x := x; box_y := y;
          box_width := x_max - x_min; box_height := y_max - y_min |}.

(** [sorted(l, key=key)] is stable: an element goes in front of the first
    one whose key is not smaller *)
Fixpoint insert_by {A} (key : A -> Z) (a : A) (l : list A) : list A :=
  match l with
  | [] => [a]
  | b :: l' => if key a <=? key b then a :: l else b :: insert_by key a l'
  end.

Definition sorted_by {A} (key : A -> Z) (l : list A) : list A :=
  foldr (insert_by key) [] l.

(** [l[n:]] *)
Definition slice_from {A} (n : Z) (l : list A) : list A :=
  if n <? 0 then drop (Z.to_nat (Z.of_nat (length l) + n)) l
  else drop (Z.to_nat n) l.

Definition block_y (b : OCRBlock) : Z := box_y (block_bbox b).
Definition block_y_end (b : OCRBlock) : Z :=
  box_y (block_bbox b) + box_height (block_bbox b).

(** [block_y_end < target_y]: the block ends above the target *)
Definition above (target_bbox : BBox) (b : OCRBlock) : Prop :=
  block_y_end b < box_y target_bbox.

(** the [elif]: the block does not end above the target and starts below
    the end of the target *)
Definition below (target_bbox : BBox) (b : OCRBlock) : Prop :=
  ~ above target_bbox b
  /\ box_y target_bbox + box_height target_bbox < block_y b.

#[global] Instance above_dec t b : Decision (above t b) :=
  decide (block_y_end b < box_y t).
#[global] Instance below_dec t b : Decision (below t b) :=
  decide (~ above t b /\ box_y t + box_height t < block_y b).

(** the blocks whose texts make up [before_texts[-max_lines:]] and
    [after_texts[:max_lines]] *)
Definition context_blocks (blocks : list OCRBlock) (target_bbox : BBox)
    (max_lines : Z) : list OCRBlock * list OCRBlock :=
  let sorted_blocks := sorted_by block_y blocks in
  (slice_from (- max_lines) (filter (above target_bbox) sorted_blocks),
   slice_to max_lines (filter (below target_bbox) sorted_blocks)).

(** [blocks] is the block list of the OCR result *)
Definition get_context_around_bbox (blocks : list OCRBlock)
    (target_bbox : BBox) (max_lines : Z) : str * str :=
  let '(before, after) := context_blocks blocks target_bbox max_lines in
  (join [10] (block_text <$> before), join [10] (block_text <$> after)).

End Ocr.

(** ** Colour sampling of the text overlay
       ([backend/services/correction_service.py]) *)

Module Sampling.
Import PyStr Exn Raster.

(** [range(0, stop, step)] for a step of at least one *)
Definition py_range (stop step : Z) : list Z :=
  (fun k => k * step) <$> seqZ 0 ((stop + step - 1) / step).

(** [img.getpixel((x, y))]: a negative coordinate counts from the far
    edge, a position outside the image raises [IndexError] *)
Definition getpixel_at (img : image) (x y : Z) : result pixel :=
  let x := if x <? 0 then img_width img + x else x in
  let y := if y <? 0 then img_height img + y else y in
  if inside img x y then Ok (getpixel img x y)
  else Raise (lit "image index out of range").

(** the positions read by the two loops, in the order they are read *)
Definition sample_points (img : image) (x y width height sample_margin : Z)
    : list (Z * Z) :=
  (dx ← py_range width (Z.max 1 (width / 10));
   (if 0 <=? y - sample_margin
    then [(Z.min (x + dx) (img_width img - 1), y - sample_margin)]
    else [])
   ++
   (if y + height + sample_margin <? img_height img
    then [(Z.min (x + dx) (img_width img - 1), y + height + sample_margin)]
    else []))
  ++
  (dy ← py_range height (Z.max 1 (height / 10));
   (if 0 <=? x - sample_margin
    then [(x - sample_margin, Z.min (y + dy) (img_height img - 1))]
    else [])
   ++
   (if x + width + sample_margin <? img_width img
    then [(x + width + sample_margin, Z.min (y + dy) (img_height img - 1))]
    else [])).

(** the reads one after the other; the first that raises ends them *)
Fixpoint read_all (img : image) (points : list (Z * Z))
    : result (list pixel) :=
  match points with
  | [] => Ok []
  | (px, py) :: points' =>
      p ← getpixel_at img px py;
      pixels ← read_all img points';
      mret (p :: pixels)
  end.

(** [sum(p[k] for p in pixels) // len(pixels)] *)
Definition channel_mean (channel : pixel -> Z) (pixels : list pixel) : Z :=
  foldr Z.add 0 (channel <$> pixels) / Z.of_nat (length pixels).

Definition red (p : pixel) : Z := p.1.1.
Definition green (p : pixel) : Z := p.1.2.
Definition blue (p : pixel) : Z := p.2.

Definition estimate_background_color
    (img : image) (x y width height sample_margin : Z) : result pixel :=
  pixels ← read_all img (sample_points img x y width height sample_margin);
  match pixels with
  | [] => Ok (255, 255, 255)
  | _ => Ok (channel_mean red pixels, channel_mean green pixels,
             channel_mean blue pixels)
  end.

End Sampling.

(** ** Notions used by the further properties *)

Module Notions.
Import PyStr PyFloat Re Config Model Detection.
Import Exn Raster Storage Pdf Gemini Correction Api Scenarios Ocr Sampling.

(** one of the five checks of [detect_issues] fires on block [b] *)
Definition suspect `{PyRuntime} (b : OCRBlock) : bool :=
  lt (block_confidence b) 0.8%float
  || match garbled_found (block_text b) with [] => false | _ => true end
  || looks_suspicious b || large_and_empty b || sparse b.

(** the loop variables after a check fired: a type is set and a problem
    is recorded *)
Definition raised (s : scan) : Prop :=
  is_Some (scan_type s) /\ scan_problems s <> [].

(** the type an issue for block [b] receives: the large-area check wins,
    then the garbled-character check, then low confidence, then the
    suspicious-pattern check, then the density check *)
Definition type_by_priority `{PyRuntime} (b : OCRBlock) : IssueType :=
  if large_and_empty b then missing
  else match garbled_found (block_text b) with
       | _ :: _ => garbled
       | [] =>
           if lt (block_confidence b) 0.8%float then low_confidence
           else if looks_suspicious b then garbled
           else missing
       end.

(** Rule 3 of [evaluate_auto_adopt] fires: the first two candidates are
    less than 0.15 apart *)
Definition close_call (candidates : list Candidate) : bool :=
  match candidates with
  | top_candidate :: second :: _ =>
      lt (cand_confidence top_candidate - cand_confidence second)%float
         0.15%float
  | _ => false
  end.

(** the bbox of [a] contains the bbox of [b] *)
Definition covers (a b : Issue) : Prop :=
  bbox_x a <= bbox_x b /\ bbox_y a <= bbox_y b
  /\ bbox_x b + bbox_width b <= bbox_x a + bbox_width a
  /\ bbox_y b + bbox_height b <= bbox_y a + bbox_height a.

(** [m] carries the page, type, status and auto-correctable flag of [i] *)
Definition led_by (m i : Issue) : Prop :=
  page_id m = page_id i /\ issue_type m = issue_type i
  /\ status m = status i /\ auto_correctable m = auto_correctable i.

(** the body of the outer loop of [merge_nearby_issues] *)
Definition merge_step `{PyRuntime} (threshold : Z) (issues : list Issue)
    (acc : list Issue * gset nat) (entry : nat * Issue)
    : list Issue * gset nat :=
  let '(merged, used) := acc in
  let '(i, issue1) := entry in
  if bool_decide (i ∈ used) then (merged, used)
  else
    let '(current, used') :=
      merge_scan threshold (drop (S i) (imap pair issues)) (issue1, used) in
    (merged ++ [current], {[ i ]} ∪ used').

(** the [bbox_in_roi] that [apply_correction] hands to the renderer *)
Definition bbox_in_roi (adjusted_bbox : AdjustedBBox) (issue_bbox : BBox)
    : BBox :=
  {| box_x := offset_x adjusted_bbox;
     box_y := offset_y adjusted_bbox;
     box_width := box_width issue_bbox;
     box_height := box_height issue_bbox |}.

(** the position of the ROI on the page, as a patch bbox *)
Definition roi_position (adjusted_bbox : AdjustedBBox) : BBox :=
  {| box_x := adj_x adjusted_bbox;
     box_y := adj_y adjusted_bbox;
     box_width := adj_width adjusted_bbox;
     box_height := adj_height adjusted_bbox |}.

(** a renderer whose output is a PNG no larger than the ROI it was given *)
Definition fits_roi
    (overlay : blob -> BBox -> list Z -> list Z -> result blob) : Prop :=
  forall roi bbox text orig b,
    overlay (Png roi) bbox text orig = Ok b ->
    exists patch, b = Png patch
                  /\ img_width patch <= img_width roi
                  /\ img_height patch <= img_height roi.

(** the editor after [n] signature-type errors in a row *)
Definition after_signature_errors (ed : GeminiImageEditor) (n : nat)
    : GeminiImageEditor :=
  match n with
  | O => ed
  | _ => {| thought_signature := None;
            retry_count := retry_count ed + Z.of_nat n;
            max_retries := max_retries ed |}
  end.

(** the keys of [l] never decrease *)
Fixpoint ascending {A} (key : A -> Z) (l : list A) : Prop :=
  match l with
  | [] => True
  | a :: l' => Forall (fun b => key a <= key b) l' /\ ascending key l'
  end.

(** every channel of [p] lies between [lo] and [hi] *)
Definition channels_within (lo hi : Z) (p : pixel) : Prop :=
  lo <= red p <= hi /\ lo <= green p <= hi /\ lo <= blue p <= hi.

(** *** Further concrete inputs *)

(** a garbled block that also holds a long number *)
Definition phone_block : OCRBlock :=
  {| block_text := lit "?12345";
     block_bbox := {| box_x := 0; box_y := 0;
                      box_width := 40; box_height := 20 |};
     block_confidence := 0.9%float |}.

(** the issue [detect_issues] builds for [phone_block] *)
Definition phone_issue : Issue :=
  {| page_id := "page-1"; bbox_x := 0; bbox_y := 0;
     bbox_width := 40; bbox_height := 20;
     issue_type := garbled; confidence := 0.9%float;
     ocr_text := lit "?12345";
     detected_problems := [lit "Garbled characters: ?"];
     status := detected; auto_correctable := false |}.

(** two issues whose bboxes overlap, and two that are far apart *)
Definition near_pair : list Issue :=
  [draft 0 0 50 20 0.9%float (lit "A");
   draft 45 5 50 20 0.4%float (lit "B")].
Definition far_pair : list Issue :=
  [draft 0 0 50 20 0.9%float (lit "A");
   draft 500 500 50 20 0.4%float (lit "B")].

(** the bbox of [small_issue], its ROI on the gradient page with the
    default margin, and the adjusted bbox of that ROI *)
Definition small_bbox : BBox :=
  {| box_x := 50; box_y := 50; box_width := 10; box_height := 10 |}.

Definition small_roi : image :=
  {| img_width := 90; img_height := 90;
     getpixel := fun i j =>
       if inside gradient (10 + i) (10 + j)
       then getpixel gradient (10 + i) (10 + j)
       else black |}.

Definition small_adj : AdjustedBBox :=
  {| adj_x := 10; adj_y := 10; adj_width := 90; adj_height := 90;
     offset_x := 40; offset_y := 40 |}.

(** the text-overlay correction of [small_bbox] on the gradient page, with
    the renderer that hands the ROI back *)
Definition overlay_applied `{PyRuntime}
    : result (string * string * list Z) * world (gmap string blob) :=
  apply_correction (H0 := mem_store) default_settings keep_roi silent_model
    page_path small_bbox (lit "A") (lit "?") "text_overlay" "p1" "i1"
    fresh_world.

(** the undo of the correction made by [first_apply] *)
Definition first_undo `{PyRuntime}
    : http UndoBody * Db * world (gmap string blob) :=
  undo_correction_endpoint (H0 := mem_store) "c1"
    (first_apply keep_roi silent_model 0).1.2
    (first_apply keep_roi silent_model 0).2.

(** a renderer that finds no font *)
Definition failing_renderer
    : blob -> BBox -> list Z -> list Z -> result blob :=
  fun _ _ _ _ => Raise (lit "cannot open resource").

(** the same correction with the renderer that raises *)
Definition overlay_failed `{PyRuntime}
    : result (string * string * list Z) * world (gmap string blob) :=
  apply_correction (H0 := mem_store) default_settings failing_renderer
    silent_model page_path small_bbox (lit "A") (lit "?") "text_overlay"
    "p1" "i1" fresh_world.

(** a request for an issue that does not exist *)
Definition unknown_request : ApplyCorrectionRequest :=
  {| req_issue_id := "i9"; req_method := "text_overlay";
     selected_text := Some (lit "A"); selected_index := None |}.

(** every call fails on the thought signature *)
Definition stale_session_model : nat -> model_call := fun _ =>
  Throws (lit "Invalid thought signature").

(** every call fails with a network error *)
Definition offline_model : nat -> model_call := fun _ =>
  Throws (lit "connection reset").

(** the four corners of a slightly skewed word box *)
Definition quad : list (Z * Z) := [(10, 20); (110, 22); (112, 60); (9, 58)].

(** five lines of text, 30 pixels apart, not in reading order *)
Definition line (y : Z) (t : string) : OCRBlock :=
  {| block_text := lit t;
     block_bbox := {| box_x := 0; box_y := y;
                      box_width := 300; box_height := 20 |};
     block_confidence := 0.95%float |}.

Definition five_lines : list OCRBlock :=
  [line 90 "four"; line 0 "one"; line 60 "three"; line 30 "two";
   line 120 "five"].

End Notions.

(** * Properties of the detection service *)

Module DetectionProps.
Import PyStr PyFloat Re Config Model Detection Scenarios.

Section AnyRuntime.
Context `{PyRuntime}.

(** ** Auto-adoption *)

(** C10: whatever the text, the candidate list and the confidence,
    [evaluate_auto_adopt] returns [(True, 0)] or [(False, None)]: an
    adoption always selects the top-ranked candidate. *)
Theorem evaluate_auto_adopt_outcomes
    (text : list Z) (cands : list Candidate) (conf : float) :
  evaluate_auto_adopt text cands conf = (true, Some 0)
  \/ evaluate_auto_adopt text cands conf = (false, None).
Proof.
  unfold evaluate_auto_adopt.
  destruct cands as [|top rest]; [by right|].
  repeat match goal with
         | |- context [if ?b then _ else _] => destruct b
         end; auto.
Qed.

(** C3: if the original text or the text of the top candidate matches a
    sensitive pattern, [evaluate_auto_adopt] returns [(False, None)], for
    every candidate list and every OCR confidence. *)
Theorem sensitive_text_never_adopted
    (text : list Z) (cands : list Candidate) (conf : float) :
  contains_sensitive_pattern text = true
  \/ (exists top rest, cands = top :: rest
       /\ contains_sensitive_pattern (cand_text top) = true) ->
  evaluate_auto_adopt text cands conf = (false, None).
Proof.
  intros Hs. unfold evaluate_auto_adopt.
  destruct cands as [|top rest]; [done|].
  destruct Hs as [Ht | (top' & rest' & Heq & Hc)].
  - by rewrite Ht.
  - injection Heq as -> ->. rewrite Hc, orb_true_r. done.
Qed.

(** Rule 3 decides whenever it is reached, and the two rules before it
    return the same pair. *)
Lemma close_gap_rejected text top second rest conf :
  lt (cand_confidence top - cand_confidence second)%float 0.15%float
    = true ->
  evaluate_auto_adopt text (top :: second :: rest) conf = (false, None).
Proof.
  intros Hgap. unfold evaluate_auto_adopt. rewrite Hgap.
  destruct (_ || _); [done|]. destruct (looks_like_proper_noun _); done.
Qed.

(** C7: with at least two candidates, a text and top candidate that are
    neither sensitive nor a proper noun, and a gap between the first two
    confidences below 0.15 (the float difference compared with the float
    0.15, as the source computes it), the answer is [(False, None)]; so
    it is for ["X"] with candidates ["Y"] at 0.7 and ["Z"] at 0.6. *)
Theorem close_candidates_need_review :
  (forall text top second rest conf,
     contains_sensitive_pattern text = false ->
     contains_sensitive_pattern (cand_text top) = false ->
     looks_like_proper_noun (cand_text top) = false ->
     lt (cand_confidence top - cand_confidence second)%float 0.15%float
       = true ->
     evaluate_auto_adopt text (top :: second :: rest) conf
       = (false, None))
  /\ (forall reason1 reason2,
        evaluate_auto_adopt (lit "X")
          [cand "Y" 0.7%float reason1; cand "Z" 0.6%float reason2]
          0.5%float = (false, None)).
Proof.
  split.
  - intros text top second rest conf _ _ _ Hgap.
    by apply close_gap_rejected.
  - intros reason1 reason2. apply close_gap_rejected. reflexivity.
Qed.

(** ** The priority of the checks *)

(** C2 (as amended): once [issue_type] is set, the suspicious-pattern
    check and the density check leave it alone, while the
    garbled-character check and the large-area check overwrite it with
    [garbled] and [missing] whenever they fire. *)
Theorem later_checks_on_set_type (b : OCRBlock) (s : scan) (t : IssueType) :
  scan_type s = Some t ->
  scan_type (check_suspicious b s) = Some t
  /\ scan_type (check_density b s) = Some t
  /\ scan_type (check_garbled_chars b s)
     = (if decide (garbled_found (block_text b) = [])
        then Some t else Some garbled)
  /\ scan_type (check_large_empty b s)
     = (if large_and_empty b then Some missing else Some t).
Proof.
  intros Ht. repeat split.
  - unfold check_suspicious. destruct (existsb _ _); [|done].
    cbn. by rewrite Ht.
  - unfold check_density. destruct (_ && _); [|done].
    destruct (_ && _); [|done]. cbn. by rewrite Ht.
  - unfold check_garbled_chars.
    destruct (garbled_found (block_text b)); by case_decide.
  - unfold check_large_empty, large_and_empty.
    destruct (_ && _); [|done]. by destruct (_ <? 3).
Qed.

(** The type that the five checks leave: the large-area check wins, then
    the garbled-character check, then low confidence, then the
    suspicious-pattern check, then the density check. *)
Lemma issue_type_by_priority (b : OCRBlock) :
  scan_type (run_checks b) =
    if large_and_empty b then Some missing
    else if decide (garbled_found (block_text b) = []) then
      if lt (block_confidence b) 0.8%float then Some low_confidence
      else if looks_suspicious b then Some garbled
      else if sparse b then Some missing
      else None
    else Some garbled.
Proof.
  unfold run_checks, check_density, check_large_empty, check_suspicious,
    check_garbled_chars, check_low_confidence, large_and_empty,
    looks_suspicious, sparse.
  set (low := lt (block_confidence b) 0.8%float).
  set (odd := existsb _ SUSPICIOUS_PATTERNS).
  set (large := (100 <? _) && (30 <? _)).
  set (short := _ <? 3).
  set (positive := (0 <? _) && (0 <? _)).
  set (thin := lt (char_density b) 0.1%float).
  set (long := 5 <? _).
  destruct (garbled_found (block_text b)); case_decide; try done;
    destruct low, odd, large, short, positive, thin, long; reflexivity.
Qed.

(** ** Garbled blocks *)

Lemma check_suspicious_flagged b p s :
  flagged p s -> flagged p (check_suspicious b s).
Proof.
  intros [[t Ht] Hp]. unfold check_suspicious.
  destruct (existsb _ _); [|by split; [exists t|]].
  split; cbn [scan_type scan_problems];
    [rewrite Ht; by eexists | apply elem_of_app; by left].
Qed.

Lemma check_large_empty_flagged b p s :
  flagged p s -> flagged p (check_large_empty b s).
Proof.
  intros [Ht Hp]. unfold check_large_empty.
  destruct (_ && _); [|done]. destruct (_ <? _); [|done].
  split; cbn [scan_type scan_problems];
    [by eexists | apply elem_of_app; by left].
Qed.

Lemma check_density_flagged b p s :
  flagged p s -> flagged p (check_density b s).
Proof.
  intros [[t Ht] Hp]. unfold check_density.
  destruct (_ && _); [|by split; [exists t|]].
  destruct (_ && _); [|by split; [exists t|]].
  split; cbn [scan_type scan_problems];
    [rewrite Ht; by eexists | apply elem_of_app; by left].
Qed.

Lemma garbled_found_all (text : list Z) :
  Forall (fun c => c ∈ GARBLED_CHARS) text -> garbled_found text = text.
Proof.
  unfold garbled_found. induction 1 as [|c text Hc _ IH]; [done|].
  rewrite filter_cons_True by done. by rewrite IH.
Qed.

(** Check 2 fires on a garbled-only text and records a problem that
    mentions "Garbled". *)
Lemma check_garbled_chars_flagged b s :
  only_garbled (block_text b) ->
  exists p, contains (lit "Garbled") p = true
            /\ flagged p (check_garbled_chars b s).
Proof.
  intros [Hne Hall]. unfold check_garbled_chars.
  rewrite (garbled_found_all _ Hall).
  destruct (block_text b) as [|c text] eqn:Ht; [done|].
  eexists. split; [|split; cbn [scan_type scan_problems];
    [by eexists
    | apply elem_of_app; right; apply list_elem_of_singleton;
      reflexivity]].
  reflexivity.
Qed.

Lemma garbled_block_issue pid b :
  only_garbled (block_text b) ->
  gt (block_confidence b) 0.5%float = true ->
  contains_sensitive_pattern (block_text b) = false ->
  exists i, detect_block pid b = Some i /\ issue_for b i
            /\ auto_correctable i = true.
Proof.
  intros Hg Hconf Hsens.
  destruct (check_garbled_chars_flagged b
              (check_low_confidence b scan_start) Hg) as (p & Hp & Hfl).
  apply (check_suspicious_flagged b), (check_large_empty_flagged b),
    (check_density_flagged b) in Hfl.
  fold (run_checks b) in Hfl. destruct Hfl as [[t Ht] Hin].
  unfold detect_block. rewrite Ht.
  destruct (scan_problems (run_checks b)) as [|q qs] eqn:Hq.
  { by apply elem_of_nil in Hin. }
  eexists. split; [reflexivity|]. split.
  { split; [by destruct b as [? []]|done]. }
  cbn [auto_correctable].
  unfold evaluate_auto_correctability. rewrite Hsens, Hconf.
  assert (existsb (contains (lit "Garbled")) (q :: qs) = true) as ->;
    [|done].
  apply existsb_exists. exists p. split; [|done].
  by apply list_elem_of_In.
Qed.

Lemma slice_to_lookup {A} (l : list A) (n : Z) (k : nat) :
  Z.of_nat k < n -> slice_to n l !! k = l !! k.
Proof.
  intros Hk. unfold slice_to.
  destruct (n <? 0) eqn:Hn; [lia|].
  apply lookup_take_lt. lia.
Qed.

(** C9 (as amended): a block made only of garbled glyphs, with
    confidence above 0.5 and no sensitive pattern, yields an issue with
    [auto_correctable = True]; [detect_issues] returns that issue
    provided fewer than [max_issues_per_page] issues were created for
    the blocks before it. *)
Theorem garbled_block_auto_correctable
    (settings : Settings) (blocks : list OCRBlock) (pid : string)
    (n : nat) (b : OCRBlock) :
  blocks !! n = Some b ->
  only_garbled (block_text b) ->
  gt (block_confidence b) 0.5%float = true ->
  contains_sensitive_pattern (block_text b) = false ->
  exists i,
    detect_block pid b = Some i /\ issue_for b i
    /\ auto_correctable i = true
    /\ (Z.of_nat (length (omap (detect_block pid) (take n blocks)))
          < max_issues_per_page settings ->
        i ∈ detect_issues settings blocks pid).
Proof.
  intros Hn Hg Hconf Hsens.
  destruct (garbled_block_issue pid b Hg Hconf Hsens)
    as (i & Hi & Hfor & Hauto).
  exists i. repeat split; try done; try apply Hfor.
  intros Hcap. unfold detect_issues.
  apply list_elem_of_lookup.
  exists (length (omap (detect_block pid) (take n blocks))).
  rewrite slice_to_lookup by done.
  rewrite <- (take_drop_middle blocks n b Hn) at 2.
  rewrite omap_app. cbn [omap list_omap]. rewrite Hi.
  by rewrite list_lookup_middle.
Qed.

(** ** Merging *)

Lemma merge_pair i1 i2 threshold :
  _bboxes_nearby i1 i2 threshold = true ->
  merge_nearby_issues [i1; i2] threshold = [_merge_two_issues i1 i2].
Proof.
  intros Hnear. unfold merge_nearby_issues, merge_loop.
  cbn [length Nat.leb imap foldl].
  rewrite (bool_decide_eq_false_2 (0%nat ∈ (∅ : gset nat)))
    by set_solver.
  cbn [drop compose]. unfold merge_scan at 1. cbn [foldl].
  rewrite (bool_decide_eq_false_2 (1%nat ∈ (∅ : gset nat)))
    by set_solver.
  rewrite Hnear. cbn [app].
  rewrite bool_decide_eq_true_2 by set_solver. done.
Qed.

(** C6 (as amended): two issues with bboxes [{0,0,50,20}] and
    [{45,5,50,20}] merge at threshold 20 into one issue with bbox
    [{0,0,95,25}], the smaller of the two confidences, and the two texts
    joined with one space and then stripped of leading and trailing
    whitespace. *)
Theorem merge_two_overlapping_issues (i1 i2 : Issue) :
  issue_bbox i1 = {| box_x := 0; box_y := 0;
                     box_width := 50; box_height := 20 |} ->
  issue_bbox i2 = {| box_x := 45; box_y := 5;
                     box_width := 50; box_height := 20 |} ->
  exists m,
    merge_nearby_issues [i1; i2] 20 = [m]
    /\ issue_bbox m = {| box_x := 0; box_y := 0;
                         box_width := 95; box_height := 25 |}
    /\ confidence m = py_min (confidence i1) (confidence i2)
    /\ ocr_text m = strip (ocr_text i1 ++ lit " " ++ ocr_text i2).
Proof.
  intros H1 H2. exists (_merge_two_issues i1 i2).
  unfold issue_bbox in *.
  injection H1 as Hx1 Hy1 Hw1 Hh1. injection H2 as Hx2 Hy2 Hw2 Hh2.
  split; [|split; [|split]].
  - apply merge_pair. unfold _bboxes_nearby.
    rewrite Hx1, Hy1, Hw1, Hh1, Hx2, Hy2, Hw2, Hh2. reflexivity.
  - unfold _merge_two_issues; cbn.
    rewrite Hx1, Hy1, Hw1, Hh1, Hx2, Hy2, Hw2, Hh2. reflexivity.
  - reflexivity.
  - reflexivity.
Qed.

End AnyRuntime.
End DetectionProps.

(** * The detection service on concrete inputs *)

Module DetectionCases.
Import PyStr PyFloat Re Config Model Detection Scenarios DetectionProps.

#[local] Existing Instance ascii_runtime.

Lemma question_mark_garbled : only_garbled (lit "?").
Proof.
  split; [discriminate|]. apply Forall_singleton.
  apply (bool_decide_unpack _). vm_compute. exact I.
Defined.

(** one text of each sensitive kind, then four texts that match none *)
Lemma sensitive_pattern_examples :
  map contains_sensitive_pattern
    [lit "tel 12345"; lit "see http://a.example"; lit "www.example.org";
     lit "mail bob@example.org"; lit "2024/1/15"; lit "1,200" ++ [20870];
     lit "$1,200"; lit "AB12"; lit "03-12-34";
     lit "X"; lit "123"; lit "A1"; lit "?"]
  = [true; true; true; true; true; true; true; true; true;
     false; false; false; false].
Proof. reflexivity. Qed.

(** a date: the text is sensitive, whatever the candidate says *)
Lemma sensitive_text_never_adopted_witness :
  (contains_sensitive_pattern (lit "2024-01-15") = true
   \/ (exists top rest,
         [cand "2024-01-16" 0.99%float []] = top :: rest
         /\ contains_sensitive_pattern (cand_text top) = true))
  /\ evaluate_auto_adopt (lit "2024-01-15")
       [cand "2024-01-16" 0.99%float []] 0.95%float = (false, None).
Proof.
  split; [left; reflexivity|].
  apply sensitive_text_never_adopted. left. reflexivity.
Defined.

Lemma close_candidates_need_review_witness :
  contains_sensitive_pattern (lit "X") = false
  /\ contains_sensitive_pattern (cand_text (cand "Y" 0.7%float [])) = false
  /\ looks_like_proper_noun (cand_text (cand "Y" 0.7%float [])) = false
  /\ lt (cand_confidence (cand "Y" 0.7%float [])
         - cand_confidence (cand "Z" 0.6%float []))%float 0.15%float = true
  /\ evaluate_auto_adopt (lit "X")
       [cand "Y" 0.7%float []; cand "Z" 0.6%float []] 0.5%float
     = (false, None).
Proof.
  repeat (split; [reflexivity|]).
  apply (proj1 close_candidates_need_review); reflexivity.
Defined.

(** C2: a block reading ["?"] with confidence 0.5 is tagged
    [low_confidence] by Check 1 and then retagged [garbled] by Check 2, and
    that is the type of the issue created: a later check did change a type
    that was already set. *)
Lemma garbled_check_overrides_low_confidence :
  scan_type (check_low_confidence (question_block 0 0.5%float) scan_start)
    = Some low_confidence
  /\ scan_type
       (check_garbled_chars (question_block 0 0.5%float)
          (check_low_confidence (question_block 0 0.5%float) scan_start))
     = Some garbled
  /\ issue_type <$> detect_block "page-1" (question_block 0 0.5%float)
     = Some garbled.
Proof. repeat split; vm_compute; reflexivity. Qed.

Lemma later_checks_on_set_type_witness :
  scan_type (check_low_confidence (question_block 0 0.5%float) scan_start)
    = Some low_confidence
  /\ scan_type
       (check_suspicious (question_block 0 0.5%float)
          (check_low_confidence (question_block 0 0.5%float) scan_start))
     = Some low_confidence
  /\ scan_type
       (check_garbled_chars (question_block 0 0.5%float)
          (check_low_confidence (question_block 0 0.5%float) scan_start))
     = Some garbled.
Proof.
  split; [reflexivity|].
  destruct (later_checks_on_set_type (question_block 0 0.5%float)
              (check_low_confidence (question_block 0 0.5%float) scan_start)
              low_confidence eq_refl) as (Hs & _ & Hg & _).
  split; [exact Hs | exact Hg].
Defined.

(** C9: on a page of twenty-one blocks reading ["?"] with confidence 0.9,
    the last block meets every condition of the claim, yet
    [detect_issues], which keeps the first [max_issues_per_page = 20]
    issues, returns no issue for it. *)
Lemma crowded_page_drops_garbled_block :
  question_block 20 0.9%float ∈ crowded_page
  /\ only_garbled (block_text (question_block 20 0.9%float))
  /\ gt (block_confidence (question_block 20 0.9%float)) 0.5%float = true
  /\ contains_sensitive_pattern (block_text (question_block 20 0.9%float))
     = false
  /\ ~ surfaced default_settings crowded_page "page-1"
         (question_block 20 0.9%float).
Proof.
  split.
  { apply list_elem_of_lookup. exists 20%nat. reflexivity. }
  split; [exact question_mark_garbled|].
  split; [reflexivity|]. split; [reflexivity|].
  intros (i & Hin & [Hbox _] & _).
  assert (forallb (fun i => negb (bbox_x i =? 20))
            (detect_issues default_settings crowded_page "page-1") = true)
    as Hall by (vm_compute; reflexivity).
  rewrite forallb_forall in Hall.
  apply list_elem_of_In, Hall in Hin.
  injection Hbox as Hx _ _ _. rewrite Hx in Hin. discriminate.
Qed.

Lemma garbled_block_auto_correctable_witness :
  crowded_page !! 3%nat = Some (question_block 3 0.9%float)
  /\ only_garbled (block_text (question_block 3 0.9%float))
  /\ gt (block_confidence (question_block 3 0.9%float)) 0.5%float = true
  /\ contains_sensitive_pattern (block_text (question_block 3 0.9%float))
     = false
  /\ exists i,
       detect_block "page-1" (question_block 3 0.9%float) = Some i
       /\ issue_for (question_block 3 0.9%float) i
       /\ auto_correctable i = true
       /\ (Z.of_nat (length (omap (detect_block "page-1")
                               (take 3 crowded_page)))
             < max_issues_per_page default_settings ->
           i ∈ detect_issues default_settings crowded_page "page-1").
Proof.
  split; [reflexivity|]. split; [exact question_mark_garbled|].
  split; [reflexivity|]. split; [reflexivity|].
  apply (garbled_block_auto_correctable default_settings crowded_page
           "page-1" 3 (question_block 3 0.9%float));
    [reflexivity | exact question_mark_garbled | reflexivity | reflexivity].
Defined.

(** C6: when the first issue has an empty text (a block without words) and
    the second reads ["B"], the merged text is ["B"], which is not the two
    texts joined with a space: the join is stripped. *)
Lemma merged_text_is_stripped :
  exists m,
    merge_nearby_issues
      [draft 0 0 50 20 0.0%float [];
       draft 45 5 50 20 0.4%float (lit "B")] 20 = [m]
    /\ issue_bbox m = {| box_x := 0; box_y := 0;
                         box_width := 95; box_height := 25 |}
    /\ ocr_text m = lit "B"
    /\ ocr_text m <> [] ++ lit " " ++ lit "B".
Proof.
  eexists. split; [vm_compute; reflexivity|].
  split; [reflexivity|]. split; [reflexivity|]. discriminate.
Qed.

Lemma merge_two_overlapping_issues_witness :
  issue_bbox (draft 0 0 50 20 0.9%float (lit "A"))
    = {| box_x := 0; box_y := 0; box_width := 50; box_height := 20 |}
  /\ issue_bbox (draft 45 5 50 20 0.4%float (lit "B"))
     = {| box_x := 45; box_y := 5; box_width := 50; box_height := 20 |}
  /\ exists m,
       merge_nearby_issues
         [draft 0 0 50 20 0.9%float (lit "A");
          draft 45 5 50 20 0.4%float (lit "B")] 20 = [m]
       /\ issue_bbox m = {| box_x := 0; box_y := 0;
                            box_width := 95; box_height := 25 |}
       /\ confidence m
          = py_min (confidence (draft 0 0 50 20 0.9%float (lit "A")))
              (confidence (draft 45 5 50 20 0.4%float (lit "B")))
       /\ ocr_text m
          = strip (ocr_text (draft 0 0 50 20 0.9%float (lit "A"))
                   ++ lit " "
                   ++ ocr_text (draft 45 5 50 20 0.4%float (lit "B"))).
Proof.
  split; [reflexivity|]. split; [reflexivity|].
  apply merge_two_overlapping_issues; reflexivity.
Defined.

End DetectionCases.

(** * Properties of ROI extraction, apply and undo *)

Module CorrectionProps.
Import PyStr Exn Raster Storage Config Model Pdf Gemini Correction Api.
Import Scenarios.

Lemma bind_Ok_inv {A B} (r : result A) (k : A -> result B) b :
  r ≫= k = Ok b -> exists a, r = Ok a /\ k a = Ok b.
Proof. destruct r as [a|e]; [by exists a | done]. Qed.

Lemma Image_open_inv b img : Image_open b = Ok img -> b = Png img.
Proof. destruct b; [by intros [= ->] | done]. Qed.

Lemma save_png_inv img b :
  save_png img = Ok b ->
  b = Png img /\ 0 < img_width img /\ 0 < img_height img.
Proof.
  unfold save_png. destruct (_ || _) eqn:Hsz; [done|].
  apply orb_false_iff in Hsz as [Hw Hh]. intros [= <-]. repeat split; lia.
Qed.

Lemma paste_origin page patch x y :
  0 < img_width patch -> 0 < img_height patch ->
  getpixel (paste page patch x y) x y = getpixel patch 0 0.
Proof.
  intros Hw Hh. cbn. rewrite !Z.sub_diag. unfold inside.
  destruct (_ && _) eqn:Hin; [done|].
  repeat (apply andb_false_iff in Hin as [Hin|Hin]); lia.
Qed.

Lemma crop_origin page x1 y1 x2 y2 roi :
  crop page x1 y1 x2 y2 = Ok roi ->
  inside page x1 y1 = true ->
  getpixel roi 0 0 = getpixel page x1 y1.
Proof.
  unfold crop. destruct (x2 <? x1); [done|]. destruct (y2 <? y1); [done|].
  intros [= <-] Hin. cbn. rewrite !Z.add_0_r. by rewrite Hin.
Qed.

(** ** The size cap *)

(** After the shrink the ROI is as wide as the cap when the excess is
    even, and one pixel wider when it is odd. *)
Lemma roi_bounds_width settings img bbox margin x1 y1 x2 y2 :
  roi_bounds settings img bbox margin = (x1, y1, x2, y2) ->
  x2 - x1 =
    let clamped :=
      Z.min (img_width img) (box_x bbox + box_width bbox + margin)
      - Z.max 0 (box_x bbox - margin) in
    if max_roi_width settings <? clamped
    then max_roi_width settings + (clamped - max_roi_width settings) mod 2
    else clamped.
Proof.
  unfold roi_bounds. cbn zeta.
  destruct (max_roi_width settings <? _) eqn:Hw;
    destruct (max_roi_height settings <? _);
    intros [= <- <- <- <-]; try lia.
  all: match goal with
       | |- context [?e mod 2] =>
           pose proof (Z.div_mod e 2 ltac:(lia))
       end; lia.
Qed.

Lemma roi_bounds_height settings img bbox margin x1 y1 x2 y2 :
  roi_bounds settings img bbox margin = (x1, y1, x2, y2) ->
  y2 - y1 =
    let clamped :=
      Z.min (img_height img) (box_y bbox + box_height bbox + margin)
      - Z.max 0 (box_y bbox - margin) in
    if max_roi_height settings <? clamped
    then max_roi_height settings + (clamped - max_roi_height settings) mod 2
    else clamped.
Proof.
  unfold roi_bounds. cbn zeta.
  destruct (max_roi_width settings <? _);
    destruct (max_roi_height settings <? _) eqn:Hh;
    intros [= <- <- <- <-]; try lia.
  all: match goal with
       | |- context [?e mod 2] =>
           pose proof (Z.div_mod e 2 ltac:(lia))
       end; lia.
Qed.

Section OnMemoryStore.
Context `{PyRuntime} (settings : Settings).
Variable overlay : blob -> BBox -> list Z -> list Z -> result blob.
Variable oracle : nat -> model_call.
#[local] Existing Instance mem_store.

Lemma mem_get_inv (m : gmap string blob) path b :
  mem_get m path = Ok b -> m !! path = Some b.
Proof. unfold mem_get. destruct (m !! path); [by intros [= ->] | done]. Qed.

Lemma extract_roi_inv (m : gmap string blob) path bbox margin rb adj :
  extract_roi_with_margin settings m path bbox margin = Ok (rb, adj) ->
  exists page roi,
    m !! path = Some (Png page) /\ rb = Png roi
    /\ roi_bounds settings page bbox (default (roi_margin settings) margin)
       = (adj_x adj, adj_y adj,
          adj_x adj + adj_width adj, adj_y adj + adj_height adj)
    /\ crop page (adj_x adj) (adj_y adj)
         (adj_x adj + adj_width adj) (adj_y adj + adj_height adj) = Ok roi
    /\ 0 < img_width roi /\ 0 < img_height roi.
Proof.
  unfold extract_roi_with_margin. intros Hx.
  apply bind_Ok_inv in Hx as (img_bytes & Hget & Hx).
  apply bind_Ok_inv in Hx as (page & Hopen & Hx).
  destruct (roi_bounds _ _ _ _) as [[[x1 y1] x2] y2] eqn:Hb.
  apply bind_Ok_inv in Hx as (roi & Hcrop & Hx).
  apply bind_Ok_inv in Hx as (roi_bytes & Hsave & Hx).
  injection Hx as <- <-.
  apply mem_get_inv in Hget. apply Image_open_inv in Hopen as ->.
  apply save_png_inv in Hsave as (-> & Hw & Hh).
  exists page, roi. cbn. repeat split; try done.
  - rewrite Hb. repeat f_equal; lia.
  - rewrite <- Hcrop. f_equal; lia.
Qed.

Lemma M_bind_inv {A B} (m : M A) (k : A -> M B)
    (w : world (gmap string blob)) b w' :
  bind m k w = (Ok b, w') ->
  exists a w1, m w = (Ok a, w1) /\ k a w1 = (Ok b, w').
Proof.
  unfold bind. destruct (m w) as [[a|e] w1]; [|done].
  intros Hk. by exists a, w1.
Qed.

Lemma append_cancel (s t u : string) :
  (s ++ t = s ++ u)%string -> t = u.
Proof. induction s as [|a s IH]; cbn; [done|]. intros [= Hs]. auto. Qed.

Lemma before_after_distinct pid iid :
  before_path_of pid iid <> after_path_of pid iid.
Proof.
  unfold before_path_of, after_path_of. intros Heq.
  repeat apply append_cancel in Heq. discriminate.
Qed.

(** what a successful [apply_correction] leaves in the store *)
Lemma apply_correction_inv path bbox text orig method pid iid
    (w : world (gmap string blob)) bp ap st w1 :
  apply_correction settings overlay oracle path bbox text orig method
    pid iid w = (Ok (bp, ap, st), w1) ->
  path <> before_path_of pid iid ->
  path <> after_path_of pid iid ->
  exists page roi adj patch,
    w_store w !! path = Some (Png page)
    /\ extract_roi_with_margin settings (w_store w) path bbox
         (Some (roi_margin settings)) = Ok (Png roi, adj)
    /\ bp = before_path_of pid iid /\ ap = after_path_of pid iid
    /\ 0 < img_width page /\ 0 < img_height page
    /\ w_store w1 =
         <[path := Png (paste page patch (adj_x adj) (adj_y adj))]>
           (<[ap := Png patch]> (<[bp := Png roi]> (w_store w))).
Proof.
  intros Ha Hpb Hpa. unfold apply_correction in Ha.
  apply M_bind_inv in Ha as ([rb adj] & wa & Hx & Ha).
  unfold lift in Hx. injection Hx as Hx <-.
  destruct (extract_roi_inv _ _ _ _ _ _ Hx)
    as (page & roi & Hpage & -> & _).
  apply M_bind_inv in Ha as ([] & wb & Hs1 & Ha).
  unfold storage_save in Hs1; cbn in Hs1. injection Hs1 as <-.
  apply M_bind_inv in Ha as ([cb status] & wc & Hr & Ha).
  assert (w_store wc = <[before_path_of pid iid := Png roi]> (w_store w))
    as Hwc.
  { destruct (String.eqb method "nano_banana").
    - unfold apply_nano_banana in Hr.
      destruct (edit_roi_patch _ _ _ _ _ _) as [[[[b|] s] ed] calls];
        cbn in Hr.
      + by injection Hr as _ _ <-.
      + destruct (overlay _ _ _ _); cbn in Hr; [|done].
        by injection Hr as _ _ <-.
    - destruct (overlay _ _ _ _); cbn in Hr; [|done].
      by injection Hr as _ _ <-. }
  clear Hr.
  apply M_bind_inv in Ha as ([] & wd & Hs2 & Ha).
  unfold storage_save in Hs2; cbn in Hs2. injection Hs2 as <-.
  apply M_bind_inv in Ha as (updated & we & Hp & Ha).
  unfold lift in Hp. injection Hp as Hp <-. cbn in Hp.
  apply M_bind_inv in Ha as ([] & wf & Hs3 & Ha).
  unfold storage_save in Hs3; cbn in Hs3. injection Hs3 as <-.
  unfold ret in Ha. injection Ha as <- <- <- <-.
  unfold apply_patch_to_page in Hp.
  apply bind_Ok_inv in Hp as (pb & Hget & Hp).
  apply bind_Ok_inv in Hp as (page' & Hopen & Hp).
  apply bind_Ok_inv in Hp as (patch & Hopen' & Hp).
  apply mem_get_inv in Hget.
  rewrite Hwc in Hget.
  rewrite lookup_insert_ne, lookup_insert_ne in Hget by done.
  rewrite Hpage in Hget. injection Hget as <-.
  cbn in Hopen. injection Hopen as <-.
  apply Image_open_inv in Hopen' as ->.
  apply save_png_inv in Hp as (-> & Hpw & Hph).
  exists page, roi, adj, patch. cbn. rewrite Hwc. done.
Qed.

Lemma undo_correction_ok path bp (bbox : BBox)
    (w : world (gmap string blob)) page before :
  w_store w !! bp = Some (Png before) ->
  w_store w !! path = Some (Png page) ->
  0 < img_width page -> 0 < img_height page ->
  undo_correction path bp bbox w =
    (true,
     with_store w
       (<[path := Png (paste page before (box_x bbox) (box_y bbox))]>
          (w_store w))).
Proof.
  intros Hb Hp Hw Hh.
  unfold undo_correction, undo_body, bind, lift, storage_save.
  cbn. unfold mem_get. rewrite Hb. unfold apply_patch_to_page.
  cbn. unfold mem_get. rewrite Hp. cbn. unfold save_png. cbn.
  destruct (_ || _) eqn:Hsz; [|done].
  apply orb_true_iff in Hsz as [?|?]; lia.
Qed.

(** Undo after apply succeeds and puts the first pixel of the saved ROI
    at the origin of the issue bbox. *)
Lemma apply_then_undo path bbox text orig method pid iid
    (w : world (gmap string blob)) bp ap st w1 :
  apply_correction settings overlay oracle path bbox text orig method
    pid iid w = (Ok (bp, ap, st), w1) ->
  path <> before_path_of pid iid ->
  path <> after_path_of pid iid ->
  exists page roi adj final w2,
    w_store w !! path = Some (Png page)
    /\ extract_roi_with_margin settings (w_store w) path bbox
         (Some (roi_margin settings)) = Ok (Png roi, adj)
    /\ undo_correction path bp bbox w1 = (true, w2)
    /\ w_store w2 !! path = Some (Png final)
    /\ img_width final = img_width page
    /\ img_height final = img_height page
    /\ getpixel final (box_x bbox) (box_y bbox) = getpixel roi 0 0.
Proof.
  intros Ha Hpb Hpa.
  destruct (apply_correction_inv _ _ _ _ _ _ _ _ _ _ _ _ Ha Hpb Hpa)
    as (page & roi & adj & patch & Hpage & Hx & -> & -> & Hpw & Hph & Hst).
  destruct (extract_roi_inv _ _ _ _ _ _ Hx)
    as (page' & roi' & Hpage' & [= <-] & _ & Hcrop & Hw & Hh).
  rewrite Hpage in Hpage'. injection Hpage' as <-.
  eexists page, roi, adj, _, _. split; [done|]. split; [done|].
  split.
  { eapply undo_correction_ok with (before := roi).
    - rewrite Hst. rewrite lookup_insert_ne by done.
      rewrite lookup_insert_ne
        by (intros Heq; symmetry in Heq;
            by apply before_after_distinct in Heq).
      apply lookup_insert_eq.
    - rewrite Hst. apply lookup_insert_eq.
    - done.
    - done. }
  cbn. rewrite lookup_insert_eq.
  split; [done|]. split; [done|]. split; [done|].
  by apply paste_origin.
Qed.

End OnMemoryStore.
End CorrectionProps.

(** * Properties of the endpoints *)

Module EndpointProps.
Import PyStr Exn Raster Storage Config Model Pdf Gemini Correction Api.
Import Scenarios CorrectionProps.

Section AnyStore.
Context `{PyRuntime} {S : Type} `{RasterStore S} (settings : Settings).
Variable overlay : blob -> BBox -> list Z -> list Z -> result blob.
Variable oracle : nat -> model_call.

Lemma create_correction_inv request new_id now db (w : world S)
    body db1 w1 :
  create_correction settings overlay oracle request new_id now db w
    = (Response body, db1, w1) ->
  exists issue page text bp ap st c,
    issues db !! req_issue_id request = Some issue
    /\ pages db !! row_page_id issue = Some page
    /\ apply_correction settings overlay oracle (image_path page)
         (row_bbox issue) text (default [] (row_ocr_text issue))
         (req_method request) (project_id page) (req_issue_id request) w
       = (Ok (bp, ap, st), w1)
    /\ issue_id c = req_issue_id request
    /\ patch_before_path c = bp
    /\ applied c = true
    /\ db1 = {| pages := pages db;
                issues := <[req_issue_id request
                              := set_status corrected issue]> (issues db);
                corrections := <[new_id := c]> (corrections db) |}.
Proof.
  unfold create_correction. intros Hc.
  destruct (issues db !! req_issue_id request) as [issue|] eqn:Hi;
    [|done].
  destruct (pages db !! row_page_id issue) as [page|] eqn:Hp; [|done].
  match type of Hc with
  | context [match ?ch with Ok _ => _ | Raise _ => _ end] =>
      destruct ch as [[text|]|]; try done
  end.
  destruct (negb _); [done|].
  destruct (apply_correction _ _ _ _ _ _ _ _ _ _ _)
    as [[[[bp ap] st]|e] w'] eqn:Ha; [|done].
  injection Hc as <- <- <-.
  eexists issue, page, text, bp, ap, st, _.
  repeat split; try done; reflexivity.
Qed.

(** the undo endpoint on an applied correction, when
    [undo_correction] succeeds *)
Lemma undo_endpoint_ok cid db (w : world S) c issue page w2 :
  corrections db !! cid = Some c ->
  applied c = true ->
  issues db !! issue_id c = Some issue ->
  pages db !! row_page_id issue = Some page ->
  undo_correction (image_path page) (patch_before_path c)
    (row_bbox issue) w = (true, w2) ->
  undo_correction_endpoint cid db w =
    (Response {| undo_id := cid; undone := true;
                 issue_status := reviewing |},
     {| pages := pages db;
        issues := <[issue_id c := set_status reviewing issue]> (issues db);
        corrections := <[cid := set_applied false c]> (corrections db) |},
     w2).
Proof.
  intros Hc Ha Hi Hp Hu. unfold undo_correction_endpoint.
  rewrite Hc, Ha, Hi, Hp. cbn. by rewrite Hu.
Qed.

(** [undo_correction] answers [False] exactly when a step of its [try]
    block raised *)
Lemma undo_correction_reports path bp bbox (w : world S) :
  undo_correction path bp bbox w
  = (is_ok (undo_body path bp bbox w).1, (undo_body path bp bbox w).2).
Proof.
  unfold undo_correction. by destruct (undo_body _ _ _ _) as [[[]|e] w'].
Qed.

(** the three ways the [try] block can raise: reading the before-patch,
    compositing it onto the page, and writing the page back *)
Lemma undo_body_raises path bp bbox (w : world S) :
  is_ok (undo_body path bp bbox w).1 = false <->
  (exists e, get (w_store w) bp = Raise e)
  \/ (exists before e,
        get (w_store w) bp = Ok before
        /\ apply_patch_to_page (w_store w) path before
             (box_x bbox) (box_y bbox) = Raise e)
  \/ (exists before updated e,
        get (w_store w) bp = Ok before
        /\ apply_patch_to_page (w_store w) path before
             (box_x bbox) (box_y bbox) = Ok updated
        /\ (save_bytes (w_store w) updated path).1 = Raise e).
Proof.
  unfold undo_body, bind, lift, storage_save.
  destruct (get (w_store w) bp) as [before|e] eqn:Hg; cbn.
  2: { split; [intros _; left; by exists e | done]. }
  destruct (apply_patch_to_page _ _ _ _ _) as [updated|e] eqn:Hp; cbn.
  2: { split; [intros _; right; left; by exists before, e|done]. }
  destruct (save_bytes _ _ _) as [[[]|e] st] eqn:Hs; cbn.
  - split; [done|].
    intros [[e He]|[(b & e & Hb & He)|(b & u & e & Hb & Hu & He)]].
    + congruence.
    + injection Hb as <-. congruence.
    + injection Hb as <-. rewrite Hp in Hu. injection Hu as <-.
      rewrite Hs in He. discriminate.
  - split; [|done]. intros _. right; right.
    exists before, updated, e. by rewrite Hs.
Qed.

(** C8: when [undo_correction] fails, for whatever reason, it returns
    [False] rather than raising, and the endpoint answers with an error
    that leaves the Correction's [applied] flag and the Issue's status as
    they were; a later call on these unchanged records whose
    [undo_correction] succeeds is carried out. *)
Theorem undo_failure_leaves_records
    cid db (w : world S) c issue page :
  corrections db !! cid = Some c ->
  applied c = true ->
  issues db !! issue_id c = Some issue ->
  pages db !! row_page_id issue = Some page ->
  is_ok (undo_body (image_path page) (patch_before_path c)
           (row_bbox issue) w).1 = false ->
  exists w',
    undo_correction (image_path page) (patch_before_path c)
      (row_bbox issue) w = (false, w')
    /\ undo_correction_endpoint cid db w
       = (HTTPException 500 (lit "Failed to undo correction"), db, w')
    /\ forall w'' w3,
         undo_correction (image_path page) (patch_before_path c)
           (row_bbox issue) w'' = (true, w3) ->
         exists db',
           undo_correction_endpoint cid db w''
           = (Response {| undo_id := cid; undone := true;
                          issue_status := reviewing |}, db', w3)
           /\ applied <$> corrections db' !! cid = Some false.
Proof.
  intros Hc Ha Hi Hp Hfail.
  eexists. split; [|split].
  - rewrite undo_correction_reports, Hfail. reflexivity.
  - unfold undo_correction_endpoint. rewrite Hc, Ha, Hi, Hp. cbn.
    rewrite undo_correction_reports, Hfail. reflexivity.
  - intros w'' w3 Hu. eexists. split.
    + by apply (undo_endpoint_ok cid db w'' c issue page w3).
    + cbn. by rewrite lookup_insert_eq.
Qed.

End AnyStore.
End EndpointProps.

(** * Properties of the image editor *)

Module EditorProps.
Import PyStr PyFloat Exn Raster Gemini Scenarios.

Section AnyModel.
Context `{PyRuntime}.
Variable oracle : nat -> model_call.

(** the loop makes at most one call per remaining iteration *)
Lemma attempt_loop_calls remaining attempt ed calls :
  (calls <= (attempt_loop oracle remaining attempt ed calls).2
   <= calls + remaining)%nat.
Proof.
  revert attempt ed calls.
  induction remaining as [|n IH]; intros attempt ed calls; cbn; [lia|].
  destruct (oracle calls) as [parts|e].
  - destruct (first_image parts); cbn; lia.
  - destruct (is_signature_error e).
    { specialize (IH (attempt + 1)
                    {| thought_signature := None;
                       retry_count := retry_count ed + 1;
                       max_retries := max_retries ed |} (S calls)).
      lia. }
    destruct (is_rate_limit_error e); [cbn; lia|].
    destruct (attempt =? _); [cbn; lia|].
    specialize (IH (attempt + 1) ed (S calls)). lia.
Qed.

Lemma attempt_loop_first_call n attempt ed calls :
  (S calls <= (attempt_loop oracle (S n) attempt ed calls).2)%nat.
Proof.
  cbn. destruct (oracle calls) as [parts|e].
  - destruct (first_image parts); cbn; lia.
  - destruct (is_signature_error e).
    { match goal with
      | |- (_ <= (attempt_loop _ ?r ?a ?d ?c).2)%nat =>
          pose proof (attempt_loop_calls r a d c)
      end. lia. }
    destruct (is_rate_limit_error e); [cbn; lia|].
    destruct (attempt =? _); [cbn; lia|].
    match goal with
    | |- (_ <= (attempt_loop _ ?r ?a ?d ?c).2)%nat =>
        pose proof (attempt_loop_calls r a d c)
    end. lia.
Qed.

(** C5 (as amended): when the first call raises, a rate-limit or quota
    error that is not also a signature-type error is returned at once,
    after that single call; any other error, signature-type or not, is
    followed by a second call when [max_retries] allows one; and the
    editor never calls the model more than [max_retries] times. *)
Theorem first_error_and_retries ed calls roi orig corr e :
  oracle calls = Throws e ->
  (is_signature_error e = false -> is_rate_limit_error e = true ->
   1 <= max_retries ed ->
   edit_roi_patch oracle ed calls roi orig corr
     = ((None, lit "Rate limited: " ++ e), ed, S calls))
  /\ (is_signature_error e = true \/ is_rate_limit_error e = false ->
      2 <= max_retries ed ->
      (S (S calls)
         <= (edit_roi_patch oracle ed calls roi orig corr).2)%nat)
  /\ ((edit_roi_patch oracle ed calls roi orig corr).2
        <= calls + Z.to_nat (max_retries ed))%nat.
Proof.
  intros He. unfold edit_roi_patch. split; [|split].
  - intros Hs Hr Hm.
    destruct (Z.to_nat (max_retries ed)) as [|n] eqn:Hn; [lia|].
    cbn. by rewrite He, Hs, Hr.
  - intros Hk Hm.
    destruct (Z.to_nat (max_retries ed)) as [|[|n]] eqn:Hn; [lia|lia|].
    cbn [attempt_loop]. rewrite He.
    destruct (is_signature_error e) eqn:Hs.
    + apply attempt_loop_first_call.
    + destruct Hk as [|Hr]; [done|]. rewrite Hr.
      destruct (0 =? max_retries ed - 1) eqn:Hlast; [lia|].
      apply attempt_loop_first_call.
  - apply attempt_loop_calls.
Qed.

End AnyModel.
End EditorProps.

(** * Apply, undo and the editor on concrete inputs *)

Module CorrectionCases.
Import PyStr PyFloat Exn Raster Storage Config Model Pdf Gemini.
Import Correction Api Scenarios CorrectionProps EndpointProps EditorProps.

#[local] Existing Instance mem_store.

(** C4: on a 1000 x 1000 page, the bbox [{100,100,421,10}] with margin 40
    gives a clamped width of 501; the excess over the cap of 500 is 1,
    half of it is 0, and the adjusted bbox that comes back is 501 wide. *)
Theorem roi_exceeds_width_cap :
  exists roi adj,
    extract_roi_with_margin default_settings
      ({[ page_path := Png blank ]} : gmap string blob)
      page_path wide_bbox None = Ok (roi, adj)
    /\ adj_width adj = 501
    /\ max_roi_width default_settings = 500.
Proof. eexists _, _. split; [reflexivity|]. split; reflexivity. Qed.

Section AnyRenderer.
Context `{PyRuntime}.
Variable overlay : blob -> BBox -> list Z -> list Z -> result blob.
Variable oracle : nat -> model_call.

(** C1: on the gradient page, for the issue bbox [{50,50,10,10}] and
    whatever the renderer draws, a correction that was applied is undone
    with success, the Issue is back to [reviewing] and the Correction is
    no longer applied; but the stored page then shows at (50, 50) the
    pixel that was at (10, 10), the corner of the ROI, and not the
    original (50, 50, 0): the before-patch went to the issue bbox origin
    instead of the ROI origin. *)
Theorem apply_then_undo_shifts_page (now : Z) :
  is_response (first_apply overlay oracle now).1.1 = true ->
  exists db2 w2 final,
    undo_correction_endpoint "c1"
      (first_apply overlay oracle now).1.2
      (first_apply overlay oracle now).2
    = (Response {| undo_id := "c1"; undone := true;
                   issue_status := reviewing |}, db2, w2)
    /\ row_status <$> issues db2 !! "i1"%string = Some reviewing
    /\ applied <$> corrections db2 !! "c1"%string = Some false
    /\ w_store w2 !! page_path = Some (Png final)
    /\ getpixel final 50 50 = (10, 10, 0)
    /\ getpixel gradient 50 50 = (50, 50, 0)
    /\ ~ same_raster final gradient.
Proof.
  unfold first_apply.
  destruct (create_correction _ _ _ _ _ _ _ _) as [[r db1] w1] eqn:Hc.
  cbn [fst snd]. intros Hr. destruct r as [body|]; [|done].
  apply create_correction_inv in Hc
    as (issue & page & text & bp & ap & st & c
        & Hi & Hp & Ha & Hci & Hcb & Hca & ->).
  change (({[ "i1"%string := small_issue reviewing ]}
             : gmap string IssueRow) !! "i1"%string = Some issue) in Hi.
  rewrite lookup_singleton_eq in Hi. injection Hi as <-.
  change (({[ "pg1"%string := page_row ]} : gmap string PageRow)
            !! "pg1"%string = Some page) in Hp.
  rewrite lookup_singleton_eq in Hp. injection Hp as <-.
  destruct (apply_then_undo default_settings overlay oracle
              _ _ _ _ _ _ _ _ _ _ _ _ Ha)
    as (pg & roi & adj & final & w2 & Hpg & Hx & Hu & Hf & Hfw & Hfh & Hpx);
    [discriminate|discriminate|].
  change (({[ page_path := Png gradient ]} : gmap string blob) !! page_path
          = Some (Png pg)) in Hpg.
  rewrite lookup_singleton_eq in Hpg. injection Hpg as <-.
  assert (getpixel final 50 50 = (10, 10, 0)) as Hshift.
  { change (getpixel final 50 50 = getpixel roi 0 0) in Hpx.
    rewrite Hpx.
    destruct (extract_roi_inv default_settings _ _ _ _ _ _ Hx)
      as (pg' & roi' & Hpg' & [= <-] & Hb & Hcrop & _).
    change (({[ page_path := Png gradient ]} : gmap string blob) !! page_path
            = Some (Png pg')) in Hpg'.
    rewrite lookup_singleton_eq in Hpg'. injection Hpg' as <-.
    change (roi_bounds _ _ _ _) with (10, 10, 100, 100) in Hb.
    injection Hb as Hx1 Hy1 _ _. rewrite <- Hx1, <- Hy1 in Hcrop.
    by rewrite (crop_origin _ _ _ _ _ _ Hcrop). }
  eexists _, w2, final. split.
  { eapply undo_endpoint_ok.
    - apply lookup_insert_eq.
    - done.
    - cbn. rewrite Hci. cbn. apply lookup_insert_eq.
    - cbn. apply lookup_singleton_eq.
    - cbn. rewrite Hcb. exact Hu. }
  cbn. rewrite Hci. cbn. rewrite !lookup_insert_eq. cbn.
  repeat split; try done.
  intros (_ & _ & Hpix). specialize (Hpix 50 50). rewrite Hshift in Hpix.
  assert (inside final 50 50 = true) as Hin
    by (unfold inside; rewrite Hfw, Hfh; reflexivity).
  specialize (Hpix Hin). discriminate.
Qed.

End AnyRenderer.

#[local] Existing Instance ascii_runtime.

Lemma apply_then_undo_shifts_page_witness :
  is_response (first_apply keep_roi silent_model 0).1.1 = true
  /\ exists db2 w2 final,
       undo_correction_endpoint "c1"
         (first_apply keep_roi silent_model 0).1.2
         (first_apply keep_roi silent_model 0).2
       = (Response {| undo_id := "c1"; undone := true;
                      issue_status := reviewing |}, db2, w2)
       /\ row_status <$> issues db2 !! "i1"%string = Some reviewing
       /\ applied <$> corrections db2 !! "c1"%string = Some false
       /\ w_store w2 !! page_path = Some (Png final)
       /\ getpixel final 50 50 = (10, 10, 0)
       /\ getpixel gradient 50 50 = (50, 50, 0)
       /\ ~ same_raster final gradient.
Proof.
  split; [vm_compute; reflexivity|].
  apply apply_then_undo_shifts_page. vm_compute. reflexivity.
Defined.

(** the before-patch of the applied correction was never stored *)
Lemma undo_failure_leaves_records_witness :
  corrections db_applied !! "c1"%string = Some applied_correction
  /\ applied applied_correction = true
  /\ issues db_applied !! issue_id applied_correction
     = Some (small_issue corrected)
  /\ pages db_applied !! row_page_id (small_issue corrected) = Some page_row
  /\ is_ok (undo_body (image_path page_row)
              (patch_before_path applied_correction)
              (row_bbox (small_issue corrected)) fresh_world).1 = false
  /\ exists w',
       undo_correction (image_path page_row)
         (patch_before_path applied_correction)
         (row_bbox (small_issue corrected)) fresh_world = (false, w')
       /\ undo_correction_endpoint "c1" db_applied fresh_world
          = (HTTPException 500 (lit "Failed to undo correction"),
             db_applied, w')
       /\ forall w'' w3,
            undo_correction (image_path page_row)
              (patch_before_path applied_correction)
              (row_bbox (small_issue corrected)) w'' = (true, w3) ->
            exists db',
              undo_correction_endpoint "c1" db_applied w''
              = (Response {| undo_id := "c1"; undone := true;
                             issue_status := reviewing |}, db', w3)
              /\ applied <$> corrections db' !! "c1"%string = Some false.
Proof.
  assert (corrections db_applied !! "c1"%string = Some applied_correction)
    as Hc by apply lookup_singleton_eq.
  assert (issues db_applied !! issue_id applied_correction
          = Some (small_issue corrected)) as Hi by apply lookup_singleton_eq.
  assert (pages db_applied !! row_page_id (small_issue corrected)
          = Some page_row) as Hp by apply lookup_singleton_eq.
  assert (is_ok (undo_body (image_path page_row)
                   (patch_before_path applied_correction)
                   (row_bbox (small_issue corrected)) fresh_world).1 = false)
    as Hfail by (vm_compute; reflexivity).
  repeat (split; [done|]).
  exact (undo_failure_leaves_records "c1" db_applied fresh_world
           applied_correction (small_issue corrected) page_row
           Hc eq_refl Hi Hp Hfail).
Defined.

(** C5: the first call fails with "connection reset", which is neither a
    signature-type nor a rate-limit error; the editor calls the model a
    second time and returns the image of that second call. *)
Lemma other_error_is_retried :
  is_signature_error (lit "connection reset") = false
  /\ is_rate_limit_error (lit "connection reset") = false
  /\ edit_roi_patch flaky_model new_editor 0 (Raw []) (lit "?") (lit "A")
     = ((Some (Raw [137; 80; 78; 71]), lit "success"), new_editor, 2%nat).
Proof. repeat split; reflexivity. Qed.

Lemma first_error_and_retries_witness :
  throttled_model 0%nat = Throws (lit "429 Quota exceeded")
  /\ is_signature_error (lit "429 Quota exceeded") = false
  /\ is_rate_limit_error (lit "429 Quota exceeded") = true
  /\ 1 <= max_retries new_editor
  /\ edit_roi_patch throttled_model new_editor 0 (Raw []) (lit "?") (lit "A")
     = ((None, lit "Rate limited: " ++ lit "429 Quota exceeded"),
        new_editor, 1%nat).
Proof.
  repeat (split; [reflexivity || done|]).
  apply (first_error_and_retries throttled_model new_editor 0%nat
           (Raw []) (lit "?") (lit "A") (lit "429 Quota exceeded") eq_refl);
    reflexivity || done.
Defined.

End CorrectionCases.

(** * Further properties of the detection service *)

Module DetectionInvariants.
Import PyStr PyFloat Re Config Model Detection Scenarios Notions.
Import DetectionProps.

Section AnyRuntime.
Context `{PyRuntime}.

Lemma length_omap_le {A B} (f : A -> option B) (l : list A) :
  (length (omap f l) <= length l)%nat.
Proof. induction l as [|a l IH]; cbn; [lia|]. destruct (f a); cbn; lia. Qed.

Lemma slice_to_subseteq {A} (n : Z) (l : list A) : slice_to n l ⊆ l.
Proof. unfold slice_to. destruct (n <? 0); apply subseteq_take. Qed.

(** every issue that is returned was built from a block of the page *)
Lemma detect_issues_elem settings blocks pid i :
  i ∈ detect_issues settings blocks pid ->
  exists b, b ∈ blocks /\ detect_block pid b = Some i.
Proof.
  unfold detect_issues. intros Hin. apply slice_to_subseteq in Hin.
  apply list_elem_of_omap in Hin as (b & Hb & Hi). by exists b.
Qed.

Lemma detect_block_Some pid b i :
  detect_block pid b = Some i ->
  exists t p ps,
    scan_type (run_checks b) = Some t
    /\ scan_problems (run_checks b) = p :: ps
    /\ i = {| page_id := pid;
              bbox_x := box_x (block_bbox b);
              bbox_y := box_y (block_bbox b);
              bbox_width := box_width (block_bbox b);
              bbox_height := box_height (block_bbox b);
              issue_type := t;
              confidence := block_confidence b;
              ocr_text := block_text b;
              detected_problems := p :: ps;
              status := detected;
              auto_correctable :=
                evaluate_auto_correctability
                  (block_text b) (block_confidence b) (p :: ps) |}.
Proof.
  unfold detect_block.
  destruct (scan_type (run_checks b)) as [t|]; [|done].
  destruct (scan_problems (run_checks b)) as [|p ps]; [done|].
  intros [= <-]. by exists t, p, ps.
Qed.

Lemma issue_for_block pid b t ps a :
  issue_for b
    {| page_id := pid;
       bbox_x := box_x (block_bbox b);
       bbox_y := box_y (block_bbox b);
       bbox_width := box_width (block_bbox b);
       bbox_height := box_height (block_bbox b);
       issue_type := t;
       confidence := block_confidence b;
       ocr_text := block_text b;
       detected_problems := ps;
       status := detected;
       auto_correctable := a |}.
Proof. unfold issue_for, issue_bbox. cbn. by destruct (block_bbox b). Qed.

(** no check ever assigns the type [manual] *)
Lemma run_checks_never_manual b :
  scan_type (run_checks b) <> Some manual.
Proof.
  rewrite issue_type_by_priority.
  destruct (large_and_empty b); [done|]. case_decide; [|done].
  destruct (lt _ _); [done|]. destruct (looks_suspicious b); [done|].
  by destruct (sparse b).
Qed.

Ltac raise_scan :=
  split; cbn [scan_type scan_problems];
  [ first [ by eexists | by destruct (scan_type _) ]
  | by destruct (scan_problems _) ].

Lemma check_low_confidence_raised b s :
  lt (block_confidence b) 0.8%float = true \/ raised s ->
  raised (check_low_confidence b s).
Proof.
  unfold check_low_confidence.
  intros [->|Hs]; [raise_scan|]. destruct (lt _ _); [raise_scan|done].
Qed.

Lemma check_garbled_chars_raised b s :
  garbled_found (block_text b) <> [] \/ raised s ->
  raised (check_garbled_chars b s).
Proof.
  unfold check_garbled_chars.
  destruct (garbled_found (block_text b)) as [|c found];
    [|intros _; raise_scan].
  by intros [?|?].
Qed.

Lemma check_suspicious_raised b s :
  looks_suspicious b = true \/ raised s -> raised (check_suspicious b s).
Proof.
  unfold check_suspicious, looks_suspicious.
  intros [->|Hs]; [raise_scan|]. destruct (existsb _ _); [raise_scan|done].
Qed.

Lemma check_large_empty_raised b s :
  large_and_empty b = true \/ raised s -> raised (check_large_empty b s).
Proof.
  unfold check_large_empty, large_and_empty.
  intros [Hl|Hs].
  - apply andb_true_iff in Hl as [-> ->]. raise_scan.
  - destruct (_ && _); [|done]. destruct (_ <? 3); [raise_scan|done].
Qed.

Lemma check_density_raised b s :
  sparse b = true \/ raised s -> raised (check_density b s).
Proof.
  unfold check_density, sparse.
  intros [Hl|Hs].
  - rewrite <- andb_assoc in Hl. apply andb_true_iff in Hl as [-> ->].
    raise_scan.
  - destruct (_ && _); [|done]. destruct (_ && _); [raise_scan|done].
Qed.

(** a block on which no check fires leaves the loop variables as they
    were initialised *)
Lemma run_checks_idle b :
  suspect b = false -> run_checks b = scan_start.
Proof.
  unfold suspect, looks_suspicious, large_and_empty, sparse. intros Hs.
  repeat (apply orb_false_iff in Hs as [Hs ?]).
  unfold run_checks, check_density, check_large_empty, check_suspicious,
    check_garbled_chars, check_low_confidence.
  rewrite Hs. destruct (garbled_found (block_text b)); [|done].
  match goal with Hodd : existsb _ _ = false |- _ => rewrite Hodd end.
  match goal with
  | Hbig : _ && _ && (_ <? 3) = false |- _ =>
      apply andb_false_iff in Hbig as [->| ->]
  end.
  all: match goal with
       | Hthin : _ && _ && lt _ _ && _ = false |- _ =>
           rewrite <- andb_assoc in Hthin;
           apply andb_false_iff in Hthin as [->| ->]
       end.
  all: by repeat match goal with
              | |- context [if ?c then _ else _] => destruct c
              end.
Qed.

Lemma run_checks_raised b :
  suspect b = true -> raised (run_checks b).
Proof.
  unfold suspect, run_checks. intros Hs.
  apply check_density_raised. destruct (sparse b); [by left|right].
  apply check_large_empty_raised.
  destruct (large_and_empty b); [by left|right].
  apply check_suspicious_raised.
  destruct (looks_suspicious b); [by left|right].
  apply check_garbled_chars_raised.
  destruct (garbled_found (block_text b)); [right|by left].
  apply check_low_confidence_raised. left.
  by rewrite !orb_false_r in Hs.
Qed.

Lemma suspect_of_issue pid b i :
  detect_block pid b = Some i -> suspect b = true.
Proof.
  intros Hi. destruct (suspect b) eqn:Hs; [done|].
  unfold detect_block in Hi. by rewrite (run_checks_idle b Hs) in Hi.
Qed.

(** X1: when [max_issues_per_page] is not negative, [detect_issues]
    returns at most that many issues, and never more issues than the page
    has OCR blocks. *)
Theorem detect_issues_capped settings blocks pid :
  0 <= max_issues_per_page settings ->
  Z.of_nat (length (detect_issues settings blocks pid))
    <= max_issues_per_page settings
  /\ (length (detect_issues settings blocks pid) <= length blocks)%nat.
Proof.
  intros Hmax. unfold detect_issues, slice_to.
  pose proof (length_omap_le (detect_block pid) blocks) as Hle.
  destruct (_ <? 0) eqn:Hneg; [lia|].
  rewrite length_take. lia.
Qed.

(** X2: the loop of [detect_issues] creates no issue for a block exactly
    when none of the five checks fires on it: its confidence is not below
    0.8, its text holds no garbled character and matches no suspicious
    pattern, it is not a large box with fewer than three characters, and
    it is not a box of more than five characters with a density below
    0.1. *)
Theorem clean_block_no_issue pid b :
  detect_block pid b = None <-> suspect b = false.
Proof.
  split.
  - intros Hnone. destruct (suspect b) eqn:Hs; [|done].
    apply run_checks_raised in Hs as [[t Ht] Hp].
    unfold detect_block in Hnone. rewrite Ht in Hnone.
    by destruct (scan_problems (run_checks b)).
  - intros Hs. unfold detect_block. by rewrite (run_checks_idle b Hs).
Qed.

(** X3: every issue returned by [detect_issues] carries the page id that
    was passed in and the status [detected], has a type other than
    [manual] and at least one recorded problem, and has the bbox, the text
    and the confidence of a block of the OCR result on which a check
    fired. *)
Theorem detected_issue_shape settings blocks pid i :
  i ∈ detect_issues settings blocks pid ->
  page_id i = pid
  /\ status i = detected
  /\ issue_type i <> manual
  /\ detected_problems i <> []
  /\ exists b, b ∈ blocks /\ issue_for b i
               /\ confidence i = block_confidence b
               /\ suspect b = true.
Proof.
  intros Hin. apply detect_issues_elem in Hin as (b & Hb & Hi).
  pose proof (suspect_of_issue _ _ _ Hi) as Hs.
  apply detect_block_Some in Hi as (t & p & ps & Ht & Hp & ->).
  cbn [page_id status issue_type detected_problems confidence].
  split; [done|]. split; [done|]. split.
  { intros ->. by apply (run_checks_never_manual b). }
  split; [done|]. exists b. split; [done|].
  split; [apply issue_for_block|done].
Qed.

(** X4: the type of every issue returned by [detect_issues] follows a
    fixed priority over the checks that fired on its block: a large box
    with fewer than three characters gives [missing]; otherwise a garbled
    character gives [garbled]; otherwise a confidence below 0.8 gives
    [low_confidence]; otherwise a suspicious pattern gives [garbled]; and
    a low character density alone gives [missing]. *)
Theorem detected_issue_type settings blocks pid i :
  i ∈ detect_issues settings blocks pid ->
  exists b, b ∈ blocks /\ issue_for b i
            /\ issue_type i = type_by_priority b.
Proof.
  intros Hin. apply detect_issues_elem in Hin as (b & Hb & Hi).
  apply detect_block_Some in Hi as (t & p & ps & Ht & Hp & ->).
  exists b. split; [done|]. split; [apply issue_for_block|].
  cbn [issue_type]. rewrite issue_type_by_priority in Ht.
  unfold type_by_priority.
  destruct (large_and_empty b); [congruence|].
  destruct (garbled_found (block_text b)); [|case_decide; congruence].
  case_decide; [|done].
  destruct (lt _ _); [congruence|].
  destruct (looks_suspicious b); [congruence|].
  destruct (sparse b); congruence.
Qed.

(** X5: an issue returned by [detect_issues] whose text matches a
    sensitive pattern (long number, URL, e-mail address, date, amount,
    product code, phone-like number) is never marked auto-correctable,
    even when the garbled-character check had set the flag. *)
Theorem sensitive_issue_not_auto_correctable settings blocks pid i :
  i ∈ detect_issues settings blocks pid ->
  contains_sensitive_pattern (ocr_text i) = true ->
  auto_correctable i = false.
Proof.
  intros Hin. apply detect_issues_elem in Hin as (b & Hb & Hi).
  apply detect_block_Some in Hi as (t & p & ps & Ht & Hp & ->).
  cbn [ocr_text auto_correctable]. intros Hs.
  unfold evaluate_auto_correctability. by rewrite Hs.
Qed.

(** ** Auto-adoption *)

Lemma SFltb_trans a b c :
  SFltb a b = true -> SFltb b c = true -> SFltb a c = true.
Proof.
  unfold SFltb, SFcompare.
  destruct a as [[]|[]| |[] m1 e1], b as [[]|[]| |[] m2 e2],
    c as [[]|[]| |[] m3 e3]; try done.
  - destruct (Z.compare_spec e1 e2), (Z.compare_spec e2 e3),
      (Z.compare_spec e1 e3); try done; try lia; subst;
      rewrite ?Pos.compare_cont_spec in *; cbn in *;
      destruct (Pos.compare_spec m1 m2), (Pos.compare_spec m2 m3),
        (Pos.compare_spec m1 m3); cbn in *; try done; try lia.
  - destruct (Z.compare_spec e1 e2), (Z.compare_spec e2 e3),
      (Z.compare_spec e1 e3); try done; try lia; subst;
      rewrite ?Pos.compare_cont_spec in *; cbn in *;
      destruct (Pos.compare_spec m1 m2), (Pos.compare_spec m2 m3),
        (Pos.compare_spec m1 m3); cbn in *; try done; try lia.
Qed.

(** [<] on floats is transitive *)
Lemma lt_trans (a b c : float) :
  lt a b = true -> lt b c = true -> lt a c = true.
Proof. unfold lt. rewrite !ltb_spec. apply SFltb_trans. Qed.

(** X6: once Rules 1 to 3 of [evaluate_auto_adopt] have let a candidate
    list through (no sensitive pattern, no proper noun, no close second
    candidate), the top candidate is adopted exactly when its confidence
    exceeds 0.80: Rules 4, 5 and 6 never change the outcome, so neither
    the OCR confidence, nor the garbled characters, nor the text
    similarity has any influence on the decision. *)
Theorem auto_adopt_decided_by_top_confidence
    (ocr_text : list Z) (top_candidate : Candidate)
    (rest : list Candidate) (ocr_confidence : float) :
  evaluate_auto_adopt ocr_text (top_candidate :: rest) ocr_confidence =
    if contains_sensitive_pattern ocr_text
       || contains_sensitive_pattern (cand_text top_candidate)
       || looks_like_proper_noun (cand_text top_candidate)
       || close_call (top_candidate :: rest)
    then (false, None)
    else if gt (cand_confidence top_candidate) 0.80%float
    then (true, Some 0)
    else (false, None).
Proof.
  unfold evaluate_auto_adopt, close_call.
  destruct (contains_sensitive_pattern ocr_text
            || contains_sensitive_pattern (cand_text top_candidate));
    [done|].
  destruct (looks_like_proper_noun (cand_text top_candidate)); [done|].
  cbn [orb].
  match goal with
  | |- (if ?c then _ else _) = (if ?c then _ else _) => destruct c
  end; [done|].
  destruct (gt (cand_confidence top_candidate) 0.80%float) eqn:Htop.
  { by repeat match goal with
              | |- context [if ?c then _ else _] => destruct c
              end. }
  assert (gt (cand_confidence top_candidate) 0.85%float = false) as ->.
  { destruct (gt _ 0.85%float) eqn:H85; [|done].
    rewrite <- Htop. symmetry. by apply (lt_trans 0.80 0.85 _). }
  assert (gt (cand_confidence top_candidate) 0.90%float = false) as ->.
  { destruct (gt _ 0.90%float) eqn:H90; [|done].
    rewrite <- Htop. symmetry. by apply (lt_trans 0.80 0.90 _). }
  by rewrite !andb_false_r.
Qed.

(** X7: [_text_similarity] is symmetric in its two texts. *)
Theorem text_similarity_symmetric (text1 text2 : list Z) :
  _text_similarity text1 text2 = _text_similarity text2 text1.
Proof.
  unfold _text_similarity.
  destruct text1 as [|c1 t1], text2 as [|c2 t2]; try done.
  rewrite (bool_decide_ext (u_lower (strip (c1 :: t1))
                            = u_lower (strip (c2 :: t2)))
             (u_lower (strip (c2 :: t2)) = u_lower (strip (c1 :: t1))))
    by done.
  set (chars1 := list_to_set (u_lower (strip (c1 :: t1))) : gset Z).
  set (chars2 := list_to_set (u_lower (strip (c2 :: t2))) : gset Z).
  assert (chars1 ∩ chars2 = chars2 ∩ chars1) as ->
    by apply intersection_comm_L.
  by assert (chars1 ∪ chars2 = chars2 ∪ chars1) as ->
    by apply union_comm_L.
Qed.

End AnyRuntime.
End DetectionInvariants.

(** * Properties of issue merging *)

Module MergeProps.
Import PyStr PyFloat Re Config Model Detection Scenarios Notions.

Section AnyRuntime.
Context `{PyRuntime}.

Lemma covers_refl a : covers a a.
Proof. unfold covers. lia. Qed.

Lemma covers_trans a b c : covers a b -> covers b c -> covers a c.
Proof. unfold covers. lia. Qed.

Lemma merge_covers_left a b : covers (_merge_two_issues a b) a.
Proof. unfold covers, _merge_two_issues. cbn. lia. Qed.

Lemma merge_covers_right a b : covers (_merge_two_issues a b) b.
Proof. unfold covers, _merge_two_issues. cbn. lia. Qed.

Lemma led_by_refl a : led_by a a.
Proof. by unfold led_by. Qed.

(** the inner loop: the accumulator covers what it started from and every
    later issue it consumed, and keeps the identity of its start *)
Lemma merge_scan_covers threshold later cur used cur' used' :
  merge_scan threshold later (cur, used) = (cur', used') ->
  covers cur' cur
  /\ led_by cur' cur
  /\ used ⊆ used'
  /\ forall j, j ∈ used' -> j ∈ used \/
       exists ij, (j, ij) ∈ later /\ covers cur' ij.
Proof.
  revert cur used. unfold merge_scan.
  induction later as [|[j ij] later IH]; intros cur used; cbn.
  - intros [= <- <-]. split; [apply covers_refl|].
    split; [apply led_by_refl|]. split; [done|]. auto.
  - case_bool_decide as Hj.
    + intros Hf. destruct (IH _ _ Hf) as (Hc & Hl & Hs & Hu).
      split; [done|]. split; [done|]. split; [done|].
      intros k Hk. destruct (Hu k Hk) as [?|(ik & Hin & Hck)]; [by left|].
      right. exists ik. split; [by apply list_elem_of_further|done].
    + destruct (_bboxes_nearby cur ij threshold).
      * intros Hf. destruct (IH _ _ Hf) as (Hc & Hl & Hs & Hu).
        split; [eapply covers_trans; [exact Hc|apply merge_covers_left]|].
        split.
        { unfold led_by, _merge_two_issues in *. by cbn in Hl. }
        split; [(etrans; [|exact Hs]; apply union_subseteq_r)|].
        intros k Hk. destruct (Hu k Hk) as [Hin|(ik & Hin & Hck)].
        -- apply elem_of_union in Hin as [Hin|Hin]; [|by left].
           apply elem_of_singleton in Hin as ->. right. exists ij.
           split; [apply list_elem_of_here|].
           eapply covers_trans; [exact Hc|apply merge_covers_right].
        -- right. exists ik. split; [by apply list_elem_of_further|done].
      * intros Hf. destruct (IH _ _ Hf) as (Hc & Hl & Hs & Hu).
        split; [done|]. split; [done|]. split; [done|].
        intros k Hk. destruct (Hu k Hk) as [?|(ik & Hin & Hck)]; [by left|].
        right. exists ik. split; [by apply list_elem_of_further|done].
Qed.

(** the inner loop changes nothing when no later issue is nearby *)
Lemma merge_scan_far threshold later cur used :
  (forall j ij, (j, ij) ∈ later -> _bboxes_nearby cur ij threshold = false) ->
  merge_scan threshold later (cur, used) = (cur, used).
Proof.
  unfold merge_scan. induction later as [|[j ij] later IH]; intros Hfar;
    [done|].
  cbn [foldl]. rewrite (Hfar j ij) by apply list_elem_of_here.
  assert ((if bool_decide (j ∈ used) then (cur, used) else (cur, used))
          = (cur, used)) as -> by by case_bool_decide.
  apply IH. intros k ik Hk. apply (Hfar k). by apply list_elem_of_further.
Qed.

Lemma merge_loop_steps threshold issues :
  merge_loop threshold issues
  = foldl (merge_step threshold issues) ([], ∅) (imap pair issues).
Proof.
  unfold merge_loop. generalize (([], ∅) : list Issue * gset nat).
  generalize (imap pair issues) at 2 3.
  intros l. induction l as [|[i issue1] l IH]; intros [merged used]; [done|].
  cbn [foldl]. rewrite <- IH. reflexivity.
Qed.

Lemma enumerate_lookup (issues : list Issue) j p :
  imap pair issues !! j = Some p
  <-> exists ij, p = (j, ij) /\ issues !! j = Some ij.
Proof.
  rewrite list_lookup_imap. destruct (issues !! j) as [ij|]; cbn.
  - split; [intros [= <-]; by exists ij | intros (? & -> & [= ->]); done].
  - split; [done | intros (? & _ & ?); done].
Qed.

Lemma enumerate_elem (issues : list Issue) j ij :
  (j, ij) ∈ imap pair issues -> issues !! j = Some ij.
Proof.
  intros Hin. apply list_elem_of_lookup in Hin as [p Hp].
  apply enumerate_lookup in Hp as (ij' & [= <- <-] & Hij). done.
Qed.

(** the position of an entry of [enumerate(issues[i + 1:], i + 1)] *)
Lemma enumerate_later (issues : list Issue) i j ij :
  (j, ij) ∈ drop (S i) (imap pair issues) ->
  (i < j)%nat /\ issues !! j = Some ij.
Proof.
  intros Hin. apply list_elem_of_lookup in Hin as [k Hk].
  rewrite lookup_drop in Hk.
  apply enumerate_lookup in Hk as (ij' & [= -> <-] & Hij).
  split; [lia|done].
Qed.

(** after [k] rounds of the outer loop: the first [k] indices are used,
    every used issue is covered by a merged one, every merged issue is led
    by an input issue, and one issue at most was added per round *)
Lemma merge_loop_inv threshold issues k :
  (k <= length issues)%nat ->
  let st := foldl (merge_step threshold issues) ([], ∅)
              (take k (imap pair issues)) in
  (forall j, (j < k)%nat -> j ∈ st.2)
  /\ (forall j ij, issues !! j = Some ij -> j ∈ st.2 ->
        exists m, m ∈ st.1 /\ covers m ij)
  /\ (forall m, m ∈ st.1 ->
        exists ij, ij ∈ issues /\ led_by m ij /\ covers m ij)
  /\ (length st.1 <= k)%nat
  /\ (0 < k -> 0 < length st.1)%nat
  /\ (k = 0%nat -> st.2 = ∅).
Proof.
  induction k as [|k IH]; intros Hk; cbn zeta.
  { rewrite take_0. cbn. split; [intros; lia|]. split; [set_solver|].
    split; [set_solver|]. split; [lia|]. split; [lia|done]. }
  destruct (lookup_lt_is_Some_2 issues k ltac:(lia)) as [ik Hik].
  assert (imap pair issues !! k = Some (k, ik)) as Hek.
  { apply enumerate_lookup. by exists ik. }
  rewrite (take_S_r _ _ _ Hek), foldl_snoc.
  specialize (IH ltac:(lia)). cbn zeta in IH.
  destruct (foldl _ _ (take k _)) as [merged used]. cbn [fst snd] in IH.
  destruct IH as (Hall & Hcov & Hled & Hlen & Hpos & Hempty).
  unfold merge_step. case_bool_decide as Hused.
  - cbn [fst snd]. split.
    { intros j Hj. destruct (decide (j = k)) as [->|]; [done|].
      apply Hall. lia. }
    split; [done|]. split; [done|]. split; [lia|]. split; [|lia].
    intros _. destruct k; [|lia]. rewrite Hempty in Hused by done.
    set_solver.
  - destruct (merge_scan _ _ _) as [cur' used'] eqn:Hscan.
    apply merge_scan_covers in Hscan as (Hc & Hl & Hs & Hu).
    cbn [fst snd]. split.
    { intros j Hj. destruct (decide (j = k)) as [->|]; [set_solver|].
      apply elem_of_union_r, Hs, Hall. lia. }
    split.
    { intros j ij Hij Hj. apply elem_of_union in Hj as [Hj|Hj].
      - apply elem_of_singleton in Hj as ->.
        rewrite Hik in Hij. injection Hij as <-.
        exists cur'. split; [set_solver|done].
      - destruct (Hu j Hj) as [Hold|(ij' & Hin & Hcj)].
        + destruct (Hcov j ij Hij Hold) as (m & Hm & Hcm).
          exists m. split; [set_solver|done].
        + apply enumerate_later in Hin as [_ Hp].
          rewrite Hij in Hp. injection Hp as <-.
          exists cur'. split; [set_solver|done]. }
    split.
    { intros m Hm. apply elem_of_app in Hm as [Hm|Hm]; [by apply Hled|].
      apply list_elem_of_singleton in Hm as ->. exists ik.
      split; [by eapply list_elem_of_lookup_2|done]. }
    rewrite length_app. cbn. lia.
Qed.

Lemma merge_loop_done threshold issues :
  let st := merge_loop threshold issues in
  (forall j ij, issues !! j = Some ij -> exists m, m ∈ st.1 /\ covers m ij)
  /\ (forall m, m ∈ st.1 ->
        exists ij, ij ∈ issues /\ led_by m ij /\ covers m ij)
  /\ (length st.1 <= length issues)%nat
  /\ (0 < length issues -> 0 < length st.1)%nat.
Proof.
  cbn zeta. rewrite merge_loop_steps.
  pose proof (merge_loop_inv threshold issues (length issues) ltac:(lia))
    as Hinv. cbn zeta in Hinv.
  rewrite take_ge in Hinv by (rewrite length_imap; lia).
  destruct Hinv as (Hall & Hcov & Hled & Hle & Hpos & _).
  split; [|done].
  intros j ij Hij. apply (Hcov j ij Hij), Hall. by eapply lookup_lt_Some.
Qed.

(** X8: [merge_nearby_issues] loses no region: for every issue of the
    input, the result holds an issue whose bbox contains the bbox of that
    input issue. *)
Theorem merge_keeps_every_region issues threshold ij :
  ij ∈ issues ->
  exists m, m ∈ merge_nearby_issues issues threshold /\ covers m ij.
Proof.
  intros Hin. unfold merge_nearby_issues.
  destruct (length issues <=? 1)%nat eqn:Hlen.
  { exists ij. split; [done|apply covers_refl]. }
  apply list_elem_of_lookup in Hin as [j Hij].
  by apply (merge_loop_done threshold issues) in Hij.
Qed.

(** X9: [merge_nearby_issues] never returns more issues than it was
    given, and returns an empty list only for an empty input. *)
Theorem merge_never_longer issues threshold :
  (length (merge_nearby_issues issues threshold) <= length issues)%nat
  /\ (merge_nearby_issues issues threshold = [] <-> issues = []).
Proof.
  unfold merge_nearby_issues.
  destruct (length issues <=? 1)%nat eqn:Hlen; [done|].
  destruct (merge_loop_done threshold issues) as (_ & _ & Hle & Hpos).
  split; [done|]. apply Nat.leb_gt in Hlen. split.
  - intros Hnil. rewrite Hnil in Hpos. cbn in Hpos. lia.
  - intros ->. cbn in Hlen. lia.
Qed.


Lemma far_loop_inv threshold issues k :
  (forall i j a b, (i < j)%nat ->
     issues !! i = Some a -> issues !! j = Some b ->
     _bboxes_nearby a b threshold = false) ->
  (k <= length issues)%nat ->
  foldl (merge_step threshold issues) ([], ∅) (take k (imap pair issues))
  = (take k issues, list_to_set (seq 0 k)).
Proof.
  intros Hfar. induction k as [|k IH]; intros Hk.
  { by rewrite !take_0. }
  destruct (lookup_lt_is_Some_2 issues k ltac:(lia)) as [ik Hik].
  assert (imap pair issues !! k = Some (k, ik)) as Hek.
  { apply enumerate_lookup. by exists ik. }
  rewrite (take_S_r _ _ _ Hek), foldl_snoc, IH by lia.
  unfold merge_step. rewrite bool_decide_eq_false_2.
  2: { rewrite elem_of_list_to_set, elem_of_seq. lia. }
  rewrite merge_scan_far.
  2: { intros j ij Hin. apply enumerate_later in Hin as [Hlt Hj].
       by apply (Hfar k j). }
  rewrite (take_S_r _ _ _ Hik). f_equal.
  rewrite seq_S, list_to_set_app_L. cbn [list_to_set Nat.add].
  rewrite union_empty_r_L. apply union_comm_L.
Qed.

(** X11: when no two issues of the input are nearby at the threshold
    (for every pair in list order, [_bboxes_nearby] is false),
    [merge_nearby_issues] returns the input unchanged. *)
Theorem distant_issues_kept issues threshold :
  (forall i j a b, (i < j)%nat ->
     issues !! i = Some a -> issues !! j = Some b ->
     _bboxes_nearby a b threshold = false) ->
  merge_nearby_issues issues threshold = issues.
Proof.
  intros Hfar. unfold merge_nearby_issues.
  destruct (length issues <=? 1)%nat; [done|].
  rewrite merge_loop_steps.
  rewrite <- (take_ge (imap pair issues) (length issues))
    by (rewrite length_imap; lia).
  rewrite (far_loop_inv threshold issues _ Hfar) by lia.
  cbn. by rewrite take_ge by lia.
Qed.

End AnyRuntime.
End MergeProps.

(** * Further properties of ROI extraction *)

Module RoiProps.
Import PyStr Exn Raster Storage Config Model Pdf Scenarios CorrectionProps.

Lemma crop_inv img x1 y1 x2 y2 roi :
  crop img x1 y1 x2 y2 = Ok roi ->
  img_width roi = x2 - x1 /\ img_height roi = y2 - y1
  /\ forall i j, getpixel roi i j =
       if inside img (x1 + i) (y1 + j) then getpixel img (x1 + i) (y1 + j)
       else black.
Proof.
  unfold crop. destruct (x2 <? x1); [done|]. destruct (y2 <? y1); [done|].
  by intros [= <-].
Qed.

(** the corners stay inside the image *)
Lemma roi_bounds_inside settings img bbox margin x1 y1 x2 y2 :
  roi_bounds settings img bbox margin = (x1, y1, x2, y2) ->
  0 <= x1 /\ 0 <= y1 /\ x2 <= img_width img /\ y2 <= img_height img.
Proof.
  unfold roi_bounds. cbn zeta.
  destruct (max_roi_width settings <? _) eqn:Hw;
    destruct (max_roi_height settings <? _) eqn:Hh;
    intros [= <- <- <- <-].
  all: repeat match goal with
              | |- context [?e / 2] =>
                  lazymatch goal with
                  | _ : e = 2 * (e / 2) + e mod 2 |- _ => fail
                  | _ => pose proof (Z.div_mod e 2 ltac:(lia));
                         pose proof (Z.mod_pos_bound e 2 ltac:(lia))
                  end
              end; lia.
Qed.

Section AnyStore.
Context {S : Type} `{RasterStore S} (settings : Settings).

Lemma extract_roi_steps (st : S) path bbox margin rb adj :
  extract_roi_with_margin settings st path bbox margin = Ok (rb, adj) ->
  exists page roi,
    get st path = Ok (Png page) /\ rb = Png roi
    /\ roi_bounds settings page bbox (default (roi_margin settings) margin)
       = (adj_x adj, adj_y adj,
          adj_x adj + adj_width adj, adj_y adj + adj_height adj)
    /\ crop page (adj_x adj) (adj_y adj)
         (adj_x adj + adj_width adj) (adj_y adj + adj_height adj) = Ok roi
    /\ 0 < img_width roi /\ 0 < img_height roi
    /\ offset_x adj = box_x bbox - adj_x adj
    /\ offset_y adj = box_y bbox - adj_y adj.
Proof.
  unfold extract_roi_with_margin. intros Hx.
  apply bind_Ok_inv in Hx as (img_bytes & Hget & Hx).
  apply bind_Ok_inv in Hx as (page & Hopen & Hx).
  destruct (roi_bounds _ _ _ _) as [[[x1 y1] x2] y2] eqn:Hb.
  apply bind_Ok_inv in Hx as (roi & Hcrop & Hx).
  apply bind_Ok_inv in Hx as (roi_bytes & Hsave & Hx).
  injection Hx as <- <-.
  apply Image_open_inv in Hopen as ->.
  apply save_png_inv in Hsave as (-> & Hw & Hh).
  exists page, roi. cbn. repeat split; try done.
  - rewrite Hb. repeat f_equal; lia.
  - rewrite <- Hcrop. f_equal; lia.
Qed.

(** X12: when [extract_roi_with_margin] succeeds, the stored page is a
    PNG, the ROI that comes back has the size given by the adjusted bbox,
    that size is positive in both directions, and the adjusted bbox lies
    inside the page. *)
Theorem roi_within_page (st : S) path bbox margin rb adj :
  extract_roi_with_margin settings st path bbox margin = Ok (rb, adj) ->
  exists page roi,
    get st path = Ok (Png page) /\ rb = Png roi
    /\ img_width roi = adj_width adj /\ img_height roi = adj_height adj
    /\ 0 <= adj_x adj /\ 0 <= adj_y adj
    /\ 0 < adj_width adj /\ 0 < adj_height adj
    /\ adj_x adj + adj_width adj <= img_width page
    /\ adj_y adj + adj_height adj <= img_height page.
Proof.
  intros Hx. apply extract_roi_steps in Hx
    as (page & roi & Hget & -> & Hb & Hcrop & Hw & Hh & _).
  apply crop_inv in Hcrop as (Hrw & Hrh & _).
  apply roi_bounds_inside in Hb as (? & ? & ? & ?).
  exists page, roi. repeat split; try done; lia.
Qed.

(** X13: the ROI returned by [extract_roi_with_margin] is an exact copy
    of the page region at the adjusted bbox: its pixel [(i, j)] is the
    page pixel [(x + i, y + j)], and no pixel of it lies off the page. *)
Theorem roi_shows_page_region (st : S) path bbox margin rb adj :
  extract_roi_with_margin settings st path bbox margin = Ok (rb, adj) ->
  exists page roi,
    get st path = Ok (Png page) /\ rb = Png roi
    /\ forall i j, inside roi i j = true ->
         inside page (adj_x adj + i) (adj_y adj + j) = true
         /\ getpixel roi i j = getpixel page (adj_x adj + i) (adj_y adj + j).
Proof.
  intros Hx. apply extract_roi_steps in Hx
    as (page & roi & Hget & -> & Hb & Hcrop & Hw & Hh & _).
  apply crop_inv in Hcrop as (Hrw & Hrh & Hpix).
  apply roi_bounds_inside in Hb as (? & ? & ? & ?).
  exists page, roi. split; [done|]. split; [done|].
  intros i j Hin. rewrite Hpix.
  assert (inside page (adj_x adj + i) (adj_y adj + j) = true) as ->; [|done].
  unfold inside in *.
  repeat (apply andb_true_iff in Hin as [Hin ?]).
  repeat (apply andb_true_iff; split); lia.
Qed.

(** X14: the adjusted bbox returned by [extract_roi_with_margin] is
    never more than one pixel wider than [max_roi_width], nor more than
    one pixel higher than [max_roi_height]. *)
Theorem roi_at_most_one_over_cap (st : S) path bbox margin rb adj :
  extract_roi_with_margin settings st path bbox margin = Ok (rb, adj) ->
  adj_width adj <= max_roi_width settings + 1
  /\ adj_height adj <= max_roi_height settings + 1.
Proof.
  intros Hx. apply extract_roi_steps in Hx
    as (page & roi & Hget & -> & Hb & _).
  pose proof (roi_bounds_width _ _ _ _ _ _ _ _ Hb) as Hw.
  pose proof (roi_bounds_height _ _ _ _ _ _ _ _ Hb) as Hh.
  cbn zeta in Hw, Hh.
  destruct (max_roi_width settings <? _) eqn:Hcw;
    destruct (max_roi_height settings <? _) eqn:Hch.
  all: repeat match goal with
              | _ : context [?e mod 2] |- _ =>
                  lazymatch goal with
                  | _ : 0 <= e mod 2 < 2 |- _ => fail
                  | _ => pose proof (Z.mod_pos_bound e 2 ltac:(lia))
                  end
              end; lia.
Qed.

(** X15: for a bbox that lies on the page, a margin that is not
    negative, and a bbox that, grown by the margin on both sides, stays
    within the size caps, the ROI contains the whole bbox: the offsets of
    the bbox in the ROI lie between 0 and the margin, and the bbox ends
    inside the ROI. *)
Theorem roi_contains_bbox (st : S) path bbox margin rb adj page :
  extract_roi_with_margin settings st path bbox margin = Ok (rb, adj) ->
  get st path = Ok (Png page) ->
  let m := default (roi_margin settings) margin in
  0 <= m ->
  0 <= box_x bbox -> box_x bbox + box_width bbox <= img_width page ->
  0 <= box_y bbox -> box_y bbox + box_height bbox <= img_height page ->
  box_width bbox + 2 * m <= max_roi_width settings ->
  box_height bbox + 2 * m <= max_roi_height settings ->
  0 <= offset_x adj <= m /\ 0 <= offset_y adj <= m
  /\ offset_x adj + box_width bbox <= adj_width adj
  /\ offset_y adj + box_height bbox <= adj_height adj.
Proof.
  intros Hx Hpage m Hm Hx0 Hx1 Hy0 Hy1 Hcw Hch.
  apply extract_roi_steps in Hx
    as (page' & roi & Hget & -> & Hb & _ & _ & _ & Hox & Hoy).
  rewrite Hpage in Hget. injection Hget as <-.
  fold m in Hb. unfold roi_bounds in Hb. cbn zeta in Hb.
  destruct (max_roi_width settings <? _) eqn:Hw; [lia|].
  destruct (max_roi_height settings <? _) eqn:Hh; [lia|].
  injection Hb as Hb1 Hb2 Hb3 Hb4. lia.
Qed.

End AnyStore.
End RoiProps.

(** * Locality and round trip of corrections *)

Module RoundTripProps.
Import PyStr Exn Raster Storage Config Model Pdf Gemini Correction Api.
Import Scenarios Notions CorrectionProps EditorProps.

Section AnyStore.
Context `{PyRuntime} {S : Type} `{RasterStore S} (settings : Settings).
Variable overlay : blob -> BBox -> list Z -> list Z -> result blob.
Variable oracle : nat -> model_call.

(** X16: [apply_correction] calls the external model at most
    [max_retries] times, whether it succeeds or raises; with any method
    other than ["nano_banana"] it calls the model not at all and leaves
    the editor untouched. *)
Theorem model_called_only_for_nano_banana
    path bbox text orig method pid iid (w : world S) :
  let w1 := (apply_correction settings overlay oracle path bbox text orig
               method pid iid w).2 in
  (w_calls w <= w_calls w1
   <= w_calls w + Z.to_nat (max_retries (w_editor w)))%nat
  /\ (String.eqb method "nano_banana" = false ->
      w_calls w1 = w_calls w /\ w_editor w1 = w_editor w).
Proof.
  cbn zeta. unfold apply_correction, bind, lift, storage_save, ret.
  destruct (extract_roi_with_margin _ _ _ _ _) as [[rb adj]|e]; cbn;
    [|split; [lia|done]].
  destruct (save_bytes (w_store w) rb _) as [[[]|e] st1]; cbn;
    [|split; [lia|done]].
  destruct (String.eqb method "nano_banana").
  - unfold apply_nano_banana, edit_roi_patch. cbn.
    pose proof (attempt_loop_calls oracle
                  (Z.to_nat (max_retries (w_editor w))) 0
                  (w_editor w) (w_calls w)) as Hcalls.
    destruct (attempt_loop _ _ _ _ _) as [[[[b|] s] ed] calls];
      cbn in Hcalls |- *.
    + destruct (save_bytes st1 b _) as [[[]|e] st2]; cbn;
        [|split; [lia|done]].
      destruct (apply_patch_to_page _ _ _ _ _); cbn; [|split; [lia|done]].
      destruct (save_bytes st2 _ _) as [[[]|e] st3]; cbn; split; lia || done.
    + destruct (overlay _ _ _ _) as [b|e]; cbn; [|split; [lia|done]].
      destruct (save_bytes st1 b _) as [[[]|e] st2]; cbn;
        [|split; [lia|done]].
      destruct (apply_patch_to_page _ _ _ _ _); cbn; [|split; [lia|done]].
      destruct (save_bytes st2 _ _) as [[[]|e] st3]; cbn; split; lia || done.
  - destruct (overlay _ _ _ _) as [b|e]; cbn; [|split; [lia|done]].
    destruct (save_bytes st1 b _) as [[[]|e] st2]; cbn;
      [|split; [lia|done]].
    destruct (apply_patch_to_page _ _ _ _ _); cbn; [|split; [lia|done]].
    destruct (save_bytes st2 _ _) as [[[]|e] st3]; cbn; split; lia || done.
Qed.

End AnyStore.

Section OnMemoryStore.
Context `{PyRuntime} (settings : Settings).
Variable overlay : blob -> BBox -> list Z -> list Z -> result blob.
Variable oracle : nat -> model_call.
#[local] Existing Instance mem_store.

(** what a successful [apply_correction] with the text-overlay method
    read, rendered and stored *)
Lemma apply_overlay_trace path bbox text orig method pid iid
    (w : world (gmap string blob)) bp ap st w1 :
  apply_correction settings overlay oracle path bbox text orig method
    pid iid w = (Ok (bp, ap, st), w1) ->
  String.eqb method "nano_banana" = false ->
  path <> before_path_of pid iid ->
  path <> after_path_of pid iid ->
  exists page roi adj patch,
    w_store w !! path = Some (Png page)
    /\ extract_roi_with_margin settings (w_store w) path bbox
         (Some (roi_margin settings)) = Ok (Png roi, adj)
    /\ overlay (Png roi) (bbox_in_roi adj bbox) text orig = Ok (Png patch)
    /\ bp = before_path_of pid iid /\ ap = after_path_of pid iid
    /\ st = lit "text_overlay_success"
    /\ 0 < img_width page /\ 0 < img_height page
    /\ w_store w1 =
         <[path := Png (paste page patch (adj_x adj) (adj_y adj))]>
           (<[ap := Png patch]> (<[bp := Png roi]> (w_store w))).
Proof.
  intros Ha Hm Hpb Hpa. unfold apply_correction in Ha. rewrite Hm in Ha.
  apply M_bind_inv in Ha as ([rb adj] & wa & Hx & Ha).
  unfold lift in Hx. injection Hx as Hx <-.
  destruct (extract_roi_inv _ _ _ _ _ _ _ Hx)
    as (page & roi & Hpage & -> & _).
  apply M_bind_inv in Ha as ([] & wb & Hs1 & Ha).
  unfold storage_save in Hs1; cbn in Hs1. injection Hs1 as <-.
  apply M_bind_inv in Ha as ([cb status] & wc & Hr & Ha).
  fold (bbox_in_roi adj bbox) in Hr.
  destruct (overlay _ _ _ _) as [b|e] eqn:Ho; cbn in Hr; [|done].
  injection Hr as <- <- <-.
  apply M_bind_inv in Ha as ([] & wd & Hs2 & Ha).
  unfold storage_save in Hs2; cbn in Hs2. injection Hs2 as <-.
  apply M_bind_inv in Ha as (updated & we & Hp & Ha).
  unfold lift in Hp. injection Hp as Hp <-. cbn in Hp.
  apply M_bind_inv in Ha as ([] & wf & Hs3 & Ha).
  unfold storage_save in Hs3; cbn in Hs3. injection Hs3 as <-.
  unfold ret in Ha. injection Ha as <- <- <- <-.
  unfold apply_patch_to_page in Hp.
  apply bind_Ok_inv in Hp as (pb & Hget & Hp).
  apply bind_Ok_inv in Hp as (page' & Hopen & Hp).
  apply bind_Ok_inv in Hp as (patch & Hopen' & Hp).
  apply mem_get_inv in Hget.
  rewrite lookup_insert_ne, lookup_insert_ne in Hget by done.
  rewrite Hpage in Hget. injection Hget as <-.
  cbn in Hopen. injection Hopen as <-.
  apply Image_open_inv in Hopen' as ->.
  apply save_png_inv in Hp as (-> & Hpw & Hph).
  by exists page, roi, adj, patch.
Qed.


(** X18: after a text-overlay correction whose rendered patch is no
    larger than the ROI, [undo_correction] called with the position of
    the ROI (the adjusted bbox) succeeds and leaves a stored page that has
    the size and every pixel of the page before the correction. *)
Theorem undo_at_roi_origin_restores_page
    path bbox text orig method pid iid
    (w : world (gmap string blob)) bp ap st w1 :
  fits_roi overlay ->
  String.eqb method "nano_banana" = false ->
  apply_correction settings overlay oracle path bbox text orig method
    pid iid w = (Ok (bp, ap, st), w1) ->
  path <> before_path_of pid iid ->
  path <> after_path_of pid iid ->
  exists page roi adj w2 final,
    w_store w !! path = Some (Png page)
    /\ extract_roi_with_margin settings (w_store w) path bbox
         (Some (roi_margin settings)) = Ok (Png roi, adj)
    /\ undo_correction path bp (roi_position adj) w1 = (true, w2)
    /\ w_store w2 !! path = Some (Png final)
    /\ same_raster final page.
Proof.
  intros Hfit Hm Ha Hpb Hpa.
  destruct (apply_overlay_trace _ _ _ _ _ _ _ _ _ _ _ _ Ha Hm Hpb Hpa)
    as (page & roi & adj & patch & Hpage & Hx & Ho & -> & -> & _
        & Hpw & Hph & Hst).
  pose proof (before_after_distinct pid iid) as Hba.
  destruct (Hfit _ _ _ _ _ Ho) as (patch' & [= <-] & Hfw & Hfh).
  destruct (extract_roi_inv _ _ _ _ _ _ _ Hx)
    as (page' & roi' & Hpage' & [= <-] & Hb & Hcrop & Hw & Hh).
  rewrite Hpage in Hpage'. injection Hpage' as <-.
  eexists page, roi, adj, _, _. split; [done|]. split; [done|].
  split.
  { eapply undo_correction_ok with (before := roi).
    - rewrite Hst. by rewrite !lookup_insert_ne, lookup_insert_eq by done.
    - rewrite Hst. apply lookup_insert_eq.
    - done.
    - done. }
  cbn. rewrite lookup_insert_eq. split; [done|].
  split; [done|]. split; [done|].
  intros i j Hin. cbn in Hin |- *.
  unfold crop in Hcrop.
  destruct (_ <? adj_x adj); [done|]. destruct (_ <? adj_y adj); [done|].
  injection Hcrop as <-. cbn.
  replace (adj_x adj + (i - adj_x adj)) with i by lia.
  replace (adj_y adj + (j - adj_y adj)) with j by lia.
  change (inside page i j = true) in Hin. rewrite Hin.
  match goal with
  | |- (if ?c then _ else _) = _ => destruct c eqn:Hroi; [done|]
  end.
  destruct (inside patch _ _) eqn:Hpatch; [|done].
  cbn in Hfw, Hfh. unfold inside in Hroi, Hpatch. cbn in Hroi.
  repeat (apply andb_true_iff in Hpatch as [Hpatch ?]).
  repeat (apply andb_false_iff in Hroi as [Hroi|Hroi]); lia.
Qed.

Lemma M_bind_raise_inv {A B} (m : M A) (k : A -> M B)
    (w : world (gmap string blob)) e w' :
  bind m k w = (Raise e, w') ->
  m w = (Raise e, w')
  \/ exists a w1, m w = (Ok a, w1) /\ k a w1 = (Raise e, w').
Proof.
  unfold bind. destruct (m w) as [[a|e0] w1].
  - intros Hk. right. by exists a, w1.
  - intros [= <- <-]. by left.
Qed.

(** X19: when [apply_correction] raises, every object of the store
    other than the two patch files is as it was; in particular the page
    image is untouched. *)
Theorem failed_apply_keeps_page path bbox text orig method pid iid
    (w : world (gmap string blob)) e w1 :
  apply_correction settings overlay oracle path bbox text orig method
    pid iid w = (Raise e, w1) ->
  forall p, p <> before_path_of pid iid -> p <> after_path_of pid iid ->
            w_store w1 !! p = w_store w !! p.
Proof.
  intros Ha p Hpb Hpa. unfold apply_correction in Ha.
  apply M_bind_raise_inv in Ha as [Hx|([rb adj] & wa & Hx & Ha)].
  { unfold lift in Hx. by injection Hx as _ <-. }
  unfold lift in Hx. injection Hx as Hx <-.
  apply M_bind_raise_inv in Ha as [Hs1|([] & wb & Hs1 & Ha)].
  { unfold storage_save in Hs1; cbn in Hs1. done. }
  unfold storage_save in Hs1; cbn in Hs1. injection Hs1 as <-.
  assert (forall r wc,
            (if String.eqb method "nano_banana"
             then fun w =>
               match apply_nano_banana oracle rb orig text w with
               | ((Some corrected_bytes, status), w') =>
                   (Ok (corrected_bytes, status), w')
               | ((None, _), w') =>
                   ((fun b => (b, lit "fallback_to_text_overlay")) <$>
                      overlay rb
                        {| box_x := offset_x adj;
                           box_y := offset_y adj;
                           box_width := box_width bbox;
                           box_height := box_height bbox |} text orig, w')
               end
             else fun w =>
               ((fun b => (b, lit "text_overlay_success")) <$>
                  overlay rb
                    {| box_x := offset_x adj;
                       box_y := offset_y adj;
                       box_width := box_width bbox;
                       box_height := box_height bbox |} text orig, w))
              (with_store w (<[before_path_of pid iid := rb]> (w_store w)))
            = (r, wc) ->
            w_store wc !! p = w_store w !! p) as Hrender.
  { intros r wc Hr. destruct (String.eqb method "nano_banana").
    - unfold apply_nano_banana in Hr.
      destruct (edit_roi_patch _ _ _ _ _ _) as [[[[b|] s] ed] calls];
        cbn in Hr; injection Hr as _ <-; cbn; by rewrite lookup_insert_ne.
    - injection Hr as _ <-. cbn. by rewrite lookup_insert_ne. }
  apply M_bind_raise_inv in Ha as [Hr|([cb status] & wc & Hr & Ha)].
  { by apply Hrender in Hr. }
  apply Hrender in Hr.
  apply M_bind_raise_inv in Ha as [Hs2|([] & wd & Hs2 & Ha)].
  { unfold storage_save in Hs2; cbn in Hs2. done. }
  unfold storage_save in Hs2; cbn in Hs2. injection Hs2 as <-.
  apply M_bind_raise_inv in Ha as [Hp|(updated & we & Hp & Ha)].
  { unfold lift in Hp. injection Hp as _ <-. cbn.
    by rewrite lookup_insert_ne. }
  apply M_bind_raise_inv in Ha as [Hs3|([] & wf & Hs3 & Ha)]; [done|done].
Qed.

End OnMemoryStore.
End RoundTripProps.

(** * Further properties of the endpoints *)

Module EndpointInvariants.
Import PyStr Exn Raster Storage Config Model Pdf Gemini Correction Api.
Import Scenarios CorrectionProps EndpointProps.

Section AnyStore.
Context `{PyRuntime} {S : Type} `{RasterStore S} (settings : Settings).
Variable overlay : blob -> BBox -> list Z -> list Z -> result blob.
Variable oracle : nat -> model_call.

(** X20: when [POST /api/corrections] answers with an [HTTPException],
    no record was written: the issues, pages and corrections are as they
    were; the status code is 404, 400 or 500, and with 404 or 400 the
    raster store and the editor are untouched as well. *)
Theorem rejected_correction_keeps_records
    request new_id now db (w : world S) code detail db1 w1 :
  create_correction settings overlay oracle request new_id now db w
    = (HTTPException code detail, db1, w1) ->
  db1 = db
  /\ (code = 404 \/ code = 400 \/ code = 500)
  /\ (code <> 500 -> w1 = w).
Proof.
  unfold create_correction. intros Hc.
  destruct (issues db !! req_issue_id request) as [issue|].
  2: { injection Hc as <- _ <- <-. split; [done|]. split; [by left|done]. }
  destruct (pages db !! row_page_id issue) as [page|].
  2: { injection Hc as <- _ <- <-.
       split; [done|]. split; [by right; right|done]. }
  match type of Hc with
  | context [match ?ch with Ok _ => _ | Raise _ => _ end] =>
      destruct ch as [[text|]|]
  end.
  2,3: injection Hc as <- _ <- <-;
       (split; [done|]); (split; [by right; left|done]).
  destruct (negb _).
  { injection Hc as <- _ <- <-.
    split; [done|]. split; [by right; left|done]. }
  destruct (apply_correction _ _ _ _ _ _ _ _ _ _ _)
    as [[[[bp ap] st]|e] w']; [done|].
  injection Hc as <- _ <- <-.
  split; [done|]. split; [by right; right|done].
Qed.

(** X21: a successful undo marks the correction as not applied and sets
    its issue to [reviewing]; a second undo of the same correction is then
    rejected with status 400 and changes neither the records nor the
    store. *)
Theorem second_undo_rejected cid db (w : world S) body db1 w1 :
  undo_correction_endpoint cid db w = (Response body, db1, w1) ->
  (exists c, corrections db !! cid = Some c
             /\ applied c = true
             /\ applied <$> corrections db1 !! cid = Some false
             /\ row_status <$> issues db1 !! issue_id c = Some reviewing)
  /\ forall w',
       undo_correction_endpoint cid db1 w'
       = (HTTPException 400 (lit "Correction is not currently applied"),
          db1, w').
Proof.
  unfold undo_correction_endpoint at 1. intros Hu.
  destruct (corrections db !! cid) as [c|] eqn:Hc; [|done].
  destruct (applied c) eqn:Ha; [|done]. cbn [negb] in Hu.
  destruct (issues db !! issue_id c) as [issue|]; [|done].
  destruct (pages db !! row_page_id issue) as [page|]; [|done].
  destruct (undo_correction _ _ _ _) as [[] w2]; [|done].
  cbn [negb] in Hu. injection Hu as <- <- <-. split.
  - exists c. cbn. by rewrite !lookup_insert_eq.
  - intros w'. unfold undo_correction_endpoint. cbn.
    by rewrite lookup_insert_eq.
Qed.

End AnyStore.

Section OnMemoryStore.
Context `{PyRuntime} (settings : Settings).
Variable overlay : blob -> BBox -> list Z -> list Z -> result blob.
Variable oracle : nat -> model_call.
#[local] Existing Instance mem_store.

(** X22: on a store that keeps what was saved, when the page image is
    stored under a path other than the two patch paths, a correction that
    [POST /api/corrections] has just created can be undone: the undo
    endpoint answers with success, the issue is back to [reviewing] and
    the correction is no longer applied. *)
Theorem created_correction_can_be_undone
    request new_id now db (w : world (gmap string blob)) body db1 w1 :
  create_correction settings overlay oracle request new_id now db w
    = (Response body, db1, w1) ->
  (forall issue page,
     issues db !! req_issue_id request = Some issue ->
     pages db !! row_page_id issue = Some page ->
     image_path page
       <> before_path_of (project_id page) (req_issue_id request)
     /\ image_path page
       <> after_path_of (project_id page) (req_issue_id request)) ->
  exists db2 w2,
    undo_correction_endpoint new_id db1 w1
    = (Response {| undo_id := new_id; undone := true;
                   issue_status := reviewing |}, db2, w2)
    /\ row_status <$> issues db2 !! req_issue_id request = Some reviewing
    /\ applied <$> corrections db2 !! new_id = Some false.
Proof.
  intros Hc Hpaths.
  apply create_correction_inv in Hc
    as (issue & page & text & bp & ap & st & c
        & Hi & Hp & Ha & Hci & Hcb & Hca & ->).
  destruct (Hpaths issue page Hi Hp) as [Hpb Hpa].
  destruct (apply_then_undo settings overlay oracle
              _ _ _ _ _ _ _ _ _ _ _ _ Ha Hpb Hpa)
    as (pg & roi & adj & final & w2 & _ & _ & Hu & _).
  eexists _, w2. split.
  { eapply undo_endpoint_ok.
    - apply lookup_insert_eq.
    - done.
    - cbn. rewrite Hci. apply lookup_insert_eq.
    - cbn. exact Hp.
    - cbn. rewrite Hcb. exact Hu. }
  cbn. rewrite Hci. by rewrite !lookup_insert_eq.
Qed.

End OnMemoryStore.
End EndpointInvariants.

(** * Further properties of the image editor *)

Module EditorInvariants.
Import PyStr PyFloat Exn Raster Gemini Scenarios Notions EditorProps.

Section AnyModel.
Context `{PyRuntime}.
Variable oracle : nat -> model_call.

Ltac other_status :=
  let Heq := fresh in
  intros Heq; apply (f_equal head) in Heq; cbn in Heq; discriminate.

(** the loop hands back an image exactly with the status "success", and
    the image is the first one of the response to its last call *)
Lemma attempt_loop_image remaining attempt ed calls :
  let r := attempt_loop oracle remaining attempt ed calls in
  (is_Some r.1.1.1 <-> r.1.1.2 = lit "success")
  /\ forall b, r.1.1.1 = Some b ->
       exists n parts,
         (calls <= n)%nat /\ r.2 = S n
         /\ oracle n = Responds parts /\ first_image parts = Some b.
Proof.
  revert attempt ed calls.
  induction remaining as [|k IH]; intros attempt ed calls; cbn zeta.
  { cbn. split; [|done]. split; [by intros [? ?]|other_status]. }
  cbn [attempt_loop].
  destruct (oracle calls) as [parts|e] eqn:Hcall.
  - destruct (first_image parts) as [b|] eqn:Himg; cbn.
    + split; [done|]. intros b' [= <-]. by exists calls, parts.
    + split; [|done]. split; [by intros [? ?]|other_status].
  - destruct (is_signature_error e).
    { specialize (IH (attempt + 1)
                    {| thought_signature := None;
                       retry_count := retry_count ed + 1;
                       max_retries := max_retries ed |} (S calls)).
      cbn zeta in IH. destruct IH as [Hiff Himg]. split; [done|].
      intros b Hb. destruct (Himg b Hb) as (n & parts & Hn & ?).
      exists n, parts. split; [lia|done]. }
    destruct (is_rate_limit_error e).
    { cbn. split; [|done]. split; [by intros [? ?]|other_status]. }
    destruct (attempt =? _).
    { cbn. split; [|done]. split; [by intros [? ?]|other_status]. }
    specialize (IH (attempt + 1) ed (S calls)).
    cbn zeta in IH. destruct IH as [Hiff Himg]. split; [done|].
    intros b Hb. destruct (Himg b Hb) as (n & parts & Hn & ?).
    exists n, parts. split; [lia|done].
Qed.

(** X23: [edit_roi_patch] returns an image exactly when its status is
    ["success"], and the image is then the first inline image of the
    response to the last call it made, one of at most [max_retries]
    calls. *)
Theorem image_returned_iff_success ed calls roi orig corr :
  let r := edit_roi_patch oracle ed calls roi orig corr in
  (is_Some r.1.1.1 <-> r.1.1.2 = lit "success")
  /\ forall b, r.1.1.1 = Some b ->
       exists n parts,
         (calls <= n < calls + Z.to_nat (max_retries ed))%nat
         /\ r.2 = S n
         /\ oracle n = Responds parts /\ first_image parts = Some b.
Proof.
  cbn zeta. unfold edit_roi_patch.
  destruct (attempt_loop_image (Z.to_nat (max_retries ed)) 0 ed calls)
    as [Hiff Himg]. split; [done|].
  intros b Hb. destruct (Himg b Hb) as (n & parts & Hn & Hlast & Hrest).
  exists n, parts. split; [|done].
  pose proof (attempt_loop_calls oracle (Z.to_nat (max_retries ed)) 0
                ed calls) as Hcalls.
  rewrite Hlast in Hcalls. lia.
Qed.

Lemma attempt_loop_signature_errors remaining attempt ed calls :
  (forall n, (calls <= n < calls + remaining)%nat ->
     exists e, oracle n = Throws e /\ is_signature_error e = true) ->
  attempt_loop oracle remaining attempt ed calls
  = ((None, lit "Max retries exceeded"),
     after_signature_errors ed remaining, (calls + remaining)%nat).
Proof.
  revert attempt ed calls.
  induction remaining as [|k IH]; intros attempt ed calls Hall.
  { cbn. by rewrite Nat.add_0_r. }
  cbn [attempt_loop].
  destruct (Hall calls ltac:(lia)) as (e & -> & ->).
  rewrite IH by (intros n Hn; apply Hall; lia).
  f_equal; [|lia]. f_equal.
  unfold after_signature_errors. destruct k; cbn.
  - f_equal.
  - f_equal. lia.
Qed.

(** X24: when every attempt fails with a thought-signature error,
    [edit_roi_patch] uses all [max_retries] attempts, returns no image
    with the status ["Max retries exceeded"], and leaves the editor with
    its signature cleared and [retry_count] raised by the number of
    attempts. *)
Theorem persistent_signature_errors ed calls roi orig corr :
  (forall n, (calls <= n < calls + Z.to_nat (max_retries ed))%nat ->
     exists e, oracle n = Throws e /\ is_signature_error e = true) ->
  edit_roi_patch oracle ed calls roi orig corr
  = ((None, lit "Max retries exceeded"),
     after_signature_errors ed (Z.to_nat (max_retries ed)),
     (calls + Z.to_nat (max_retries ed))%nat).
Proof. apply attempt_loop_signature_errors. Qed.

Lemma attempt_loop_other_errors remaining attempt ed calls e_last :
  attempt + Z.of_nat (S remaining) = max_retries ed ->
  (forall n, (calls <= n < calls + S remaining)%nat ->
     exists e, oracle n = Throws e /\ is_signature_error e = false
               /\ is_rate_limit_error e = false) ->
  oracle (calls + remaining)%nat = Throws e_last ->
  attempt_loop oracle (S remaining) attempt ed calls
  = ((None, lit "Gemini error after " ++ decimal (max_retries ed)
            ++ lit " attempts: " ++ e_last),
     ed, (calls + S remaining)%nat).
Proof.
  revert attempt calls.
  induction remaining as [|k IH]; intros attempt calls Hatt Hall Hlast.
  - cbn [attempt_loop].
    destruct (Hall calls ltac:(lia)) as (e & He & Hs & Hr).
    rewrite He, Hs, Hr. rewrite Nat.add_0_r, He in Hlast.
    injection Hlast as <-.
    rewrite (proj2 (Z.eqb_eq _ _)) by lia.
    repeat f_equal. lia.
  - remember (S k) as r eqn:Hk. cbn [attempt_loop].
    destruct (Hall calls ltac:(lia)) as (e & He & Hs & Hr).
    rewrite He, Hs, Hr.
    rewrite (proj2 (Z.eqb_neq _ _)) by lia.
    subst r. rewrite (IH (attempt + 1) (S calls)).
    + f_equal. lia.
    + lia.
    + intros n Hn. apply Hall. lia.
    + rewrite <- Hlast. f_equal. lia.
Qed.

(** X25: when every attempt fails with an error that is neither of the
    signature type nor a rate limit, [edit_roi_patch] uses all
    [max_retries] attempts, leaves the editor as it was, and reports the
    message of the last error after ["Gemini error after N attempts: "]. *)
Theorem persistent_other_errors ed calls roi orig corr e_last :
  1 <= max_retries ed ->
  (forall n, (calls <= n < calls + Z.to_nat (max_retries ed))%nat ->
     exists e, oracle n = Throws e /\ is_signature_error e = false
               /\ is_rate_limit_error e = false) ->
  oracle (calls + Z.to_nat (max_retries ed) - 1)%nat = Throws e_last ->
  edit_roi_patch oracle ed calls roi orig corr
  = ((None, lit "Gemini error after " ++ decimal (max_retries ed)
            ++ lit " attempts: " ++ e_last),
     ed, (calls + Z.to_nat (max_retries ed))%nat).
Proof.
  intros Hmax Hall Hlast. unfold edit_roi_patch.
  destruct (Z.to_nat (max_retries ed)) as [|k] eqn:Hk; [lia|].
  apply attempt_loop_other_errors; [lia|done|].
  rewrite <- Hlast. f_equal. lia.
Qed.

End AnyModel.
End EditorInvariants.

(** * Properties of the OCR helpers *)

Module OcrProps.
Import PyStr Exn Model Detection Ocr Notions CorrectionProps.
Import DetectionInvariants.

Lemma foldl_min_spec (xs : list Z) (x : Z) :
  (foldl Z.min x xs = x \/ foldl Z.min x xs ∈ xs)
  /\ foldl Z.min x xs <= x
  /\ forall y, y ∈ xs -> foldl Z.min x xs <= y.
Proof.
  revert x. induction xs as [|a xs IH]; intros x; cbn.
  { split; [by left|]. split; [lia|]. intros y Hy. by apply elem_of_nil in Hy. }
  destruct (IH (Z.min x a)) as (Hin & Hle & Hall).
  split; [|split].
  - destruct Hin as [->|Hin].
    + destruct (Z.min_spec x a) as [[_ ->]|[_ ->]];
        [by left|right; apply list_elem_of_here].
    + right. by apply list_elem_of_further.
  - lia.
  - intros y Hy. apply elem_of_cons in Hy as [->|Hy]; [lia|auto].
Qed.

Lemma foldl_max_spec (xs : list Z) (x : Z) :
  (foldl Z.max x xs = x \/ foldl Z.max x xs ∈ xs)
  /\ x <= foldl Z.max x xs
  /\ forall y, y ∈ xs -> y <= foldl Z.max x xs.
Proof.
  revert x. induction xs as [|a xs IH]; intros x; cbn.
  { split; [by left|]. split; [lia|]. intros y Hy. by apply elem_of_nil in Hy. }
  destruct (IH (Z.max x a)) as (Hin & Hle & Hall).
  split; [|split].
  - destruct Hin as [->|Hin].
    + destruct (Z.max_spec x a) as [[_ ->]|[_ ->]];
        [right; apply list_elem_of_here|by left].
    + right. by apply list_elem_of_further.
  - lia.
  - intros y Hy. apply elem_of_cons in Hy as [->|Hy]; [lia|auto].
Qed.

Lemma py_min_of_spec xs m :
  py_min_of xs = Ok m -> m ∈ xs /\ forall y, y ∈ xs -> m <= y.
Proof.
  destruct xs as [|x xs]; [done|]. intros [= <-].
  destruct (foldl_min_spec xs x) as (Hin & Hle & Hall). split.
  - destruct Hin as [->|Hin];
      [apply list_elem_of_here|by apply list_elem_of_further].
  - intros y Hy. apply elem_of_cons in Hy as [->|Hy]; [lia|auto].
Qed.

Lemma py_max_of_spec xs m :
  py_max_of xs = Ok m -> m ∈ xs /\ forall y, y ∈ xs -> y <= m.
Proof.
  destruct xs as [|x xs]; [done|]. intros [= <-].
  destruct (foldl_max_spec xs x) as (Hin & Hle & Hall). split.
  - destruct Hin as [->|Hin];
      [apply list_elem_of_here|by apply list_elem_of_further].
  - intros y Hy. apply elem_of_cons in Hy as [->|Hy]; [lia|auto].
Qed.

(** X26: for a polygon with at least one vertex, [_vertices_to_bbox]
    returns the smallest box that holds every vertex: its width and
    height are not negative, every vertex lies in it, and each of its
    four sides passes through a vertex. *)
Theorem vertices_to_bbox_encloses (vertices : list (Z * Z)) :
  vertices <> [] ->
  exists bbox,
    _vertices_to_bbox vertices = Ok bbox
    /\ 0 <= box_width bbox /\ 0 <= box_height bbox
    /\ (forall x y, (x, y) ∈ vertices ->
          box_x bbox <= x <= box_x bbox + box_width bbox
          /\ box_y bbox <= y <= box_y bbox + box_height bbox)
    /\ (exists v, v ∈ vertices /\ v.1 = box_x bbox)
    /\ (exists v, v ∈ vertices /\ v.1 = box_x bbox + box_width bbox)
    /\ (exists v, v ∈ vertices /\ v.2 = box_y bbox)
    /\ (exists v, v ∈ vertices /\ v.2 = box_y bbox + box_height bbox).
Proof.
  intros Hne. unfold _vertices_to_bbox.
  destruct vertices as [|[x0 y0] vs]; [done|]. cbn [fmap list_fmap fst snd].
  set (xs := fst <$> vs). set (ys := snd <$> vs).
  destruct (py_min_of_spec (x0 :: xs) _ eq_refl) as [Hxi Hxmin].
  destruct (py_max_of_spec (x0 :: xs) _ eq_refl) as [Hxa Hxmax].
  destruct (py_min_of_spec (y0 :: ys) _ eq_refl) as [Hyi Hymin].
  destruct (py_max_of_spec (y0 :: ys) _ eq_refl) as [Hya Hymax].
  eexists. split; [reflexivity|]. cbn [box_x box_y box_width box_height].
  change (x0 :: xs) with (fst <$> (x0, y0) :: vs) in *.
  change (y0 :: ys) with (snd <$> (x0, y0) :: vs) in *.
  split; [specialize (Hxmax _ Hxi); lia|].
  split; [specialize (Hymax _ Hyi); lia|].
  split.
  { intros x y Hin.
    assert (x ∈ fst <$> (x0, y0) :: vs) as Hx
      by (apply list_elem_of_fmap; by exists (x, y)).
    assert (y ∈ snd <$> (x0, y0) :: vs) as Hy
      by (apply list_elem_of_fmap; by exists (x, y)).
    specialize (Hxmin _ Hx). specialize (Hxmax _ Hx).
    specialize (Hymin _ Hy). specialize (Hymax _ Hy). lia. }
  apply list_elem_of_fmap in Hxi as (v1 & Hv1 & ?).
  apply list_elem_of_fmap in Hxa as (v2 & Hv2 & ?).
  apply list_elem_of_fmap in Hyi as (v3 & Hv3 & ?).
  apply list_elem_of_fmap in Hya as (v4 & Hv4 & ?).
  split; [by exists v1|]. split; [exists v2; split; [done|lia]|].
  split; [by exists v3|]. exists v4; split; [done|lia].
Qed.

Lemma insert_by_perm {A} (key : A -> Z) a (l : list A) :
  insert_by key a l ≡ₚ a :: l.
Proof.
  induction l as [|b l IH]; cbn; [done|].
  destruct (_ <=? _); [done|]. rewrite IH. apply Permutation_swap.
Qed.

Lemma sorted_by_perm {A} (key : A -> Z) (l : list A) :
  sorted_by key l ≡ₚ l.
Proof.
  unfold sorted_by. induction l as [|a l IH]; cbn; [done|].
  by rewrite insert_by_perm, IH.
Qed.

Lemma slice_from_subseteq {A} (n : Z) (l : list A) : slice_from n l ⊆ l.
Proof. unfold slice_from. destruct (n <? 0); apply subseteq_drop. Qed.

(** X27: the context that [get_context_around_bbox] builds before the
    target is made only of blocks of the OCR result that end above the
    target, the context after it only of blocks that start below its end;
    no block is used on both sides, and a block that overlaps the target
    vertically is used on neither. *)
Theorem context_blocks_sound blocks target_bbox max_lines :
  let r := context_blocks blocks target_bbox max_lines in
  (forall b, b ∈ r.1 -> b ∈ blocks /\ above target_bbox b)
  /\ (forall b, b ∈ r.2 -> b ∈ blocks /\ below target_bbox b)
  /\ (forall b, b ∈ r.1 -> b ∈ r.2 -> False).
Proof.
  cbn zeta. unfold context_blocks. cbn [fst snd].
  assert (forall b,
            b ∈ slice_from (- max_lines)
                  (filter (above target_bbox) (sorted_by block_y blocks)) ->
            b ∈ blocks /\ above target_bbox b) as Hbefore.
  { intros b Hb. apply slice_from_subseteq in Hb.
    apply list_elem_of_filter in Hb as [Hb Hin].
    by rewrite sorted_by_perm in Hin. }
  assert (forall b,
            b ∈ slice_to max_lines
                  (filter (below target_bbox) (sorted_by block_y blocks)) ->
            b ∈ blocks /\ below target_bbox b) as Hafter.
  { intros b Hb. apply slice_to_subseteq in Hb.
    apply list_elem_of_filter in Hb as [Hb Hin].
    by rewrite sorted_by_perm in Hin. }
  split; [done|]. split; [done|].
  intros b Hb Ha. apply Hbefore in Hb as [_ Hb].
  apply Hafter in Ha as [_ [Ha _]]. done.
Qed.

Lemma filter_sorted_length (P : OCRBlock -> Prop) `{!forall b, Decision (P b)}
    (blocks : list OCRBlock) :
  length (filter P (sorted_by block_y blocks)) = length (filter P blocks).
Proof. by rewrite sorted_by_perm. Qed.

(** X28: for [max_lines >= 0], the context after the target holds
    [min(max_lines, number of blocks below)] texts; the context before it
    holds [min(max_lines, number of blocks above)] texts when
    [max_lines > 0], but every block above when [max_lines = 0], since
    [before_texts[-0:]] is the whole list. *)
Theorem context_line_counts blocks target_bbox max_lines :
  0 <= max_lines ->
  let r := context_blocks blocks target_bbox max_lines in
  Z.of_nat (length r.2)
    = Z.min max_lines (Z.of_nat (length (filter (below target_bbox) blocks)))
  /\ Z.of_nat (length r.1)
      = if max_lines =? 0
        then Z.of_nat (length (filter (above target_bbox) blocks))
        else Z.min max_lines
               (Z.of_nat (length (filter (above target_bbox) blocks))).
Proof.
  intros Hmax. cbn zeta. unfold context_blocks. cbn [fst snd].
  rewrite <- !(filter_sorted_length _ blocks). split.
  - unfold slice_to. destruct (_ <? 0) eqn:Hneg; [lia|].
    rewrite length_take. lia.
  - unfold slice_from. destruct (max_lines =? 0) eqn:Hz.
    + apply Z.eqb_eq in Hz as ->. cbn. by rewrite drop_0.
    + destruct (_ <? 0) eqn:Hneg; [|lia]. rewrite length_drop. lia.
Qed.

Lemma insert_by_Forall {A} (P : A -> Prop) (key : A -> Z) a (l : list A) :
  P a -> Forall P l -> Forall P (insert_by key a l).
Proof.
  intros Ha Hl. induction Hl as [|b l Hb Hl IH]; cbn.
  - by constructor.
  - destruct (_ <=? _); repeat constructor; done.
Qed.

Lemma insert_by_ascending {A} (key : A -> Z) a (l : list A) :
  ascending key l -> ascending key (insert_by key a l).
Proof.
  induction l as [|b l IH]; cbn; [done|]. intros [Hb Hl].
  destruct (key a <=? key b) eqn:Hab.
  - cbn. split; [|done]. constructor; [lia|].
    eapply Forall_impl; [exact Hb|]. cbn. intros c Hc. lia.
  - cbn. split; [|by apply IH].
    apply insert_by_Forall; [lia|done].
Qed.

Lemma sorted_by_ascending {A} (key : A -> Z) (l : list A) :
  ascending key (sorted_by key l).
Proof.
  unfold sorted_by. induction l as [|a l IH]; cbn; [done|].
  by apply insert_by_ascending.
Qed.

Lemma ascending_app {A} (key : A -> Z) (l1 l2 : list A) :
  ascending key (l1 ++ l2) <->
  ascending key l1 /\ ascending key l2
  /\ forall a b, a ∈ l1 -> b ∈ l2 -> key a <= key b.
Proof.
  induction l1 as [|c l1 IH]; cbn.
  { split; [intros ?; repeat split; try done|by intros (_ & ? & _)].
    intros a b Ha. by apply elem_of_nil in Ha. }
  rewrite IH, Forall_app, !Forall_forall. split.
  - intros ([H1 H2] & H3 & H4 & H5). repeat split; try done.
    intros a b Ha Hb. apply elem_of_cons in Ha as [->|Ha]; auto.
  - intros ([H1 H2] & H3 & H4). repeat split; try done.
    + intros b Hb. apply H4; [apply list_elem_of_here|done].
    + intros a b Ha Hb. apply H4; [by apply list_elem_of_further|done].
Qed.

Lemma filter_ascending {A} (key : A -> Z) (P : A -> Prop)
    `{!forall a, Decision (P a)} (l : list A) :
  ascending key l -> ascending key (filter P l).
Proof.
  induction l as [|a l IH]; [done|]. intros [Ha Hl].
  rewrite filter_cons. destruct (decide (P a)); [|by apply IH].
  cbn. split; [|by apply IH].
  apply Forall_forall. intros b Hb. apply list_elem_of_filter in Hb as [_ Hb].
  by apply (proj1 (Forall_forall _ _) Ha).
Qed.

(** X29: both contexts of [get_context_around_bbox] list their blocks
    from top to bottom, and they keep the blocks nearest to the target:
    a block above the target that is left out starts no lower than any
    block kept before the target, and a block below that is left out
    starts no higher than any block kept after it. *)
Theorem context_in_reading_order blocks target_bbox max_lines :
  let r := context_blocks blocks target_bbox max_lines in
  ascending block_y r.1 /\ ascending block_y r.2
  /\ (forall b b', b ∈ r.1 -> b' ∈ blocks -> above target_bbox b' ->
        b' ∈ r.1 \/ block_y b' <= block_y b)
  /\ (forall b b', b ∈ r.2 -> b' ∈ blocks -> below target_bbox b' ->
        b' ∈ r.2 \/ block_y b <= block_y b').
Proof.
  cbn zeta. unfold context_blocks. cbn [fst snd].
  set (before := filter (above target_bbox) (sorted_by block_y blocks)).
  set (after := filter (below target_bbox) (sorted_by block_y blocks)).
  assert (ascending block_y before) as Hb
    by apply filter_ascending, sorted_by_ascending.
  assert (ascending block_y after) as Ha
    by apply filter_ascending, sorted_by_ascending.
  assert (forall n, ascending block_y (drop n before)
            /\ forall b b', b ∈ drop n before -> b' ∈ before ->
                  b' ∈ drop n before \/ block_y b' <= block_y b) as Hdrop.
  { intros n. rewrite <- (take_drop n before) in Hb.
    apply ascending_app in Hb as (_ & Hd & Hle). split; [done|].
    intros b b' Hin Hin'. rewrite <- (take_drop n before) in Hin'.
    apply elem_of_app in Hin' as [Hin'|Hin']; [right|by left]. by apply Hle. }
  assert (forall n, ascending block_y (take n after)
            /\ forall b b', b ∈ take n after -> b' ∈ after ->
                  b' ∈ take n after \/ block_y b <= block_y b') as Htake.
  { intros n. rewrite <- (take_drop n after) in Ha.
    apply ascending_app in Ha as (Ht & _ & Hle). split; [done|].
    intros b b' Hin Hin'. rewrite <- (take_drop n after) in Hin'.
    apply elem_of_app in Hin' as [Hin'|Hin']; [by left|right]. by apply Hle. }
  assert (forall b', b' ∈ blocks -> above target_bbox b' -> b' ∈ before)
    as Hmb.
  { intros b' Hin Hab. apply list_elem_of_filter. split; [done|].
    by rewrite sorted_by_perm. }
  assert (forall b', b' ∈ blocks -> below target_bbox b' -> b' ∈ after)
    as Hma.
  { intros b' Hin Hbe. apply list_elem_of_filter. split; [done|].
    by rewrite sorted_by_perm. }
  unfold slice_from, slice_to.
  split; [destruct (_ <? 0); apply Hdrop|].
  split; [destruct (_ <? 0); apply Htake|].
  split.
  - intros b b' Hin Hin' Hab. apply Hmb in Hin'; [|done].
    destruct (_ <? 0); by eapply Hdrop.
  - intros b b' Hin Hin' Hbe. apply Hma in Hin'; [|done].
    destruct (_ <? 0); by eapply Htake.
Qed.

End OcrProps.

(** * Properties of the colour sampling *)

Module SamplingProps.
Import PyStr Exn Raster Sampling Notions CorrectionProps.

Lemma py_range_bounds stop step k :
  0 < step -> k ∈ py_range stop step -> 0 <= k < stop.
Proof.
  intros Hstep Hk. unfold py_range in Hk.
  apply list_elem_of_fmap in Hk as (i & -> & Hi).
  apply elem_of_seqZ in Hi.
  pose proof (Z.mul_div_le (stop + step - 1) step ltac:(lia)) as Hdiv.
  set (n := (stop + step - 1) / step) in *.
  assert (i * step <= (n - 1) * step) by (apply Z.mul_le_mono_nonneg_r; lia).
  split; [apply Z.mul_nonneg_nonneg; lia|lia].
Qed.

Lemma getpixel_at_inside img x y :
  inside img x y = true -> getpixel_at img x y = Ok (getpixel img x y).
Proof.
  intros Hin. unfold getpixel_at.
  assert (0 <= x /\ 0 <= y) as [Hx Hy].
  { unfold inside in Hin. repeat (apply andb_true_iff in Hin as [Hin ?]).
    lia. }
  rewrite (proj2 (Z.ltb_ge _ _)), (proj2 (Z.ltb_ge _ _)) by lia.
  by rewrite Hin.
Qed.

Lemma read_all_inside img points :
  Forall (fun p => inside img p.1 p.2 = true) points ->
  read_all img points = Ok ((fun p => getpixel img p.1 p.2) <$> points).
Proof.
  induction 1 as [|[px py] points Hp _ IH]; [done|].
  cbn [read_all]. rewrite getpixel_at_inside by done. by rewrite IH.
Qed.

(** every position sampled around a bbox that lies on the image is on
    the image *)
Lemma sample_points_inside img x y width height sample_margin :
  0 < img_width img -> 0 < img_height img ->
  0 < sample_margin ->
  0 <= x -> 0 <= y -> 0 <= width -> 0 <= height ->
  x + width <= img_width img -> y + height <= img_height img ->
  Forall (fun p => inside img p.1 p.2 = true)
    (sample_points img x y width height sample_margin).
Proof.
  intros HW HH Hm Hx Hy Hw Hh Hxw Hyh.
  unfold sample_points. apply Forall_app. split.
  - apply Forall_forall. intros [px py] Hin.
    apply list_elem_of_bind in Hin as (dx & Hin & Hdx).
    apply py_range_bounds in Hdx; [|lia].
    apply elem_of_app in Hin as [Hin|Hin].
    + destruct (0 <=? y - sample_margin) eqn:Hg;
        [|by apply elem_of_nil in Hin].
      apply list_elem_of_singleton in Hin as [= -> ->]. cbn.
      unfold inside. repeat (apply andb_true_iff; split); lia.
    + destruct (_ <? img_height img) eqn:Hg;
        [|by apply elem_of_nil in Hin].
      apply list_elem_of_singleton in Hin as [= -> ->]. cbn.
      unfold inside. repeat (apply andb_true_iff; split); lia.
  - apply Forall_forall. intros [px py] Hin.
    apply list_elem_of_bind in Hin as (dy & Hin & Hdy).
    apply py_range_bounds in Hdy; [|lia].
    apply elem_of_app in Hin as [Hin|Hin].
    + destruct (0 <=? x - sample_margin) eqn:Hg;
        [|by apply elem_of_nil in Hin].
      apply list_elem_of_singleton in Hin as [= -> ->]. cbn.
      unfold inside. repeat (apply andb_true_iff; split); lia.
    + destruct (_ <? img_width img) eqn:Hg;
        [|by apply elem_of_nil in Hin].
      apply list_elem_of_singleton in Hin as [= -> ->]. cbn.
      unfold inside. repeat (apply andb_true_iff; split); lia.
Qed.

Lemma sum_bounds (lo hi : Z) (values : list Z) :
  Forall (fun v => lo <= v <= hi) values ->
  Z.of_nat (length values) * lo <= foldr Z.add 0 values
    <= Z.of_nat (length values) * hi.
Proof. induction 1 as [|v values Hv _ IH]; cbn [foldr length]; lia. Qed.

Lemma channel_mean_within (channel : pixel -> Z) lo hi pixels :
  pixels <> [] ->
  Forall (fun p => lo <= channel p <= hi) pixels ->
  lo <= channel_mean channel pixels <= hi.
Proof.
  intros Hne Hall. unfold channel_mean.
  assert (0 < Z.of_nat (length pixels)) as Hn
    by (destruct pixels; cbn; [done|lia]).
  pose proof (sum_bounds lo hi (channel <$> pixels)) as Hsum.
  rewrite length_fmap in Hsum.
  specialize (Hsum ltac:(by apply Forall_fmap)).
  split.
  - apply Z.div_le_lower_bound; lia.
  - apply Z.div_le_upper_bound; lia.
Qed.

(** X30: for a bbox that lies on a non-empty image and a positive sample
    margin, [estimate_background_color] reads no pixel off the image, so
    it does not raise; the colour it returns is the default white or has
    every channel between the smallest and the largest channel value of
    the image. *)
Theorem background_color_of_bbox_on_image
    img x y width height sample_margin lo hi :
  0 < img_width img -> 0 < img_height img ->
  0 < sample_margin ->
  0 <= x -> 0 <= y -> 0 <= width -> 0 <= height ->
  x + width <= img_width img -> y + height <= img_height img ->
  (forall i j, inside img i j = true ->
     channels_within lo hi (getpixel img i j)) ->
  exists color,
    estimate_background_color img x y width height sample_margin = Ok color
    /\ (color = (255, 255, 255) \/ channels_within lo hi color).
Proof.
  intros HW HH Hm Hx Hy Hw Hh Hxw Hyh Hpix.
  pose proof (sample_points_inside img x y width height sample_margin
                HW HH Hm Hx Hy Hw Hh Hxw Hyh) as Hin.
  unfold estimate_background_color.
  rewrite (read_all_inside _ _ Hin). cbn [mbind result_bind].
  set (pixels := _ <$> sample_points _ _ _ _ _ _).
  assert (Forall (channels_within lo hi) pixels) as Hall.
  { apply Forall_fmap. eapply Forall_impl; [exact Hin|].
    intros [px py] Hp. by apply Hpix. }
  clearbody pixels. destruct pixels as [|p rest].
  { eexists. split; [reflexivity|by left]. }
  eexists. split; [reflexivity|]. right.
  set (sampled := p :: rest) in *.
  assert (sampled <> []) as Hne by done. clearbody sampled.
  unfold channels_within at 1. cbn [red green blue fst snd].
  split; [|split]; apply channel_mean_within; try done;
    (eapply Forall_impl; [exact Hall|]); intros q (? & ? & ?); done.
Qed.

End SamplingProps.

(** * The further properties on concrete inputs *)

Module FurtherCases.
Import PyStr PyFloat Re Config Model Detection.
Import Exn Raster Storage Pdf Gemini Correction Api Scenarios.
Import Ocr Sampling Notions.
Import DetectionProps CorrectionProps EndpointProps EditorProps.
Import DetectionInvariants MergeProps RoiProps RoundTripProps.
Import EndpointInvariants EditorInvariants OcrProps SamplingProps.

#[local] Existing Instance ascii_runtime.
#[local] Existing Instance mem_store.

Lemma pair_eta {A B} (p : A * B) (a : A) : p.1 = a -> p = (a, p.2).
Proof. destruct p. by intros <-. Qed.

Lemma triple_eta {A B C} (p : A * B * C) (a : A) :
  p.1.1 = a -> p = (a, p.1.2, p.2).
Proof. destruct p as [[] ?]. by intros <-. Qed.

(** ** Detection *)

Lemma detect_issues_capped_witness :
  0 <= max_issues_per_page default_settings
  /\ Z.of_nat (length (detect_issues default_settings crowded_page "page-1"))
       <= max_issues_per_page default_settings
  /\ (length (detect_issues default_settings crowded_page "page-1")
        <= length crowded_page)%nat.
Proof.
  split; [by vm_compute|].
  apply detect_issues_capped. by vm_compute.
Defined.

(** the garbled block with a long number gives one issue, which is not
    auto-correctable *)
Lemma phone_issue_detected :
  detect_issues default_settings [phone_block] "page-1" = [phone_issue].
Proof. vm_compute. reflexivity. Qed.

Lemma phone_issue_returned :
  phone_issue ∈ detect_issues default_settings [phone_block] "page-1".
Proof. rewrite phone_issue_detected. apply list_elem_of_here. Qed.

Lemma detected_issue_shape_witness :
  phone_issue ∈ detect_issues default_settings [phone_block] "page-1"
  /\ page_id phone_issue = "page-1"%string
  /\ status phone_issue = detected
  /\ issue_type phone_issue <> manual
  /\ detected_problems phone_issue <> []
  /\ exists b, b ∈ [phone_block] /\ issue_for b phone_issue
               /\ confidence phone_issue = block_confidence b
               /\ suspect b = true.
Proof.
  split; [exact phone_issue_returned|].
  exact (detected_issue_shape default_settings [phone_block] "page-1"
           phone_issue phone_issue_returned).
Defined.

Lemma detected_issue_type_witness :
  phone_issue ∈ detect_issues default_settings [phone_block] "page-1"
  /\ exists b, b ∈ [phone_block] /\ issue_for b phone_issue
               /\ issue_type phone_issue = type_by_priority b.
Proof.
  split; [exact phone_issue_returned|].
  exact (detected_issue_type default_settings [phone_block] "page-1"
           phone_issue phone_issue_returned).
Defined.

Lemma sensitive_issue_not_auto_correctable_witness :
  phone_issue ∈ detect_issues default_settings [phone_block] "page-1"
  /\ contains_sensitive_pattern (ocr_text phone_issue) = true
  /\ auto_correctable phone_issue = false.
Proof.
  split; [exact phone_issue_returned|]. split; [reflexivity|].
  exact (sensitive_issue_not_auto_correctable default_settings
           [phone_block] "page-1" phone_issue phone_issue_returned
           eq_refl).
Defined.

(** ** Merging *)

Lemma merge_keeps_every_region_witness :
  draft 45 5 50 20 0.4%float (lit "B") ∈ near_pair
  /\ exists m, m ∈ merge_nearby_issues near_pair 20
               /\ covers m (draft 45 5 50 20 0.4%float (lit "B")).
Proof.
  assert (draft 45 5 50 20 0.4%float (lit "B") ∈ near_pair) as Hin
    by apply list_elem_of_further, list_elem_of_here.
  split; [exact Hin|].
  exact (merge_keeps_every_region near_pair 20 _ Hin).
Defined.



Lemma far_pair_apart i j a b :
  (i < j)%nat -> far_pair !! i = Some a -> far_pair !! j = Some b ->
  _bboxes_nearby a b 20 = false.
Proof.
  destruct i as [|[|i]], j as [|[|j]]; intros Hlt Ha Hb;
    try lia; try done.
  injection Ha as <-. injection Hb as <-. reflexivity.
Qed.

Lemma distant_issues_kept_witness :
  (forall i j a b, (i < j)%nat ->
     far_pair !! i = Some a -> far_pair !! j = Some b ->
     _bboxes_nearby a b 20 = false)
  /\ merge_nearby_issues far_pair 20 = far_pair.
Proof.
  split; [exact far_pair_apart|].
  exact (distant_issues_kept far_pair 20 far_pair_apart).
Defined.

(** ** ROI extraction *)

Lemma small_roi_extracted :
  extract_roi_with_margin default_settings (w_store fresh_world)
    page_path small_bbox None = Ok (Png small_roi, small_adj).
Proof. reflexivity. Qed.

Lemma gradient_stored :
  get (w_store fresh_world) page_path = Ok (Png gradient).
Proof. reflexivity. Qed.

Lemma roi_within_page_witness :
  extract_roi_with_margin default_settings (w_store fresh_world)
    page_path small_bbox None = Ok (Png small_roi, small_adj)
  /\ exists page roi,
       get (w_store fresh_world) page_path = Ok (Png page)
       /\ Png small_roi = Png roi
       /\ img_width roi = adj_width small_adj
       /\ img_height roi = adj_height small_adj
       /\ 0 <= adj_x small_adj /\ 0 <= adj_y small_adj
       /\ 0 < adj_width small_adj /\ 0 < adj_height small_adj
       /\ adj_x small_adj + adj_width small_adj <= img_width page
       /\ adj_y small_adj + adj_height small_adj <= img_height page.
Proof.
  split; [exact small_roi_extracted|].
  exact (roi_within_page default_settings (w_store fresh_world) page_path
           small_bbox None (Png small_roi) small_adj small_roi_extracted).
Defined.

Lemma roi_shows_page_region_witness :
  extract_roi_with_margin default_settings (w_store fresh_world)
    page_path small_bbox None = Ok (Png small_roi, small_adj)
  /\ exists page roi,
       get (w_store fresh_world) page_path = Ok (Png page)
       /\ Png small_roi = Png roi
       /\ forall i j, inside roi i j = true ->
            inside page (adj_x small_adj + i) (adj_y small_adj + j) = true
            /\ getpixel roi i j
               = getpixel page (adj_x small_adj + i) (adj_y small_adj + j).
Proof.
  split; [exact small_roi_extracted|].
  exact (roi_shows_page_region default_settings (w_store fresh_world)
           page_path small_bbox None (Png small_roi) small_adj
           small_roi_extracted).
Defined.

Lemma roi_at_most_one_over_cap_witness :
  extract_roi_with_margin default_settings (w_store fresh_world)
    page_path small_bbox None = Ok (Png small_roi, small_adj)
  /\ adj_width small_adj <= max_roi_width default_settings + 1
  /\ adj_height small_adj <= max_roi_height default_settings + 1.
Proof.
  split; [exact small_roi_extracted|].
  exact (roi_at_most_one_over_cap default_settings (w_store fresh_world)
           page_path small_bbox None (Png small_roi) small_adj
           small_roi_extracted).
Defined.

Lemma roi_contains_bbox_witness :
  extract_roi_with_margin default_settings (w_store fresh_world)
    page_path small_bbox None = Ok (Png small_roi, small_adj)
  /\ get (w_store fresh_world) page_path = Ok (Png gradient)
  /\ 0 <= default (roi_margin default_settings) None
  /\ 0 <= box_x small_bbox
  /\ box_x small_bbox + box_width small_bbox <= img_width gradient
  /\ 0 <= box_y small_bbox
  /\ box_y small_bbox + box_height small_bbox <= img_height gradient
  /\ box_width small_bbox + 2 * default (roi_margin default_settings) None
     <= max_roi_width default_settings
  /\ box_height small_bbox + 2 * default (roi_margin default_settings) None
     <= max_roi_height default_settings
  /\ 0 <= offset_x small_adj <= default (roi_margin default_settings) None
  /\ 0 <= offset_y small_adj <= default (roi_margin default_settings) None
  /\ offset_x small_adj + box_width small_bbox <= adj_width small_adj
  /\ offset_y small_adj + box_height small_bbox <= adj_height small_adj.
Proof.
  split; [exact small_roi_extracted|]. split; [exact gradient_stored|].
  repeat (split; [by vm_compute|]).
  apply (roi_contains_bbox default_settings (w_store fresh_world)
           page_path small_bbox None (Png small_roi) small_adj gradient
           small_roi_extracted gradient_stored); by vm_compute.
Defined.

(** ** Apply and undo *)

Lemma overlay_applied_ok :
  overlay_applied
  = (Ok (before_path_of "p1" "i1", after_path_of "p1" "i1",
         lit "text_overlay_success"), overlay_applied.2).
Proof. apply pair_eta. vm_compute. reflexivity. Qed.

Lemma page_path_not_before : page_path <> before_path_of "p1" "i1".
Proof. discriminate. Qed.

Lemma page_path_not_after : page_path <> after_path_of "p1" "i1".
Proof. discriminate. Qed.


Lemma keep_roi_fits : fits_roi keep_roi.
Proof.
  intros roi bbox text orig b [= <-]. exists roi. split; [done|]. lia.
Qed.

Lemma undo_at_roi_origin_restores_page_witness :
  fits_roi keep_roi
  /\ String.eqb "text_overlay" "nano_banana" = false
  /\ overlay_applied
     = (Ok (before_path_of "p1" "i1", after_path_of "p1" "i1",
            lit "text_overlay_success"), overlay_applied.2)
  /\ page_path <> before_path_of "p1" "i1"
  /\ page_path <> after_path_of "p1" "i1"
  /\ exists page roi adj w2 final,
       w_store fresh_world !! page_path = Some (Png page)
       /\ extract_roi_with_margin default_settings (w_store fresh_world)
            page_path small_bbox (Some (roi_margin default_settings))
          = Ok (Png roi, adj)
       /\ undo_correction page_path (before_path_of "p1" "i1")
            (roi_position adj) overlay_applied.2 = (true, w2)
       /\ w_store w2 !! page_path = Some (Png final)
       /\ same_raster final page.
Proof.
  split; [exact keep_roi_fits|]. split; [reflexivity|].
  split; [exact overlay_applied_ok|].
  split; [exact page_path_not_before|].
  split; [exact page_path_not_after|].
  exact (undo_at_roi_origin_restores_page default_settings keep_roi
           silent_model page_path small_bbox (lit "A") (lit "?")
           "text_overlay" "p1" "i1" fresh_world _ _ _ _
           keep_roi_fits eq_refl overlay_applied_ok
           page_path_not_before page_path_not_after).
Defined.

(** the renderer raises after the before-patch was saved *)
Lemma overlay_failed_raises :
  overlay_failed = (Raise (lit "cannot open resource"), overlay_failed.2).
Proof. apply pair_eta. vm_compute. reflexivity. Qed.

Lemma failed_apply_keeps_page_witness :
  overlay_failed = (Raise (lit "cannot open resource"), overlay_failed.2)
  /\ forall p, p <> before_path_of "p1" "i1" ->
       p <> after_path_of "p1" "i1" ->
       w_store overlay_failed.2 !! p = w_store fresh_world !! p.
Proof.
  split; [exact overlay_failed_raises|].
  exact (failed_apply_keeps_page default_settings failing_renderer
           silent_model page_path small_bbox (lit "A") (lit "?")
           "text_overlay" "p1" "i1" fresh_world _ _ overlay_failed_raises).
Defined.

(** ** Endpoints *)

Lemma unknown_issue_rejected :
  create_correction default_settings keep_roi silent_model
    unknown_request "c1" 0 db_reviewing fresh_world
  = (HTTPException 404 (lit "Issue not found"), db_reviewing, fresh_world).
Proof. reflexivity. Qed.

Lemma rejected_correction_keeps_records_witness :
  create_correction default_settings keep_roi silent_model
    unknown_request "c1" 0 db_reviewing fresh_world
  = (HTTPException 404 (lit "Issue not found"), db_reviewing, fresh_world)
  /\ db_reviewing = db_reviewing
  /\ (404 = 404 \/ 404 = 400 \/ 404 = 500)
  /\ (404 <> 500 -> fresh_world = fresh_world).
Proof.
  split; [exact unknown_issue_rejected|].
  exact (rejected_correction_keeps_records default_settings keep_roi
           silent_model unknown_request "c1" 0 db_reviewing fresh_world
           _ _ _ _ unknown_issue_rejected).
Defined.

Lemma first_undo_ok :
  first_undo
  = (Response {| undo_id := "c1"; undone := true;
                 issue_status := reviewing |},
     first_undo.1.2, first_undo.2).
Proof. apply triple_eta. vm_compute. reflexivity. Qed.

Lemma second_undo_rejected_witness :
  first_undo
  = (Response {| undo_id := "c1"; undone := true;
                 issue_status := reviewing |},
     first_undo.1.2, first_undo.2)
  /\ (exists c,
        corrections (first_apply keep_roi silent_model 0).1.2 !! "c1"%string
          = Some c
        /\ applied c = true
        /\ applied <$> corrections first_undo.1.2 !! "c1"%string
           = Some false
        /\ row_status <$> issues first_undo.1.2 !! issue_id c
           = Some reviewing)
  /\ forall w',
       undo_correction_endpoint "c1" first_undo.1.2 w'
       = (HTTPException 400 (lit "Correction is not currently applied"),
          first_undo.1.2, w').
Proof.
  split; [exact first_undo_ok|].
  exact (second_undo_rejected "c1"
           (first_apply keep_roi silent_model 0).1.2
           (first_apply keep_roi silent_model 0).2 _ _ _ first_undo_ok).
Defined.

Lemma first_apply_ok :
  first_apply keep_roi silent_model 0
  = (Response {| body_id := "c1";
                 body_status := lit "text_overlay_success";
                 body_applied := true |},
     (first_apply keep_roi silent_model 0).1.2,
     (first_apply keep_roi silent_model 0).2).
Proof. apply triple_eta. vm_compute. reflexivity. Qed.

Lemma page_apart_from_patches issue page :
  issues db_reviewing !! req_issue_id overlay_request = Some issue ->
  pages db_reviewing !! row_page_id issue = Some page ->
  image_path page
    <> before_path_of (project_id page) (req_issue_id overlay_request)
  /\ image_path page
     <> after_path_of (project_id page) (req_issue_id overlay_request).
Proof.
  intros Hi Hp.
  change (({[ "i1"%string := small_issue reviewing ]}
             : gmap string IssueRow) !! "i1"%string = Some issue) in Hi.
  rewrite lookup_singleton_eq in Hi. injection Hi as <-.
  change (({[ "pg1"%string := page_row ]} : gmap string PageRow)
            !! "pg1"%string = Some page) in Hp.
  rewrite lookup_singleton_eq in Hp. injection Hp as <-.
  split; discriminate.
Qed.

Lemma created_correction_can_be_undone_witness :
  first_apply keep_roi silent_model 0
  = (Response {| body_id := "c1";
                 body_status := lit "text_overlay_success";
                 body_applied := true |},
     (first_apply keep_roi silent_model 0).1.2,
     (first_apply keep_roi silent_model 0).2)
  /\ (forall issue page,
        issues db_reviewing !! req_issue_id overlay_request = Some issue ->
        pages db_reviewing !! row_page_id issue = Some page ->
        image_path page
          <> before_path_of (project_id page)
               (req_issue_id overlay_request)
        /\ image_path page
           <> after_path_of (project_id page)
                (req_issue_id overlay_request))
  /\ exists db2 w2,
       undo_correction_endpoint "c1"
         (first_apply keep_roi silent_model 0).1.2
         (first_apply keep_roi silent_model 0).2
       = (Response {| undo_id := "c1"; undone := true;
                      issue_status := reviewing |}, db2, w2)
       /\ row_status <$> issues db2 !! req_issue_id overlay_request
          = Some reviewing
       /\ applied <$> corrections db2 !! "c1"%string = Some false.
Proof.
  split; [exact first_apply_ok|]. split; [exact page_apart_from_patches|].
  exact (created_correction_can_be_undone default_settings keep_roi
           silent_model overlay_request "c1" 0 db_reviewing fresh_world
           _ _ _ first_apply_ok page_apart_from_patches).
Defined.

(** ** The image editor *)

Lemma stale_session_always n :
  (0 <= n < 0 + Z.to_nat (max_retries new_editor))%nat ->
  exists e, stale_session_model n = Throws e
            /\ is_signature_error e = true.
Proof. intros _. eexists. split; reflexivity. Qed.

Lemma persistent_signature_errors_witness :
  (forall n, (0 <= n < 0 + Z.to_nat (max_retries new_editor))%nat ->
     exists e, stale_session_model n = Throws e
               /\ is_signature_error e = true)
  /\ edit_roi_patch stale_session_model new_editor 0 (Raw [])
       (lit "?") (lit "A")
     = ((None, lit "Max retries exceeded"),
        after_signature_errors new_editor (Z.to_nat (max_retries new_editor)),
        (0 + Z.to_nat (max_retries new_editor))%nat).
Proof.
  split; [exact stale_session_always|].
  exact (persistent_signature_errors stale_session_model new_editor 0%nat
           (Raw []) (lit "?") (lit "A") stale_session_always).
Defined.

Lemma offline_always n :
  (0 <= n < 0 + Z.to_nat (max_retries new_editor))%nat ->
  exists e, offline_model n = Throws e
            /\ is_signature_error e = false
            /\ is_rate_limit_error e = false.
Proof. intros _. eexists. repeat split; reflexivity. Qed.

Lemma persistent_other_errors_witness :
  1 <= max_retries new_editor
  /\ (forall n, (0 <= n < 0 + Z.to_nat (max_retries new_editor))%nat ->
        exists e, offline_model n = Throws e
                  /\ is_signature_error e = false
                  /\ is_rate_limit_error e = false)
  /\ offline_model (0 + Z.to_nat (max_retries new_editor) - 1)%nat
     = Throws (lit "connection reset")
  /\ edit_roi_patch offline_model new_editor 0 (Raw []) (lit "?") (lit "A")
     = ((None, lit "Gemini error after " ++ decimal (max_retries new_editor)
               ++ lit " attempts: " ++ lit "connection reset"),
        new_editor, (0 + Z.to_nat (max_retries new_editor))%nat).
Proof.
  split; [by vm_compute|]. split; [exact offline_always|].
  split; [reflexivity|].
  apply (persistent_other_errors offline_model new_editor 0%nat
           (Raw []) (lit "?") (lit "A") (lit "connection reset"));
    [by vm_compute | exact offline_always | reflexivity].
Defined.

(** ** OCR helpers *)

Lemma vertices_to_bbox_encloses_witness :
  quad <> []
  /\ exists bbox,
       _vertices_to_bbox quad = Ok bbox
       /\ 0 <= box_width bbox /\ 0 <= box_height bbox
       /\ (forall x y, (x, y) ∈ quad ->
             box_x bbox <= x <= box_x bbox + box_width bbox
             /\ box_y bbox <= y <= box_y bbox + box_height bbox)
       /\ (exists v, v ∈ quad /\ v.1 = box_x bbox)
       /\ (exists v, v ∈ quad /\ v.1 = box_x bbox + box_width bbox)
       /\ (exists v, v ∈ quad /\ v.2 = box_y bbox)
       /\ (exists v, v ∈ quad /\ v.2 = box_y bbox + box_height bbox).
Proof.
  assert (quad <> []) as Hne by discriminate.
  split; [exact Hne|]. exact (vertices_to_bbox_encloses quad Hne).
Defined.

(** for the third of [five_lines] and no line of context, the context
    after it is empty and the context before it holds both lines above *)
Lemma context_line_counts_witness :
  0 <= 0
  /\ Z.of_nat (length (context_blocks five_lines
                         (block_bbox (line 60 "three")) 0).2)
     = Z.min 0 (Z.of_nat (length (filter
                                    (below (block_bbox (line 60 "three")))
                                    five_lines)))
  /\ Z.of_nat (length (context_blocks five_lines
                         (block_bbox (line 60 "three")) 0).1)
     = (if 0 =? 0
        then Z.of_nat (length (filter
                                 (above (block_bbox (line 60 "three")))
                                 five_lines))
        else Z.min 0 (Z.of_nat (length (filter
                                          (above
                                             (block_bbox (line 60 "three")))
                                          five_lines)))).
Proof.
  split; [by vm_compute|].
  apply (context_line_counts five_lines (block_bbox (line 60 "three")) 0).
  by vm_compute.
Defined.

(** ** Colour sampling *)

Lemma gradient_channels i j :
  inside gradient i j = true ->
  channels_within 0 255 (getpixel gradient i j).
Proof.
  unfold inside, channels_within. cbn. intros Hin.
  repeat (apply andb_true_iff in Hin as [Hin ?]). lia.
Qed.

Lemma background_color_of_bbox_on_image_witness :
  0 < img_width gradient /\ 0 < img_height gradient
  /\ 0 < 5
  /\ 0 <= 50 /\ 0 <= 50 /\ 0 <= 10 /\ 0 <= 10
  /\ 50 + 10 <= img_width gradient /\ 50 + 10 <= img_height gradient
  /\ (forall i j, inside gradient i j = true ->
        channels_within 0 255 (getpixel gradient i j))
  /\ exists color,
       estimate_background_color gradient 50 50 10 10 5 = Ok color
       /\ (color = (255, 255, 255) \/ channels_within 0 255 color).
Proof.
  repeat (split; [by vm_compute|]).
  split; [exact gradient_channels|].
  apply (background_color_of_bbox_on_image gradient 50 50 10 10 5 0 255);
    try (by vm_compute).
  exact gradient_channels.
Defined.

End FurtherCases.
